(** * ajnabi-connect-vibes: payment capture, call matching and signalling

    A shallow embedding of

    - the [razorpay-payments] edge function (order creation and payment
      signature verification),
    - [CallMatchingService] (pairing of waiting users by gender preference
      over the [matchingRequests] and [calls] Firestore collections), and
    - [WebRTCService] in its SimplePeer variant (calls and the relay of
      signals over the [calls] and [signals] collections),

    followed by the properties the specification states about them.

    Code that awaits an SDK call is embedded in a state-and-exception monad:
    [await] is sequencing, [throw] is [Throw], [try]/[catch] is [try_catch].
    What the outside world decides (the gateway's reply, whether a database
    call fails, the ids Firestore generates, the clock) is read from oracle
    fields of the state that no operation changes. *)

From Stdlib Require Import PrimFloat.
From stdpp Require Import gmap strings list fin_maps sorting pretty.
From Stdlib Require Import ZArith Lia Ascii.

#[local] Set Warnings "-inexact-float".
Local Open Scope Z_scope.

(** ** Exceptions and the state-and-exception monad *)

(** The outcome of running JavaScript code: a value, or a thrown [Error]
    with its [message]. *)
Inductive Result (A : Type) : Type :=
  | Ok (a : A)
  | Throw (message : string).
Arguments Ok {A} a.
Arguments Throw {A} message.

Definition M (S A : Type) : Type := S → Result A * S.

Definition ret {S A} (a : A) : M S A := λ s, (Ok a, s).
Definition throw {S A} (message : string) : M S A := λ s, (Throw message, s).
Definition bind {S A B} (m : M S A) (k : A → M S B) : M S B :=
  λ s, match m s with
       | (Ok a, s') => k a s'
       | (Throw e, s') => (Throw e, s')
       end.
(** [try { m } catch (error) { h error.message }] *)
Definition try_catch {S A} (m : M S A) (h : string → M S A) : M S A :=
  λ s, match m s with
       | (Ok a, s') => (Ok a, s')
       | (Throw e, s') => h e s'
       end.
Definition gets {S A} (f : S → A) : M S A := λ s, (Ok (f s), s).
Definition modify {S} (f : S → S) : M S unit := λ s, (Ok tt, f s).

Declare Scope js_scope.
Delimit Scope js_scope with js.
Notation "'let*' x := m 'in' k" := (bind m (λ x, k))
  (at level 10, x pattern, m at level 100, k at level 200) : js_scope.
Notation "m ;;; k" := (bind m (λ _, k))
  (at level 100, k at level 200, right associativity) : js_scope.
Local Open Scope js_scope.

(** JavaScript's [a || b] on an optional string: [undefined], [null] and
    the empty string are falsy. *)
Definition js_or (a : option string) (b : string) : string :=
  match a with
  | Some s => if decide (s = "") then b else s
  | None => b
  end.

(** [!s] for an optional string. *)
Definition js_falsy (a : option string) : bool :=
  match a with
  | Some s => bool_decide (s = "")
  | None => true
  end.

(** A JavaScript number, which is what [JSON.parse] makes of a JSON number:
    an IEEE-754 binary64 value.  [a * b] on numbers is the binary64 product,
    [(a * b)%float]: the exact product rounded to the nearest value, ties
    to even. *)
Definition Number : Type := float.

(** ** The [razorpay-payments] edge function *)

Module RazorpayPayments.

Definition corsHeaders : list (string * string) :=
  [ ("Access-Control-Allow-Origin", "*");
    ("Access-Control-Allow-Headers",
     "authorization, x-client-info, apikey, content-type") ].

Definition jsonHeaders : list (string * string) :=
  corsHeaders ++ [("Content-Type", "application/json")].

Definition RAZORPAY_KEY_ID : string := "rzp_test_WQBAQbslF30m1w".

(** [product_details] is a JSON object; the code only reads two of its
    fields, to print them. *)
Definition ProductDetails : Type := list (string * string).

Definition field (d : ProductDetails) (k : string) : string :=
  match list_find (λ kv, kv.1 = k) d with
  | Some (_, (_, v)) => v
  | None => "undefined"
  end.

(** Modelled from the spec: the columns of the [orders] table, whose schema
    is not among the sources (section 3 of the specification: id, user id,
    gateway order id, amount, currency, status, product type, product
    details, payment id, signature). *)
Record Order : Type := {
  id : N;
  user_id : string;
  razorpay_order_id : string;
  amount : Number;
  currency : string;
  status : string;
  product_type : string;
  product_details : ProductDetails;
  razorpay_payment_id : option string;
  razorpay_signature : option string;
}.

(** The JSON body of a request, after [const { action, ...payload }]: the
    fields the two actions read, with the types the client sends them in
    (ids and the signature are strings, the amount is a number, in rupees,
    that nothing validates; the currency may be left out). *)
Record Body : Type := {
  action : string;
  p_amount : Number;
  p_currency : option string;
  p_product_type : string;
  p_product_details : ProductDetails;
  p_user_id : string;
  p_razorpay_order_id : string;
  p_razorpay_payment_id : string;
  p_razorpay_signature : string;
}.

Record Request : Type := {
  method : string;
  json : Result Body;        (* [await req.json()] *)
}.

(** The POST the function sends to [https://api.razorpay.com/v1/orders]:
    url, method, authorization header, and the object its body is the
    [JSON.stringify] of.  ([JSON.stringify] writes a number in the shortest
    decimal form that reads back as the same number, so [g_amount] stands
    for that text; a number that is not finite is written [null].) *)
Record GatewayRequest : Type := {
  g_url : string;
  g_method : string;
  g_authorization : string;
  g_amount : Number;
  g_currency : string;
  g_receipt : string;
}.

(** The order object the gateway answers with. *)
Record RazorpayOrder : Type := {
  rz_id : string;
  rz_amount : Number;
  rz_currency : string;
}.

(** What the gateway may answer: nothing ([fetch] rejects), a reply whose
    body is the JSON of an order object, or a reply whose body
    [orderResponse.json()] cannot read, so that it rejects with [message]. *)
Inductive FetchReply : Type :=
  | NetworkError (message : string)
  | HttpReply (ok : bool) (body : RazorpayOrder)
  | HttpUnreadable (ok : bool) (message : string).

(** What [supabase-js] resolves to: [{ data, error }]. *)
Inductive PostgrestResponse : Type :=
  | Data (order : Order)
  | Error (message : string).

Inductive ResponseBody : Type :=
  | NoBody
  | OrderCreated (success : bool) (order_id : string) (amount : Number)
                 (currency : string) (key_id : string)
  | PaymentVerified (success : bool) (message : string) (order : Order)
  | Failure (success : bool) (error : string).

Record Response : Type := {
  r_status : Z;
  r_headers : list (string * string);
  r_body : ResponseBody;
}.

(** The state the function works on.  [orders], [orders_seq] and [gateway]
    are what is stored (in the database and at the gateway); [console] is
    the function's log; the remaining fields are the environment of one
    invocation and are only read. *)
Record Backend : Type := {
  orders : list Order;
  orders_seq : N;
  gateway : list GatewayRequest;
  console : list string;
  (* environment *)
  RAZORPAY_SECRET_KEY : option string;
  Date_now : Z;
  gateway_reply : GatewayRequest → FetchReply;
  database_error : option string;
}.

Definition set_orders (f : list Order → list Order) (w : Backend) : Backend :=
  {| orders := f (orders w); orders_seq := orders_seq w;
     gateway := gateway w; console := console w;
     RAZORPAY_SECRET_KEY := RAZORPAY_SECRET_KEY w; Date_now := Date_now w;
     gateway_reply := gateway_reply w; database_error := database_error w |}.

Definition set_orders_seq (n : N) (w : Backend) : Backend :=
  {| orders := orders w; orders_seq := n;
     gateway := gateway w; console := console w;
     RAZORPAY_SECRET_KEY := RAZORPAY_SECRET_KEY w; Date_now := Date_now w;
     gateway_reply := gateway_reply w; database_error := database_error w |}.

Definition set_gateway (f : list GatewayRequest → list GatewayRequest)
    (w : Backend) : Backend :=
  {| orders := orders w; orders_seq := orders_seq w;
     gateway := f (gateway w); console := console w;
     RAZORPAY_SECRET_KEY := RAZORPAY_SECRET_KEY w; Date_now := Date_now w;
     gateway_reply := gateway_reply w; database_error := database_error w |}.

Definition set_console (f : list string → list string) (w : Backend) : Backend :=
  {| orders := orders w; orders_seq := orders_seq w;
     gateway := gateway w; console := f (console w);
     RAZORPAY_SECRET_KEY := RAZORPAY_SECRET_KEY w; Date_now := Date_now w;
     gateway_reply := gateway_reply w; database_error := database_error w |}.

(** [console.log] / [console.error] *)
Definition console_log (line : string) : M Backend unit :=
  modify (set_console (λ l, l ++ [line])).

(** The [Response] that [fetch] resolves to: its [ok] flag and what
    [await response.json()] gives. *)
Record FetchResponse : Type := {
  f_ok : bool;
  f_json : Result RazorpayOrder;
}.

(** [await fetch(url, init)]: the gateway receives the request and answers. *)
Definition fetch (rq : GatewayRequest) : M Backend FetchResponse :=
  λ w, match gateway_reply w rq with
       | NetworkError e => (Throw e, w)
       | HttpReply ok body =>
           (Ok {| f_ok := ok; f_json := Ok body |},
            set_gateway (λ l, l ++ [rq]) w)
       | HttpUnreadable ok e =>
           (Ok {| f_ok := ok; f_json := Throw e |},
            set_gateway (λ l, l ++ [rq]) w)
       end.

(** [await response.json()] *)
Definition response_json (response : FetchResponse) : M Backend RazorpayOrder :=
  λ w, (f_json response, w).

(** [supabaseClient.from('orders').insert(row).select().single()]: the row
    is stored with a fresh id and returned, unless the database call fails. *)
Definition orders_insert (row : N → Order) : M Backend PostgrestResponse :=
  λ w, match database_error w with
       | Some e => (Ok (Error e), w)
       | None =>
           let order := row (orders_seq w) in
           (Ok (Data order),
            set_orders_seq (N.succ (orders_seq w))
              (set_orders (λ l, l ++ [order]) w))
       end.

(** [supabaseClient.from('orders').update(patch).eq(..).eq(..).select()
    .single()]: the rows that pass the filters are patched and returned;
    [single()] makes the request fail, and PostgREST roll the update back,
    unless exactly one row was affected. *)
Definition orders_update (patch : Order → Order) (filter_ : Order → bool)
    : M Backend PostgrestResponse :=
  λ w, match database_error w with
       | Some e => (Ok (Error e), w)
       | None =>
           match List.filter filter_ (orders w) with
           | [order] =>
               (Ok (Data (patch order)),
                set_orders
                  (List.map (λ o, if filter_ o then patch o else o)) w)
           | _ => (Ok (Error "JSON object requested, multiple (or no) rows returned"), w)
           end
       end.

Section Handler.

(** [createHmac("sha256", key).update(body).digest("hex")] of the Deno
    standard library: the lowercase hexadecimal HMAC-SHA256 of [body] under
    [key]. *)
Variable hmac_sha256_hex : string → string → string.

(** The runtime's [btoa]. *)
Variable btoa : string → string.

Definition create_order (secret : string) (payload : Body) : M Backend Response :=
  let* now := gets Date_now in
  (* Create order with Razorpay *)
  let* orderResponse :=
    fetch {| g_url := "https://api.razorpay.com/v1/orders";
             g_method := "POST";
             g_authorization :=
               "Basic " +:+ btoa (RAZORPAY_KEY_ID +:+ ":" +:+ secret);
             g_amount := (p_amount payload * 100)%float;  (* Convert to paise *)
             g_currency := js_or (p_currency payload) "INR";
             g_receipt := "receipt_" +:+ pretty now |} in
  if negb (f_ok orderResponse) then throw "Failed to create Razorpay order" else
  let* razorpayOrder := response_json orderResponse in
  (* Store order in database *)
  let* stored :=
    orders_insert (λ i,
      {| id := i;
         user_id := p_user_id payload;
         razorpay_order_id := rz_id razorpayOrder;
         amount := p_amount payload;
         currency := js_or (p_currency payload) "INR";
         status := "created";
         product_type := p_product_type payload;
         product_details := p_product_details payload;
         razorpay_payment_id := None;
         razorpay_signature := None |}) in
  match stored with
  | Error e =>
      console_log ("Database error: " +:+ e) ;;;
      throw "Failed to store order in database"
  | Data order =>
      ret {| r_status := 200;
             r_headers := jsonHeaders;
             r_body := OrderCreated true (rz_id razorpayOrder)
                         (rz_amount razorpayOrder) (rz_currency razorpayOrder)
                         RAZORPAY_KEY_ID |}
  end.

Definition mark_paid (payment_id signature : string) (o : Order) : Order :=
  {| id := id o;
     user_id := user_id o;
     razorpay_order_id := razorpay_order_id o;
     amount := amount o;
     currency := currency o;
     status := "paid";
     product_type := product_type o;
     product_details := product_details o;
     razorpay_payment_id := Some payment_id;
     razorpay_signature := Some signature |}.

Definition verify_payment (secret : string) (payload : Body) : M Backend Response :=
  let razorpay_order_id' := p_razorpay_order_id payload in
  let razorpay_payment_id' := p_razorpay_payment_id payload in
  let razorpay_signature' := p_razorpay_signature payload in
  let user_id' := p_user_id payload in
  (* Verify signature *)
  let body := razorpay_order_id' +:+ "|" +:+ razorpay_payment_id' in
  let expectedSignature := hmac_sha256_hex secret body in
  if negb (String.eqb expectedSignature razorpay_signature')
  then throw "Invalid payment signature" else
  (* Update order status *)
  let* updated :=
    orders_update (mark_paid razorpay_payment_id' razorpay_signature')
      (λ o, String.eqb (razorpay_order_id o) razorpay_order_id'
            && String.eqb (user_id o) user_id') in
  match updated with
  | Error e =>
      console_log ("Database error: " +:+ e) ;;;
      throw "Failed to update order status"
  | Data order =>
      (* Process the successful payment based on product type *)
      (if String.eqb (product_type order) "coins" then
         console_log ("Adding " +:+ field (product_details order) "coins"
                      +:+ " coins to user " +:+ user_id')
       else if String.eqb (product_type order) "premium" then
         console_log ("Activating premium for user " +:+ user_id' +:+ " for "
                      +:+ field (product_details order) "duration")
       else if String.eqb (product_type order) "unlimited_calls" then
         console_log ("Activating unlimited calls for user " +:+ user_id'
                      +:+ " for " +:+ field (product_details order) "duration")
       else ret tt) ;;;
      ret {| r_status := 200;
             r_headers := jsonHeaders;
             r_body := PaymentVerified true "Payment verified successfully" order |}
  end.

(** The body of the handler's [try] block. *)
Definition dispatch (req : Request) : M Backend Response :=
  let* secret := gets RAZORPAY_SECRET_KEY in
  if js_falsy secret then throw "RAZORPAY_SECRET_KEY is not configured" else
  let secret := default "" secret in
  match json req with
  | Throw e => throw e
  | Ok payload =>
      if String.eqb (action payload) "create_order" then
        create_order secret payload
      else if String.eqb (action payload) "verify_payment" then
        verify_payment secret payload
      else throw "Invalid action"
  end.

(** The function passed to [serve]. *)
Definition handler (req : Request) : M Backend Response :=
  (* Handle CORS preflight requests *)
  if String.eqb (method req) "OPTIONS" then
    ret {| r_status := 200; r_headers := corsHeaders; r_body := NoBody |}
  else
    try_catch (dispatch req) (λ message,
      console_log ("Payment error: " +:+ message) ;;;
      ret {| r_status := 400;
             r_headers := jsonHeaders;
             r_body := Failure false message |}).

End Handler.

(** *** Vocabulary of the properties *)

(** The string the signature is computed over: [O + "|" + P]. *)
Definition signed_body (payload : Body) : string :=
  p_razorpay_order_id payload +:+ "|" +:+ p_razorpay_payment_id payload.

(** [s'] is [s] with exactly one character replaced by another one. *)
Definition single_character_mutation (s s' : string) : Prop :=
  ∃ (before after : string) (a b : Ascii.ascii),
    a ≠ b ∧ s = before +:+ String a after ∧ s' = before +:+ String b after.

Definition with_signature (signature : string) (payload : Body) : Body :=
  {| action := action payload; p_amount := p_amount payload;
     p_currency := p_currency payload;
     p_product_type := p_product_type payload;
     p_product_details := p_product_details payload;
     p_user_id := p_user_id payload;
     p_razorpay_order_id := p_razorpay_order_id payload;
     p_razorpay_payment_id := p_razorpay_payment_id payload;
     p_razorpay_signature := signature |}.


(** The rows [verify_payment] addresses: those of the gateway order and of
    the user named in the request. *)
Definition order_matches (payload : Body) (o : Order) : bool :=
  String.eqb (razorpay_order_id o) (p_razorpay_order_id payload)
  && String.eqb (user_id o) (p_user_id payload).

(** The request [create_order] sends to the gateway at time [now]. *)
Definition gateway_request (btoa : string → string) (secret : string)
    (payload : Body) (now : Z) : GatewayRequest :=
  {| g_url := "https://api.razorpay.com/v1/orders";
     g_method := "POST";
     g_authorization := "Basic " +:+ btoa (RAZORPAY_KEY_ID +:+ ":" +:+ secret);
     g_amount := (p_amount payload * 100)%float;
     g_currency := js_or (p_currency payload) "INR";
     g_receipt := "receipt_" +:+ pretty now |}.

(** The row [create_order] stores for the gateway order [razorpayOrder]. *)
Definition new_order (payload : Body) (razorpayOrder : RazorpayOrder) (i : N) : Order :=
  {| id := i;
     user_id := p_user_id payload;
     razorpay_order_id := rz_id razorpayOrder;
     amount := p_amount payload;
     currency := js_or (p_currency payload) "INR";
     status := "created";
     product_type := p_product_type payload;
     product_details := p_product_details payload;
     razorpay_payment_id := None;
     razorpay_signature := None |}.

(** The answer of the handler's [catch] block. *)
Definition failure_response (message : string) : Response :=
  {| r_status := 400; r_headers := jsonHeaders;
     r_body := Failure false message |}.

(** The [success] field of a response body, if it has one. *)
Definition success_field (b : ResponseBody) : option bool :=
  match b with
  | NoBody => None
  | OrderCreated success _ _ _ _ => Some success
  | PaymentVerified success _ _ => Some success
  | Failure success _ => Some success
  end.

(** *** A sample deployment *)

(** Stand-ins for the two runtime functions, to run the handler on concrete
    requests. *)
Definition sample_hmac (key body : string) : string :=
  "hmac(" +:+ key +:+ "," +:+ body +:+ ")".
Definition sample_btoa (s : string) : string := "b64(" +:+ s +:+ ")".

(** An empty [orders] table, a configured secret, and a gateway that accepts
    every order and echoes amount and currency. *)
Definition sample_backend : Backend :=
  {| orders := []; orders_seq := 1; gateway := []; console := [];
     RAZORPAY_SECRET_KEY := Some "s3cret";
     Date_now := 1700000000000;
     gateway_reply := λ rq,
       HttpReply true {| rz_id := "order_N1"; rz_amount := g_amount rq;
                         rz_currency := g_currency rq |};
     database_error := None |}.

(** [create_order(1000, "INR", "coins", {coins: 100}, "u1")] *)
Definition sample_create_order : Body :=
  {| action := "create_order"; p_amount := 1000%float; p_currency := Some "INR";
     p_product_type := "coins"; p_product_details := [("coins", "100")];
     p_user_id := "u1"; p_razorpay_order_id := "";
     p_razorpay_payment_id := ""; p_razorpay_signature := "" |}.

(** [verify_payment("order_N1", "pay_7", signature, "u1")] *)
Definition sample_verify_payment (signature : string) : Body :=
  {| action := "verify_payment"; p_amount := 0%float; p_currency := None;
     p_product_type := ""; p_product_details := [];
     p_user_id := "u1"; p_razorpay_order_id := "order_N1";
     p_razorpay_payment_id := "pay_7"; p_razorpay_signature := signature |}.

Definition sample_signature : string := sample_hmac "s3cret" "order_N1|pay_7".

Definition post (body : Body) : Request :=
  {| method := "POST"; json := Ok body |}.

(** The sample deployment in other environments. *)
Definition with_environment (secret : option string)
    (reply : GatewayRequest → FetchReply) (db : option string)
    (w : Backend) : Backend :=
  {| orders := orders w; orders_seq := orders_seq w; gateway := gateway w;
     console := console w; RAZORPAY_SECRET_KEY := secret;
     Date_now := Date_now w; gateway_reply := reply; database_error := db |}.

Definition database_down : Backend → Backend :=
  with_environment (Some "s3cret") (gateway_reply sample_backend)
    (Some "connection refused").

Definition gateway_refusing : Backend → Backend :=
  with_environment (Some "s3cret")
    (λ rq, HttpReply false {| rz_id := ""; rz_amount := 0%float; rz_currency := "" |})
    None.

(** The gateway accepts the order but what it sends back is not JSON. *)
Definition gateway_garbling : Backend → Backend :=
  with_environment (Some "s3cret")
    (λ rq, HttpUnreadable true "Unexpected end of JSON input") None.

Definition unconfigured : Backend → Backend :=
  with_environment (Some "") (gateway_reply sample_backend) None.

(** Another user presents the right signature for the sample order. *)
Definition sample_verify_payment_by (user : string) : Body :=
  {| action := "verify_payment"; p_amount := 0%float; p_currency := None;
     p_product_type := ""; p_product_details := [];
     p_user_id := user; p_razorpay_order_id := "order_N1";
     p_razorpay_payment_id := "pay_7"; p_razorpay_signature := sample_signature |}.

(** A request for an action the function does not have. *)
Definition sample_refund : Body :=
  {| action := "refund"; p_amount := 1000%float; p_currency := None;
     p_product_type := ""; p_product_details := [];
     p_user_id := "u1"; p_razorpay_order_id := "order_N1";
     p_razorpay_payment_id := ""; p_razorpay_signature := "" |}.

(** The state after the sample order has been created. *)
Definition sample_backend_with_order : Backend :=
  (handler sample_hmac sample_btoa (post sample_create_order) sample_backend).2.


End RazorpayPayments.

(** ** [CallMatchingService] *)

Module CallMatching.

Inductive Gender : Type := male | female | other.
Inductive Preference : Type := anyone | men | women.
Inductive CallType : Type := video | voice.
Inductive Status : Type := waiting | matched | cancelled.

Global Instance Gender_eq_dec : EqDecision Gender.
Proof. solve_decision. Defined.
Global Instance Preference_eq_dec : EqDecision Preference.
Proof. solve_decision. Defined.
Global Instance CallType_eq_dec : EqDecision CallType.
Proof. solve_decision. Defined.
Global Instance Status_eq_dec : EqDecision Status.
Proof. solve_decision. Defined.

(** A Firestore [Timestamp], in milliseconds since the epoch (the precision
    of [Timestamp.now()] and [Timestamp.fromDate]). *)
Definition Timestamp : Type := Z.

(** The fields of a document of the [matchingRequests] collection. *)
Record MatchingRequestData : Type := {
  userId : string;
  userGender : Gender;
  preferredGender : Preference;
  isPremium : bool;
  callType : CallType;
  status : Status;
  createdAt : Timestamp;
  matchedWith : option string;
  callId : option string;
}.

(** [interface MatchingRequest]: a document together with its id, as built by
    [{ id: docSnap.id, ...docSnap.data() }]. *)
Record MatchingRequest : Type := {
  id : string;
  data : MatchingRequestData;
}.

Module Call.

Inductive Status : Type := waiting | connecting | connected | ended.

(** The fields of a document of the [calls] collection
    ([interface CallData], without the id). *)
Record Data : Type := {
  callerId : string;
  receiverId : option string;
  status : Status;
  createdAt : Timestamp;
  endedAt : option Timestamp;
  callType : CallType;
}.

End Call.

(** The client: the two collections, the service's listener handle and its
    console; then the environment, which is only read, except that
    [sdk_calls] counts the Firestore calls made so far. *)
Record Client : Type := {
  matchingRequests : gmap string MatchingRequestData;
  calls : gmap string Call.Data;
  matchingUnsubscribe : option string;   (* the ticket listened on, if any *)
  console : list string;
  sdk_calls : nat;
  (* environment *)
  clock : Z;                             (* [Date.now()] *)
  sdk_error : nat → option string;       (* does the n-th SDK call reject? *)
  autoId : nat → string;                 (* the id [addDoc] generates in the n-th call *)
}.

Definition set_matchingRequests
    (f : gmap string MatchingRequestData → gmap string MatchingRequestData)
    (w : Client) : Client :=
  {| matchingRequests := f (matchingRequests w); calls := calls w;
     matchingUnsubscribe := matchingUnsubscribe w; console := console w;
     sdk_calls := sdk_calls w; clock := clock w; sdk_error := sdk_error w;
     autoId := autoId w |}.

Definition set_calls (f : gmap string Call.Data → gmap string Call.Data)
    (w : Client) : Client :=
  {| matchingRequests := matchingRequests w; calls := f (calls w);
     matchingUnsubscribe := matchingUnsubscribe w; console := console w;
     sdk_calls := sdk_calls w; clock := clock w; sdk_error := sdk_error w;
     autoId := autoId w |}.

Definition set_matchingUnsubscribe (u : option string) (w : Client) : Client :=
  {| matchingRequests := matchingRequests w; calls := calls w;
     matchingUnsubscribe := u; console := console w;
     sdk_calls := sdk_calls w; clock := clock w; sdk_error := sdk_error w;
     autoId := autoId w |}.

Definition set_console (f : list string → list string) (w : Client) : Client :=
  {| matchingRequests := matchingRequests w; calls := calls w;
     matchingUnsubscribe := matchingUnsubscribe w; console := f (console w);
     sdk_calls := sdk_calls w; clock := clock w; sdk_error := sdk_error w;
     autoId := autoId w |}.

Definition set_sdk_calls (n : nat) (w : Client) : Client :=
  {| matchingRequests := matchingRequests w; calls := calls w;
     matchingUnsubscribe := matchingUnsubscribe w; console := console w;
     sdk_calls := n; clock := clock w; sdk_error := sdk_error w;
     autoId := autoId w |}.

Definition console_error (line : string) : M Client unit :=
  modify (set_console (λ l, l ++ [line])).

(** *** The Firestore SDK *)

(** Every call to the SDK is counted; it rejects when the environment says
    so, and otherwise proceeds with its number. *)
Definition sdk : M Client nat :=
  λ w, let n := sdk_calls w in
       let w' := set_sdk_calls (S n) w in
       match sdk_error w n with
       | Some e => (Throw e, w')
       | None => (Ok n, w')
       end.

(** [addDoc(collection(db, 'matchingRequests'), d)] resolves to the
    reference of the new document; we keep its [id]. *)
Definition addDoc_matchingRequests (d : MatchingRequestData) : M Client string :=
  let* n := sdk in
  let* i := gets (λ w, autoId w n) in
  modify (set_matchingRequests (insert i d)) ;;;
  ret i.

(** [addDoc(collection(db, 'calls'), d)] *)
Definition addDoc_calls (d : Call.Data) : M Client string :=
  let* n := sdk in
  let* i := gets (λ w, autoId w n) in
  modify (set_calls (insert i d)) ;;;
  ret i.

(** [updateDoc(doc(db, 'matchingRequests', i), fields)]: rejects when the
    document does not exist. *)
Definition updateDoc_matchingRequests (i : string)
    (fields : MatchingRequestData → MatchingRequestData) : M Client unit :=
  let* _ := sdk in
  let* m := gets matchingRequests in
  match m !! i with
  | None => throw ("No document to update: matchingRequests/" +:+ i)
  | Some d => modify (set_matchingRequests (insert i (fields d)))
  end.

(** [deleteDoc(doc(db, 'matchingRequests', i))] *)
Definition deleteDoc_matchingRequests (i : string) : M Client unit :=
  let* _ := sdk in
  modify (set_matchingRequests (delete i)).

(** The query constraints the service uses. *)
Inductive QueryConstraint : Type :=
  | where_status_eq (s : Status)            (* where('status', '==', s) *)
  | where_callType_eq (c : CallType)        (* where('callType', '==', c) *)
  | where_createdAt_lt (t : Timestamp)      (* where('createdAt', '<', t) *)
  | orderBy_createdAt_asc                   (* orderBy('createdAt', 'asc') *)
  | limit (n : nat).                        (* limit(n) *)

Definition satisfies (r : MatchingRequest) (c : QueryConstraint) : bool :=
  match c with
  | where_status_eq s => bool_decide (status (data r) = s)
  | where_callType_eq ct => bool_decide (callType (data r) = ct)
  | where_createdAt_lt t => bool_decide (createdAt (data r) < t)
  | orderBy_createdAt_asc | limit _ => true
  end.

Definition query_filter (q : list QueryConstraint) (r : MatchingRequest) : bool :=
  forallb (satisfies r) q.

Fixpoint query_limit (q : list QueryConstraint) : option nat :=
  match q with
  | [] => None
  | limit n :: q' => Some (from_option (Nat.min n) n (query_limit q'))
  | _ :: q' => query_limit q'
  end.

(** Result order of both queries of the service: ascending [createdAt]
    (explicitly ordered, or implicitly as the field of the inequality
    filter), documents of equal [createdAt] by ascending document id. *)
Definition oldest_first (a b : MatchingRequest) : Prop :=
  createdAt (data a) < createdAt (data b)
  ∨ (createdAt (data a) = createdAt (data b) ∧ String.le (id a) (id b)).

Global Instance oldest_first_dec : RelDecision oldest_first.
Proof. intros a b. unfold oldest_first. apply _. Defined.

Definition documents (m : gmap string MatchingRequestData) : list MatchingRequest :=
  (λ kv, {| id := kv.1; data := kv.2 |}) <$> map_to_list m.

(** The documents that pass the filters of [q], in result order. *)
Definition query_matches (q : list QueryConstraint)
    (m : gmap string MatchingRequestData) : list MatchingRequest :=
  merge_sort oldest_first (List.filter (query_filter q) (documents m)).

Definition run_query (q : list QueryConstraint)
    (m : gmap string MatchingRequestData) : list MatchingRequest :=
  match query_limit q with
  | Some n => take n (query_matches q m)
  | None => query_matches q m
  end.

(** [getDocs(query(collection(db, 'matchingRequests'), ...q))]; the result
    is [snapshot.docs], each document with its id. *)
Definition getDocs (q : list QueryConstraint) : M Client (list MatchingRequest) :=
  let* _ := sdk in
  let* m := gets matchingRequests in
  ret (run_query q m).

(** [Promise.all(ps)] over promises that were all started, in order: every
    one runs; the result rejects with the first rejection. *)
Fixpoint Promise_all {S} (ps : list (M S unit)) : M S unit :=
  match ps with
  | [] => ret tt
  | p :: ps' =>
      λ s, let (r, s') := p s in
           let (r', s'') := Promise_all ps' s' in
           (match r with Ok _ => r' | Throw e => Throw e end, s'')
  end.

(** *** The service *)

Definition wouldAcceptGender (preference : Preference) (isPremium : bool)
    (targetGender : Gender) : bool :=
  (* Free users accept anyone *)
  if negb isPremium then true else
  (* Premium users follow their preferences *)
  match preference with
  | men => bool_decide (targetGender = male)
  | women => bool_decide (targetGender = female)
  | anyone => true
  end.

(** Check if two users are compatible for matching *)
Definition isCompatibleMatch (existingRequest : MatchingRequest)
    (newUserGender : Gender) (newUserPreference : Preference)
    (newUserIsPremium : bool) : bool :=
  (* Check if existing user would accept new user *)
  let existingUserAccepts :=
    wouldAcceptGender (preferredGender (data existingRequest))
      (isPremium (data existingRequest)) newUserGender in
  (* Check if new user would accept existing user *)
  let newUserAccepts :=
    wouldAcceptGender newUserPreference newUserIsPremium
      (userGender (data existingRequest)) in
  existingUserAccepts && newUserAccepts.

(** The [for (const docSnap of snapshot.docs)] loop of [findExistingMatch]. *)
Fixpoint first_compatible (docs : list MatchingRequest) (userGender : Gender)
    (preferredGender : Preference) (isPremium : bool) : option MatchingRequest :=
  match docs with
  | [] => None
  | request :: docs' =>
      if isCompatibleMatch request userGender preferredGender isPremium
      then Some request
      else first_compatible docs' userGender preferredGender isPremium
  end.

Definition matchQuery (callType : CallType) : list QueryConstraint :=
  [ where_status_eq waiting; where_callType_eq callType;
    orderBy_createdAt_asc; limit 10 ].

(** Find an existing compatible match *)
Definition findExistingMatch (userGender : Gender) (preferredGender : Preference)
    (isPremium : bool) (callType : CallType) : M Client (option MatchingRequest) :=
  try_catch
    ((* Look for waiting requests that are compatible *)
     let* snapshot := getDocs (matchQuery callType) in
     ret (first_compatible snapshot userGender preferredGender isPremium))
    (λ error,
       console_error ("Error finding existing match: " +:+ error) ;;;
       ret None).

(** The field update [{ status, matchedWith, callId }] of [updateDoc]: the
    other fields of the document stay. *)
Definition update_fields (status' : Status) (matchedWith' callId' : string)
    (d : MatchingRequestData) : MatchingRequestData :=
  {| userId := userId d; userGender := userGender d;
     preferredGender := preferredGender d; isPremium := isPremium d;
     callType := callType d; createdAt := createdAt d;
     status := status';
     matchedWith := Some matchedWith';
     callId := Some callId' |}.

(** Join an existing match *)
Definition joinMatch (matchingRequestId userId : string) : M Client unit :=
  try_catch
    (let* now := gets clock in
     (* Create a call document *)
     let* callDoc :=
       addDoc_calls {| Call.callerId := userId;
                       Call.receiverId := Some userId;
                       Call.status := Call.connecting;
                       Call.createdAt := now;
                       Call.endedAt := None;
                       Call.callType := video |} in
     (* Update the matching request *)
     updateDoc_matchingRequests matchingRequestId
       (update_fields matched userId callDoc))
    (λ error, throw ("Failed to join match: " +:+ error)).

(** Listen for match updates: [onSnapshot] registers the listener and
    hands back the function that removes it.  The listener runs later, when
    the document changes. *)
Definition listenForMatch (matchingRequestId userId : string) : M Client unit :=
  modify (set_matchingUnsubscribe (Some matchingRequestId)).

(** The listener [listenForMatch] registers, run on the current state of
    the ticket it is registered on: once the ticket is 'matched' and has a
    partner and a call, [onMatchFound(callId, matchedWith)] is called (its
    arguments are the result here) and the listener is removed. *)
Definition onMatchSnapshot : M Client (option (string * string)) :=
  let* listening := gets matchingUnsubscribe in
  match listening with
  | None => ret None
  | Some matchingRequestId =>
      let* m := gets matchingRequests in
      match m !! matchingRequestId with
      | None => ret None                      (* [!docSnap.exists()] *)
      | Some d =>
          if bool_decide (status d = matched)
             && negb (js_falsy (matchedWith d)) && negb (js_falsy (callId d))
          then
            (* Clean up listener *)
            modify (set_matchingUnsubscribe None) ;;;
            ret (Some (default "" (callId d), default "" (matchedWith d)))
          else ret None
      end
  end.

(** Start looking for a match *)
Definition startMatching (userId : string) (userGender : Gender)
    (preferredGender : Preference) (isPremium : bool) (callType : CallType)
    : M Client string :=
  try_catch
    ((* First, try to find an existing match *)
     let* existingMatch :=
       findExistingMatch userGender preferredGender isPremium callType in
     match existingMatch with
     | Some existingMatch =>
         (* Join existing match *)
         joinMatch (id existingMatch) userId ;;;
         ret (js_or (callId (data existingMatch)) (id existingMatch))
     | None =>
         (* Create new matching request *)
         let* now := gets clock in
         let* matchingDoc :=
           addDoc_matchingRequests
             {| userId := userId; userGender := userGender;
                preferredGender := preferredGender; isPremium := isPremium;
                callType := callType; status := waiting; createdAt := now;
                matchedWith := None; callId := None |} in
         (* Listen for matches *)
         listenForMatch matchingDoc userId ;;;
         ret matchingDoc
     end)
    (λ error, throw ("Failed to start matching: " +:+ error)).

(** Cancel matching *)
Definition cancelMatching (matchingRequestId : string) : M Client unit :=
  try_catch
    (deleteDoc_matchingRequests matchingRequestId ;;;
     modify (set_matchingUnsubscribe None))
    (λ error, console_error ("Failed to cancel matching: " +:+ error)).

(** [fiveMinutesAgo.setMinutes(fiveMinutesAgo.getMinutes() - 5)]: five
    minutes of 60000 ms earlier (the local UTC offset taken as constant over
    those minutes). *)
Definition fiveMinutesAgo (now : Z) : Timestamp := now - 5 * 60000.

Definition oldRequestsQuery (now : Z) : list QueryConstraint :=
  [ where_createdAt_lt (fiveMinutesAgo now); where_status_eq waiting ].

(** [snapshot.docs.map(doc => deleteDoc(doc.ref))] *)
Definition deletePromises (docs : list MatchingRequest) : list (M Client unit) :=
  List.map (λ doc, deleteDoc_matchingRequests (id doc)) docs.

(** Clean up old matching requests (should be called periodically) *)
Definition cleanupOldRequests : M Client unit :=
  try_catch
    (let* now := gets clock in
     let* snapshot := getDocs (oldRequestsQuery now) in
     Promise_all (deletePromises snapshot))
    (λ error, console_error ("Failed to cleanup old requests: " +:+ error)).


(** *** Vocabulary of the properties *)

(** The ticket a user would hold: what [startMatching] stores for them. *)
Definition ticket_of (ticketId user : string) (gender : Gender)
    (preference : Preference) (premium : bool) (type : CallType)
    (created : Timestamp) : MatchingRequest :=
  {| id := ticketId;
     data := {| userId := user; userGender := gender;
                preferredGender := preference; isPremium := premium;
                callType := type; status := waiting; createdAt := created;
                matchedWith := None; callId := None |} |}.

Definition incompatible (userGender : Gender) (preferredGender : Preference)
    (isPremium : bool) (request : MatchingRequest) : Prop :=
  isCompatibleMatch request userGender preferredGender isPremium = false.

Definition not_newer (a b : MatchingRequest) : Prop :=
  createdAt (data a) ≤ createdAt (data b).

(** The call document [joinMatch] writes for the joiner [userId]. *)
Definition joined_call (userId : string) (now : Timestamp) : Call.Data :=
  {| Call.callerId := userId; Call.receiverId := Some userId;
     Call.status := Call.connecting; Call.createdAt := now;
     Call.endedAt := None; Call.callType := video |}.

(** A ticket is stale at [now] when [cleanupOldRequests] asks for it. *)
Definition stale (now : Z) (d : MatchingRequestData) : Prop :=
  status d = waiting ∧ createdAt d < now - 5 * 60 * 1000.

(** *** A sample client *)

Definition sample_now : Z := 1700000600000.

Definition with_status (s : Status) (d : MatchingRequestData) : MatchingRequestData :=
  {| userId := userId d; userGender := userGender d;
     preferredGender := preferredGender d; isPremium := isPremium d;
     callType := callType d; status := s; createdAt := createdAt d;
     matchedWith := matchedWith d; callId := callId d |}.

(** Four tickets: a premium woman looking for men (voice, created six minutes
    ago), a free man (voice, one minute ago), a free woman (video, seven
    minutes ago) and an already matched ticket (voice, ten minutes ago). *)
Definition sample_tickets : gmap string MatchingRequestData :=
  <["t1" := data (ticket_of "t1" "alice" female men true voice (sample_now - 360000))]>
  (<["t2" := data (ticket_of "t2" "bob" male anyone false voice (sample_now - 60000))]>
  (<["t3" := data (ticket_of "t3" "chloe" female anyone false video (sample_now - 420000))]>
  (<["t4" := with_status matched
               (data (ticket_of "t4" "dan" male anyone false voice (sample_now - 600000)))]>
   ∅))).

Definition sample_client : Client :=
  {| matchingRequests := sample_tickets; calls := ∅;
     matchingUnsubscribe := None; console := []; sdk_calls := 0;
     clock := sample_now;
     sdk_error := λ _, None;
     autoId := λ n, "auto" +:+ pretty n |}.

(** The sample client with the [k]-th SDK call rejected. *)
Definition rejecting (k : nat) (e : string) (w : Client) : Client :=
  {| matchingRequests := matchingRequests w; calls := calls w;
     matchingUnsubscribe := matchingUnsubscribe w; console := console w;
     sdk_calls := sdk_calls w; clock := clock w;
     sdk_error := λ n, if bool_decide (n = k) then Some e else None;
     autoId := autoId w |}.

End CallMatching.

(** ** [WebRTCService] (the SimplePeer variant) *)

Module WebRTC.

Inductive TrackKind : Type := audio | video.

Global Instance TrackKind_eq_dec : EqDecision TrackKind.
Proof. solve_decision. Defined.

(** A [MediaStreamTrack] of the browser. *)
Record Track : Type := {
  kind : TrackKind;
  enabled : bool;
  stopped : bool;            (* [track.stop()] has been called *)
}.

(** A [MediaStream]: its tracks, as positions in the browser's list of
    tracks, so that what is done to a track is seen by every holder of the
    stream. *)
Definition MediaStream : Type := list nat.

(** The object a SimplePeer emits with its 'signal' event. *)
Record SignalPayload : Type := {
  payload_type : option string;      (* [signalData.type] *)
  payload : string;
}.

Module Signal.

(** The fields of a document of the [signals] collection
    ([interface SignalData]). *)
Record Data : Type := {
  type : string;
  data : SignalPayload;
  from : string;
  to : string;
  callId : string;
  timestamp : CallMatching.Timestamp;
}.

End Signal.

Definition peerConfig : list string :=
  [ "stun:stun.l.google.com:19302"; "stun:stun1.l.google.com:19302";
    "stun:stun2.l.google.com:19302" ].

(** A [SimplePeer] instance: the options it was created with, the signals
    it has taken with [peer.signal], oldest first, and whether it has been
    destroyed (by [peer.destroy()], or by the library itself when the
    connection fails or the other side closes it). *)
Record SimplePeer : Type := {
  initiator : bool;
  trickle : bool;
  stream : MediaStream;
  config : list string;
  signalled : list SignalPayload;
  destroyed : bool;
}.

(** The handlers a component may set on the service, as they are called. *)
Inductive Callback : Type :=
  | onRemoteStream (stream : string)
  | onConnectionEstablished
  | onCallEnded
  | onError (message : string).

(** The query [listenForSignals] subscribes to:
    [where('callId', '==', q_callId), where('to', '==', q_to)]. *)
Record SignalsQuery : Type := {
  q_callId : string;
  q_to : string;
}.

Inductive ChangeType : Type := added | modified | removed.

Global Instance ChangeType_eq_dec : EqDecision ChangeType.
Proof. solve_decision. Defined.

(** An entry of [snapshot.docChanges()]. *)
Record DocumentChange : Type := {
  change_type : ChangeType;
  doc_id : string;
  doc_data : Signal.Data;
}.

(** One service instance and what it works on: the [calls] and [signals]
    collections; the fields of the instance; the browser's tracks; the
    console and the handlers called; then the environment, which is only
    read, except that [sdk_calls] counts the Firestore calls made. *)
Record Service : Type := {
  calls : gmap string CallMatching.Call.Data;
  signals : gmap string Signal.Data;
  peer : option SimplePeer;
  localStream : option MediaStream;
  remoteStream : option string;
  callId : option string;
  userId : string;
  isInitiator : bool;
  signalUnsubscribe : option SignalsQuery;
  tracks : list Track;
  console : list string;
  events : list Callback;
  sdk_calls : nat;
  (* environment *)
  clock : Z;
  sdk_error : nat → option string;
  autoId : nat → string;
  media_error : option string;      (* does [getUserMedia] reject? *)
}.

Definition set_calls (x : gmap string CallMatching.Call.Data) (w : Service) : Service :=
  {| calls := x; signals := signals w; peer := peer w;
     localStream := localStream w; remoteStream := remoteStream w;
     callId := callId w; userId := userId w; isInitiator := isInitiator w;
     signalUnsubscribe := signalUnsubscribe w; tracks := tracks w;
     console := console w; events := events w; sdk_calls := sdk_calls w;
     clock := clock w; sdk_error := sdk_error w; autoId := autoId w;
     media_error := media_error w |}.

Definition set_signals (x : gmap string Signal.Data) (w : Service) : Service :=
  {| calls := calls w; signals := x; peer := peer w;
     localStream := localStream w; remoteStream := remoteStream w;
     callId := callId w; userId := userId w; isInitiator := isInitiator w;
     signalUnsubscribe := signalUnsubscribe w; tracks := tracks w;
     console := console w; events := events w; sdk_calls := sdk_calls w;
     clock := clock w; sdk_error := sdk_error w; autoId := autoId w;
     media_error := media_error w |}.

Definition set_peer (x : option SimplePeer) (w : Service) : Service :=
  {| calls := calls w; signals := signals w; peer := x;
     localStream := localStream w; remoteStream := remoteStream w;
     callId := callId w; userId := userId w; isInitiator := isInitiator w;
     signalUnsubscribe := signalUnsubscribe w; tracks := tracks w;
     console := console w; events := events w; sdk_calls := sdk_calls w;
     clock := clock w; sdk_error := sdk_error w; autoId := autoId w;
     media_error := media_error w |}.

Definition set_localStream (x : option MediaStream) (w : Service) : Service :=
  {| calls := calls w; signals := signals w; peer := peer w;
     localStream := x; remoteStream := remoteStream w; callId := callId w;
     userId := userId w; isInitiator := isInitiator w;
     signalUnsubscribe := signalUnsubscribe w; tracks := tracks w;
     console := console w; events := events w; sdk_calls := sdk_calls w;
     clock := clock w; sdk_error := sdk_error w; autoId := autoId w;
     media_error := media_error w |}.

Definition set_remoteStream (x : option string) (w : Service) : Service :=
  {| calls := calls w; signals := signals w; peer := peer w;
     localStream := localStream w; remoteStream := x; callId := callId w;
     userId := userId w; isInitiator := isInitiator w;
     signalUnsubscribe := signalUnsubscribe w; tracks := tracks w;
     console := console w; events := events w; sdk_calls := sdk_calls w;
     clock := clock w; sdk_error := sdk_error w; autoId := autoId w;
     media_error := media_error w |}.

Definition set_callId (x : option string) (w : Service) : Service :=
  {| calls := calls w; signals := signals w; peer := peer w;
     localStream := localStream w; remoteStream := remoteStream w;
     callId := x; userId := userId w; isInitiator := isInitiator w;
     signalUnsubscribe := signalUnsubscribe w; tracks := tracks w;
     console := console w; events := events w; sdk_calls := sdk_calls w;
     clock := clock w; sdk_error := sdk_error w; autoId := autoId w;
     media_error := media_error w |}.

Definition set_isInitiator (x : bool) (w : Service) : Service :=
  {| calls := calls w; signals := signals w; peer := peer w;
     localStream := localStream w; remoteStream := remoteStream w;
     callId := callId w; userId := userId w; isInitiator := x;
     signalUnsubscribe := signalUnsubscribe w; tracks := tracks w;
     console := console w; events := events w; sdk_calls := sdk_calls w;
     clock := clock w; sdk_error := sdk_error w; autoId := autoId w;
     media_error := media_error w |}.

Definition set_signalUnsubscribe (x : option SignalsQuery) (w : Service) : Service :=
  {| calls := calls w; signals := signals w; peer := peer w;
     localStream := localStream w; remoteStream := remoteStream w;
     callId := callId w; userId := userId w; isInitiator := isInitiator w;
     signalUnsubscribe := x; tracks := tracks w; console := console w;
     events := events w; sdk_calls := sdk_calls w; clock := clock w;
     sdk_error := sdk_error w; autoId := autoId w;
     media_error := media_error w |}.

Definition set_tracks (x : list Track) (w : Service) : Service :=
  {| calls := calls w; signals := signals w; peer := peer w;
     localStream := localStream w; remoteStream := remoteStream w;
     callId := callId w; userId := userId w; isInitiator := isInitiator w;
     signalUnsubscribe := signalUnsubscribe w; tracks := x;
     console := console w; events := events w; sdk_calls := sdk_calls w;
     clock := clock w; sdk_error := sdk_error w; autoId := autoId w;
     media_error := media_error w |}.

Definition set_console (x : list string) (w : Service) : Service :=
  {| calls := calls w; signals := signals w; peer := peer w;
     localStream := localStream w; remoteStream := remoteStream w;
     callId := callId w; userId := userId w; isInitiator := isInitiator w;
     signalUnsubscribe := signalUnsubscribe w; tracks := tracks w;
     console := x; events := events w; sdk_calls := sdk_calls w;
     clock := clock w; sdk_error := sdk_error w; autoId := autoId w;
     media_error := media_error w |}.

Definition set_events (x : list Callback) (w : Service) : Service :=
  {| calls := calls w; signals := signals w; peer := peer w;
     localStream := localStream w; remoteStream := remoteStream w;
     callId := callId w; userId := userId w; isInitiator := isInitiator w;
     signalUnsubscribe := signalUnsubscribe w; tracks := tracks w;
     console := console w; events := x; sdk_calls := sdk_calls w;
     clock := clock w; sdk_error := sdk_error w; autoId := autoId w;
     media_error := media_error w |}.

Definition set_sdk_calls (x : nat) (w : Service) : Service :=
  {| calls := calls w; signals := signals w; peer := peer w;
     localStream := localStream w; remoteStream := remoteStream w;
     callId := callId w; userId := userId w; isInitiator := isInitiator w;
     signalUnsubscribe := signalUnsubscribe w; tracks := tracks w;
     console := console w; events := events w; sdk_calls := x;
     clock := clock w; sdk_error := sdk_error w; autoId := autoId w;
     media_error := media_error w |}.

Definition console_error (line : string) : M Service unit :=
  λ w, (Ok tt, set_console (console w ++ [line]) w).

(** [this.onX?.(...)] *)
Definition notify (c : Callback) : M Service unit :=
  λ w, (Ok tt, set_events (events w ++ [c]) w).

(** *** The browser and the Firestore SDK *)

(** [navigator.mediaDevices.getUserMedia({ video, audio: true })]: a new
    stream with a live, enabled audio track and, if asked for, a video
    track. *)
Definition getUserMedia (video_ : bool) : M Service MediaStream :=
  λ w, match media_error w with
       | Some e => (Throw e, w)
       | None =>
           let new :=
             {| kind := audio; enabled := true; stopped := false |}
             :: (if video_
                 then [{| kind := video; enabled := true; stopped := false |}]
                 else []) in
           (Ok (seq (length (tracks w)) (length new)),
            set_tracks (tracks w ++ new) w)
       end.

Definition sdk : M Service nat :=
  λ w, let n := sdk_calls w in
       let w' := set_sdk_calls (S n) w in
       match sdk_error w n with
       | Some e => (Throw e, w')
       | None => (Ok n, w')
       end.

(** [addDoc(collection(db, 'calls'), d)] *)
Definition addDoc_calls (d : CallMatching.Call.Data) : M Service string :=
  let* n := sdk in
  let* i := gets (λ w, autoId w n) in
  modify (λ w, set_calls (<[i := d]> (calls w)) w) ;;;
  ret i.

(** [updateDoc(doc(db, 'calls', i), fields)]: rejects when the document
    does not exist. *)
Definition updateDoc_calls (i : string)
    (fields : CallMatching.Call.Data → CallMatching.Call.Data) : M Service unit :=
  let* _ := sdk in
  let* m := gets calls in
  match m !! i with
  | None => throw ("No document to update: calls/" +:+ i)
  | Some d => modify (λ w, set_calls (<[i := fields d]> (calls w)) w)
  end.

(** [deleteDoc(doc(db, 'calls', i))] *)
Definition deleteDoc_calls (i : string) : M Service unit :=
  let* _ := sdk in
  modify (λ w, set_calls (delete i (calls w)) w).

(** [addDoc(collection(db, 'signals'), d)] *)
Definition addDoc_signals (d : Signal.Data) : M Service string :=
  let* n := sdk in
  let* i := gets (λ w, autoId w n) in
  modify (λ w, set_signals (<[i := d]> (signals w)) w) ;;;
  ret i.

(** [deleteDoc(doc(db, 'signals', i))] *)
Definition deleteDoc_signals (i : string) : M Service unit :=
  let* _ := sdk in
  modify (λ w, set_signals (delete i (signals w)) w).

(** [getDocs(query(collection(db, 'signals'), where('callId', '==', c)))]:
    the ids of the documents found, in the order of their ids. *)
Definition getDocs_signals (c : string) : M Service (list string) :=
  let* _ := sdk in
  let* m := gets signals in
  ret (merge_sort String.le
         (map_to_list (filter (λ kv, Signal.callId kv.2 = c) m)).*1).

(** [array.forEach(f)] *)
Fixpoint forEach {S A} (l : list A) (f : A → M S unit) : M S unit :=
  match l with
  | [] => ret tt
  | x :: l' => f x ;;; forEach l' f
  end.

(** *** The service *)

(** Initialize local media stream *)
Definition initializeMedia (callType : CallMatching.CallType) : M Service MediaStream :=
  try_catch
    (let* stream := getUserMedia (bool_decide (callType = CallMatching.video)) in
     modify (set_localStream (Some stream)) ;;;
     ret stream)
    (λ error, throw ("Failed to access media devices: " +:+ error)).

(** Initialize SimplePeer instance.  The handlers it registers are
    [on_signal], [on_stream], [on_connect], [on_close] and [on_error]
    below. *)
Definition initializePeer (initiator_ : bool) : M Service unit :=
  let* local := gets localStream in
  match local with
  | None => throw "Local stream not initialized"
  | Some stream_ =>
      modify (set_peer (Some {| initiator := initiator_; trickle := true;
                                stream := stream_; config := peerConfig;
                                signalled := []; destroyed := false |}))
  end.

(** Listen for incoming signals: registers [onSignalsSnapshot] below on the
    signals of this call addressed to this side. *)
Definition listenForSignals : M Service unit :=
  let* c := gets callId in
  if js_falsy c then ret tt else
  let* isInitiator_ := gets isInitiator in
  modify (set_signalUnsubscribe
            (Some {| q_callId := default "" c;
                     q_to := if isInitiator_ then "caller" else "receiver" |})).

(** Create a new call *)
Definition createCall (callType : CallMatching.CallType) : M Service string :=
  try_catch
    (let* userId_ := gets userId in
     let* now := gets clock in
     let* callDoc :=
       addDoc_calls
         {| CallMatching.Call.callerId := userId_;
            CallMatching.Call.receiverId := None;
            CallMatching.Call.status := CallMatching.Call.waiting;
            CallMatching.Call.createdAt := now;
            CallMatching.Call.endedAt := None;
            CallMatching.Call.callType := callType |} in
     modify (set_callId (Some callDoc)) ;;;
     modify (set_isInitiator true) ;;;
     (* Initialize peer as initiator *)
     initializePeer true ;;;
     (* Listen for signals *)
     listenForSignals ;;;
     ret callDoc)
    (λ error, throw ("Failed to create call: " +:+ error)).

(** The field update [{ receiverId, status: 'connecting' }]. *)
Definition receiver_fields (receiver : string) (d : CallMatching.Call.Data)
    : CallMatching.Call.Data :=
  {| CallMatching.Call.callerId := CallMatching.Call.callerId d;
     CallMatching.Call.receiverId := Some receiver;
     CallMatching.Call.status := CallMatching.Call.connecting;
     CallMatching.Call.createdAt := CallMatching.Call.createdAt d;
     CallMatching.Call.endedAt := CallMatching.Call.endedAt d;
     CallMatching.Call.callType := CallMatching.Call.callType d |}.

(** Join an existing call *)
Definition joinCall (callId_ : string) : M Service unit :=
  try_catch
    (modify (set_callId (Some callId_)) ;;;
     modify (set_isInitiator false) ;;;
     (* Update call with receiver info *)
     let* userId_ := gets userId in
     updateDoc_calls callId_ (receiver_fields userId_) ;;;
     (* Initialize peer as receiver *)
     initializePeer false ;;;
     (* Listen for signals *)
     listenForSignals)
    (λ error, throw ("Failed to join call: " +:+ error)).

(** Send signaling data through Firebase *)
Definition sendSignal (signalData : SignalPayload) : M Service unit :=
  let* c := gets callId in
  if js_falsy c then ret tt else
  try_catch
    (let* userId_ := gets userId in
     let* isInitiator_ := gets isInitiator in
     let* now := gets clock in
     addDoc_signals
       {| Signal.type := js_or (payload_type signalData) "signal";
          Signal.data := signalData;
          Signal.from := userId_;
          Signal.to := if isInitiator_ then "receiver" else "caller";
          Signal.callId := default "" c;
          Signal.timestamp := now |} ;;;
     ret tt)
    (λ error, console_error ("Failed to send signal: " +:+ error)).

(** The fields [{ status }], with [endedAt] when the status is 'ended'. *)
Definition status_fields (status_ : CallMatching.Call.Status) (now : Z)
    (d : CallMatching.Call.Data) : CallMatching.Call.Data :=
  {| CallMatching.Call.callerId := CallMatching.Call.callerId d;
     CallMatching.Call.receiverId := CallMatching.Call.receiverId d;
     CallMatching.Call.status := status_;
     CallMatching.Call.createdAt := CallMatching.Call.createdAt d;
     CallMatching.Call.endedAt :=
       match status_ with
       | CallMatching.Call.ended => Some now
       | _ => CallMatching.Call.endedAt d
       end;
     CallMatching.Call.callType := CallMatching.Call.callType d |}.

(** Update call status *)
Definition updateCallStatus (status_ : CallMatching.Call.Status) : M Service unit :=
  let* c := gets callId in
  if js_falsy c then ret tt else
  try_catch
    (let* now := gets clock in
     updateDoc_calls (default "" c) (status_fields status_ now))
    (λ error, console_error ("Failed to update call status: " +:+ error)).

(** The handlers of the peer's events. *)
Definition on_signal (data_ : SignalPayload) : M Service unit :=
  sendSignal data_.

Definition on_stream (stream_ : string) : M Service unit :=
  modify (set_remoteStream (Some stream_)) ;;;
  notify (onRemoteStream stream_).

Definition on_connect : M Service unit :=
  notify onConnectionEstablished ;;;
  updateCallStatus CallMatching.Call.connected.

Definition on_close : M Service unit :=
  notify onCallEnded.

Definition on_error (message : string) : M Service unit :=
  console_error ("Peer error: " +:+ message) ;;;
  notify (onError message).

(** The peer with [datas] added to the signals it has taken. *)
Definition signalled_more (p : SimplePeer) (datas : list SignalPayload)
    : SimplePeer :=
  {| initiator := initiator p; trickle := trickle p; stream := stream p;
     config := config p; signalled := signalled p ++ datas;
     destroyed := destroyed p |}.

(** [peer.signal(data)] of the simple-peer library: a peer that has been
    destroyed throws; any other peer takes the data. *)
Definition signal (p : SimplePeer) (data_ : SignalPayload) : Result SimplePeer :=
  if destroyed p then Throw "cannot signal after peer is destroyed"
  else Ok (signalled_more p [data_]).

(** The body of the listener's [forEach], for one change.  The call of
    [peer.signal] is not inside a [try]: what it throws leaves the
    listener. *)
Definition onSignalChange (change : DocumentChange) : M Service unit :=
  if bool_decide (change_type change = added) then
    let signalDoc := doc_data change in
    let* userId_ := gets userId in
    let* peer_ := gets peer in
    match peer_ with
    | Some p =>
        if negb (String.eqb (Signal.from signalDoc) userId_) then
          match signal p (Signal.data signalDoc) with
          | Throw error => throw error
          | Ok p' =>
              modify (set_peer (Some p')) ;;;
              (* Clean up processed signal *)
              try_catch (deleteDoc_signals (doc_id change))
                (λ error, console_error error)
          end
        else ret tt
    | None => ret tt
    end
  else ret tt.

(** The listener registered by [listenForSignals]. *)
Definition onSignalsSnapshot (docChanges : list DocumentChange) : M Service unit :=
  forEach docChanges onSignalChange.

(** What the library does when the peer is destroyed without the service
    asking for it (the connection failed with [error], or the other side
    closed it): the peer is marked destroyed and emits 'error', if there is
    one, and 'close'.  The service's handlers run; they leave [this.peer]
    as it is. *)
Definition peer_destroyed (error : option string) : M Service unit :=
  let* peer_ := gets peer in
  match peer_ with
  | Some p =>
      if destroyed p then ret tt else
      modify (set_peer (Some {| initiator := initiator p; trickle := trickle p;
                                stream := stream p; config := config p;
                                signalled := signalled p;
                                destroyed := true |})) ;;;
      match error with
      | Some message => on_error message
      | None => ret tt
      end ;;;
      on_close
  | None => ret tt
  end.

(** [track.stop()] on every track of a stream. *)
Definition stop_tracks (stream_ : MediaStream) (ts : list Track) : list Track :=
  foldr (λ i ts, alter (λ t, {| kind := kind t; enabled := enabled t;
                                stopped := true |}) i ts) ts stream_.

(** Clean up call-related data *)
Definition cleanupCallData (callId_ : string) : M Service unit :=
  try_catch
    ((* Delete call document *)
     deleteDoc_calls callId_ ;;;
     (* Delete associated signals *)
     let* signalsSnapshot := getDocs_signals callId_ in
     CallMatching.Promise_all (List.map deleteDoc_signals signalsSnapshot))
    (λ error, console_error ("Failed to cleanup call data: " +:+ error)).

(** End the call *)
Definition endCall : M Service unit :=
  try_catch
    ((* Close peer connection *)
     modify (set_peer None) ;;;
     (* Stop local stream *)
     let* local := gets localStream in
     match local with
     | Some stream_ =>
         modify (λ w, set_tracks (stop_tracks stream_ (tracks w)) w) ;;;
         modify (set_localStream None)
     | None => ret tt
     end ;;;
     (* Update call status *)
     updateCallStatus CallMatching.Call.ended ;;;
     (* Clean up listeners *)
     modify (set_signalUnsubscribe None) ;;;
     (* Clean up call document and signals *)
     let* c := gets callId in
     (if js_falsy c then ret tt
      else cleanupCallData (default "" c) ;;; modify (set_callId None)) ;;;
     modify (set_remoteStream None))
    (λ error, console_error ("Failed to end call: " +:+ error)).

(** [stream.getAudioTracks()[0]] / [stream.getVideoTracks()[0]] *)
Definition first_track (k : TrackKind) (stream_ : MediaStream)
    (ts : list Track) : option nat :=
  head (List.filter (λ i, bool_decide (kind <$> ts !! i = Some k)) stream_).

Definition toggle_enabled (t : Track) : Track :=
  {| kind := kind t; enabled := negb (enabled t); stopped := stopped t |}.

Definition toggleTrack (k : TrackKind) : M Service bool :=
  let* local := gets localStream in
  match local with
  | None => ret false
  | Some stream_ =>
      let* ts := gets tracks in
      match first_track k stream_ ts with
      | Some i =>
          match ts !! i with
          | Some track =>
              modify (set_tracks (<[i := toggle_enabled track]> ts)) ;;;
              ret (enabled (toggle_enabled track))
          | None => ret false
          end
      | None => ret false
      end
  end.

(** Toggle audio *)
Definition toggleAudio : M Service bool := toggleTrack audio.

(** Toggle video *)
Definition toggleVideo : M Service bool := toggleTrack video.

(** Get local stream *)
Definition getLocalStream : M Service (option MediaStream) := gets localStream.

(** Get remote stream *)
Definition getRemoteStream : M Service (option string) := gets remoteStream.

(** *** Vocabulary of the properties *)

(** A document of [signals] is in the result of the query. *)
Definition in_query (q : SignalsQuery) (d : Signal.Data) : bool :=
  String.eqb (Signal.callId d) (q_callId q) && String.eqb (Signal.to d) (q_to q).

(** The changes of a snapshot the listener hands to the peer. *)
Definition handled (userId_ : string) (docChanges : list DocumentChange)
    : list DocumentChange :=
  List.filter (λ change, bool_decide (change_type change = added)
                         && negb (String.eqb (Signal.from (doc_data change)) userId_))
    docChanges.

(** The call document [createCall] stores. *)
Definition created_call (caller : string) (now : Z)
    (callType : CallMatching.CallType) : CallMatching.Call.Data :=
  {| CallMatching.Call.callerId := caller;
     CallMatching.Call.receiverId := None;
     CallMatching.Call.status := CallMatching.Call.waiting;
     CallMatching.Call.createdAt := now;
     CallMatching.Call.endedAt := None;
     CallMatching.Call.callType := callType |}.

(** The peer [initializePeer] creates. *)
Definition new_peer (initiator_ : bool) (stream_ : MediaStream) : SimplePeer :=
  {| initiator := initiator_; trickle := true; stream := stream_;
     config := peerConfig; signalled := []; destroyed := false |}.

(** The fields of the service instance, and what surrounds it. *)
Definition instance (w : Service) :=
  (peer w, localStream w, remoteStream w, callId w, userId w, isInitiator w,
   signalUnsubscribe w).

Definition surroundings (w : Service) :=
  (tracks w, events w, clock w, sdk_error w, autoId w, media_error w).

(** The state of a track after [track.stop()]. *)
Definition stop (t : Track) : Track :=
  {| kind := kind t; enabled := enabled t; stopped := true |}.

(** *** A sample service *)

(** A service of user [user] that has done nothing yet, on an empty store. *)
Definition sample_service (user : string) : Service :=
  {| calls := ∅; signals := ∅; peer := None; localStream := None;
     remoteStream := None; callId := None; userId := user;
     isInitiator := false; signalUnsubscribe := None; tracks := [];
     console := []; events := []; sdk_calls := 0;
     clock := 1700000600000;
     sdk_error := λ _, None;
     autoId := λ n, "doc" +:+ pretty n;
     media_error := None |}.

(** The same service seeing the store another one has left. *)
Definition on_store_of (other me : Service) : Service :=
  set_sdk_calls (sdk_calls other)
    (set_signals (signals other) (set_calls (calls other) me)).

(** *** A sample call *)

(** Alice has her camera and microphone and has created a video call. *)
Definition alice_calling : Service :=
  (createCall CallMatching.video
     (initializeMedia CallMatching.video (sample_service "alice")).2).2.

Definition sample_offer : SignalPayload :=
  {| payload_type := Some "offer"; payload := "sdp" |}.

(** Her peer has produced an offer, which she has sent. *)
Definition alice_signalled : Service := (sendSignal sample_offer alice_calling).2.

(** Bob, on the same store, has his camera and microphone. *)
Definition bob_ready : Service :=
  (initializeMedia CallMatching.video
     (on_store_of alice_signalled (sample_service "bob"))).2.

(** Bob has joined Alice's call. *)
Definition bob_joined : Service := (joinCall "doc0" bob_ready).2.

(** The snapshot Bob's listener receives: Alice's offer has been added. *)
Definition sample_snapshot : list DocumentChange :=
  [ {| change_type := added; doc_id := "doc1";
       doc_data := {| Signal.type := "offer"; Signal.data := sample_offer;
                      Signal.from := "alice"; Signal.to := "receiver";
                      Signal.callId := "doc0";
                      Signal.timestamp := 1700000600000 |} |} ].

(** Bob's connection has failed: the library has destroyed his peer. *)
Definition bob_disconnected : Service :=
  (peer_destroyed (Some "Connection failed.") bob_joined).2.

(** Bob has joined, but the database rejects what he does next. *)
Definition bob_offline : Service :=
  {| calls := calls bob_joined; signals := signals bob_joined;
     peer := peer bob_joined; localStream := localStream bob_joined;
     remoteStream := remoteStream bob_joined; callId := callId bob_joined;
     userId := userId bob_joined; isInitiator := isInitiator bob_joined;
     signalUnsubscribe := signalUnsubscribe bob_joined;
     tracks := tracks bob_joined; console := console bob_joined;
     events := events bob_joined; sdk_calls := sdk_calls bob_joined;
     clock := clock bob_joined;
     sdk_error := λ _, Some "unavailable";
     autoId := autoId bob_joined;
     media_error := media_error bob_joined |}.

(** The answer Bob's peer produces. *)
Definition sample_answer : SignalPayload :=
  {| payload_type := Some "answer"; payload := "sdp" |}.

End WebRTC.

(** * Properties *)

(** ** Running monadic code *)

Lemma bind_Ok {S A B} (m : M S A) (k : A → M S B) s a s' :
  m s = (Ok a, s') → bind m k s = k a s'.
Proof. unfold bind. by intros ->. Qed.

Lemma bind_Throw {S A B} (m : M S A) (k : A → M S B) s e s' :
  m s = (Throw e, s') → bind m k s = (Throw e, s').
Proof. unfold bind. by intros ->. Qed.

Lemma try_catch_Ok {S A} (m : M S A) h s a s' :
  m s = (Ok a, s') → try_catch m h s = (Ok a, s').
Proof. unfold try_catch. by intros ->. Qed.

Lemma try_catch_Throw {S A} (m : M S A) h s e s' :
  m s = (Throw e, s') → try_catch m h s = h e s'.
Proof. unfold try_catch. by intros ->. Qed.

Lemma eqb_false_ne (a b : string) : String.eqb a b = false ↔ a ≠ b.
Proof. apply String.eqb_neq. Qed.

(** ** Payment verification *)

Section PaymentProperties.

Import RazorpayPayments.

Variable hmac_sha256_hex : string → string → string.
Variable btoa : string → string.

Lemma single_character_mutation_ne s s' :
  single_character_mutation s s' → s' ≠ s.
Proof.
  intros (before & after & a & b & Hab & -> & ->) Heq.
  apply (inj (String.app before)) in Heq. congruence.
Qed.

Lemma verify_payment_mismatch secret payload w :
  p_razorpay_signature payload ≠ hmac_sha256_hex secret (signed_body payload) →
  verify_payment hmac_sha256_hex secret payload w
  = (Throw "Invalid payment signature", w).
Proof.
  intros Hne. unfold verify_payment, signed_body in *.
  destruct (String.eqb _ _) eqn:E; [|done].
  apply String.eqb_eq in E. congruence.
Qed.

Lemma verify_payment_Ok secret payload w response w' :
  verify_payment hmac_sha256_hex secret payload w = (Ok response, w') →
  p_razorpay_signature payload = hmac_sha256_hex secret (signed_body payload).
Proof.
  intros Hrun.
  destruct (decide (p_razorpay_signature payload
                    = hmac_sha256_hex secret (signed_body payload)))
    as [|Hne]; [done|].
  by rewrite (verify_payment_mismatch _ _ _ Hne) in Hrun.
Qed.

(** What the handler does with a request it passes on to an action. *)
Lemma handler_dispatch req w secret payload :
  RAZORPAY_SECRET_KEY w = Some secret → secret ≠ "" →
  json req = Ok payload →
  dispatch hmac_sha256_hex btoa req w
  = (if String.eqb (action payload) "create_order"
     then create_order btoa secret payload
     else if String.eqb (action payload) "verify_payment"
     then verify_payment hmac_sha256_hex secret payload
     else throw "Invalid action") w.
Proof.
  intros Hsecret Hne Hjson. unfold dispatch, bind, gets.
  rewrite Hsecret. simpl. rewrite bool_decide_eq_false_2 by done.
  by rewrite Hjson.
Qed.

Lemma handler_verify_payment_mismatch req w secret payload :
  method req ≠ "OPTIONS" →
  RAZORPAY_SECRET_KEY w = Some secret → secret ≠ "" →
  json req = Ok payload →
  action payload = "verify_payment" →
  p_razorpay_signature payload ≠ hmac_sha256_hex secret (signed_body payload) →
  handler hmac_sha256_hex btoa req w
  = (Ok {| r_status := 400; r_headers := jsonHeaders;
           r_body := Failure false "Invalid payment signature" |},
     set_console (λ l, l ++ ["Payment error: Invalid payment signature"]) w).
Proof.
  intros Hmethod Hsecret Hne Hjson Haction Hsig. unfold handler.
  apply eqb_false_ne in Hmethod as ->.
  erewrite try_catch_Throw; [done|].
  rewrite (handler_dispatch _ _ _ _ Hsecret Hne Hjson), Haction.
  simpl. by apply verify_payment_mismatch.
Qed.

(** C1. For every order id, payment id and secret, [verify_payment] succeeds
    only if the supplied signature is the hex HMAC-SHA256 of
    [order_id + "|" + payment_id] under the secret; whenever the supplied
    signature differs from that HMAC it rejects with "Invalid payment
    signature", in particular for every single-character mutation of a
    valid signature. *)
Theorem verify_payment_checks_signature secret payload w :
  let expectedSignature := hmac_sha256_hex secret (signed_body payload) in
  (∀ response w',
     verify_payment hmac_sha256_hex secret payload w = (Ok response, w') →
     p_razorpay_signature payload = expectedSignature)
  ∧ (p_razorpay_signature payload ≠ expectedSignature →
     (verify_payment hmac_sha256_hex secret payload w).1
     = Throw "Invalid payment signature")
  ∧ (∀ forged,
       single_character_mutation expectedSignature forged →
       (verify_payment hmac_sha256_hex secret (with_signature forged payload) w).1
       = Throw "Invalid payment signature").
Proof.
  intros expectedSignature. split; [|split].
  - intros response w'. apply verify_payment_Ok.
  - intros Hne. by rewrite verify_payment_mismatch.
  - intros forged Hmut. rewrite verify_payment_mismatch; [done|].
    by apply single_character_mutation_ne.
Qed.

(** C2. A [verify_payment] request whose signature is not the recomputed
    HMAC fails with "Invalid payment signature" and changes nothing: the
    action leaves the whole state as it was, the handler answers 400 with
    that error and only writes a line to its console, and the [orders]
    table changes only in runs in which the signature comparison
    succeeded. *)
Theorem verify_payment_mismatch_fails_closed secret payload w :
  let expectedSignature := hmac_sha256_hex secret (signed_body payload) in
  (p_razorpay_signature payload ≠ expectedSignature →
   verify_payment hmac_sha256_hex secret payload w
   = (Throw "Invalid payment signature", w))
  ∧ (∀ req,
       p_razorpay_signature payload ≠ expectedSignature →
       method req ≠ "OPTIONS" → json req = Ok payload →
       action payload = "verify_payment" →
       RAZORPAY_SECRET_KEY w = Some secret → secret ≠ "" →
       ∃ w',
         handler hmac_sha256_hex btoa req w
         = (Ok {| r_status := 400; r_headers := jsonHeaders;
                  r_body := Failure false "Invalid payment signature" |}, w')
         ∧ orders w' = orders w ∧ orders_seq w' = orders_seq w
         ∧ gateway w' = gateway w)
  ∧ (∀ result w',
       verify_payment hmac_sha256_hex secret payload w = (result, w') →
       orders w' ≠ orders w →
       p_razorpay_signature payload = expectedSignature).
Proof.
  intros expectedSignature. split; [|split].
  - apply verify_payment_mismatch.
  - intros req Hsig Hmethod Hjson Haction Hsecret Hne.
    eexists. split; [by eapply handler_verify_payment_mismatch|done].
  - intros result w' Hrun Hchanged.
    destruct (decide (p_razorpay_signature payload = expectedSignature))
      as [|Hsig]; [done|].
    rewrite (verify_payment_mismatch _ _ _ Hsig) in Hrun. by simplify_eq.
Qed.

End PaymentProperties.

Lemma verify_payment_checks_signature_witness :
  let verify signature :=
    RazorpayPayments.verify_payment RazorpayPayments.sample_hmac "s3cret"
      (RazorpayPayments.sample_verify_payment signature)
      RazorpayPayments.sample_backend_with_order in
  RazorpayPayments.sample_signature = "hmac(s3cret,order_N1|pay_7)"
  ∧ (verify "hmac(s3cret,order_N1|pay_8)").1 = Throw "Invalid payment signature"
  ∧ (verify "hmac(s3cret,order_N1|pay_7]").1 = Throw "Invalid payment signature".
Proof.
  intros verify. split; [|split].
  - eapply (proj1 (verify_payment_checks_signature RazorpayPayments.sample_hmac
                     "s3cret"
                     (RazorpayPayments.sample_verify_payment
                        RazorpayPayments.sample_signature)
                     RazorpayPayments.sample_backend_with_order)).
    lazy. reflexivity.
  - apply (proj1 (proj2 (verify_payment_checks_signature
                           RazorpayPayments.sample_hmac "s3cret" _ _))).
    vm_compute. discriminate.
  - apply (proj2 (proj2 (verify_payment_checks_signature
                           RazorpayPayments.sample_hmac "s3cret"
                           (RazorpayPayments.sample_verify_payment "") _))
             "hmac(s3cret,order_N1|pay_7]").
    exists "hmac(s3cret,order_N1|pay_7", "", ")"%char, "]"%char.
    split; [discriminate|split; reflexivity].
Defined.

Lemma verify_payment_mismatch_fails_closed_witness :
  let w := RazorpayPayments.sample_backend_with_order in
  let forged := RazorpayPayments.sample_verify_payment "0000" in
  RazorpayPayments.verify_payment RazorpayPayments.sample_hmac "s3cret" forged w
  = (Throw "Invalid payment signature", w)
  ∧ (∃ w',
       RazorpayPayments.handler RazorpayPayments.sample_hmac
         RazorpayPayments.sample_btoa (RazorpayPayments.post forged) w
       = (Ok {| RazorpayPayments.r_status := 400;
                RazorpayPayments.r_headers := RazorpayPayments.jsonHeaders;
                RazorpayPayments.r_body :=
                  RazorpayPayments.Failure false "Invalid payment signature" |},
          w')
       ∧ RazorpayPayments.orders w' = RazorpayPayments.orders w
       ∧ RazorpayPayments.orders_seq w' = RazorpayPayments.orders_seq w
       ∧ RazorpayPayments.gateway w' = RazorpayPayments.gateway w)
  ∧ RazorpayPayments.sample_signature = "hmac(s3cret,order_N1|pay_7)".
Proof.
  intros w forged. split; [|split].
  - apply (proj1 (verify_payment_mismatch_fails_closed
                    RazorpayPayments.sample_hmac RazorpayPayments.sample_btoa
                    "s3cret" forged w)).
    vm_compute. discriminate.
  - apply (proj1 (proj2 (verify_payment_mismatch_fails_closed
                           RazorpayPayments.sample_hmac
                           RazorpayPayments.sample_btoa "s3cret" forged w))).
    + vm_compute. discriminate.
    + vm_compute. discriminate.
    + reflexivity.
    + reflexivity.
    + reflexivity.
    + discriminate.
  - eapply (proj2 (proj2 (verify_payment_mismatch_fails_closed
                            RazorpayPayments.sample_hmac
                            RazorpayPayments.sample_btoa "s3cret"
                            (RazorpayPayments.sample_verify_payment
                               RazorpayPayments.sample_signature) w))).
    + apply surjective_pairing.
    + vm_compute. discriminate.
Defined.

(** ** Order creation *)

Section OrderProperties.

Import RazorpayPayments.

Variable btoa : string → string.

(** Whenever [create_order] succeeds, the gateway accepted exactly one new
    order request whose amount is JavaScript's [amount * 100], one row was
    added to [orders] with status 'created' and the original amount (and
    the gateway's order id), and the response carries [success = true], the
    gateway's order id and the fixed key id. *)
Lemma create_order_success secret payload w response w' :
  create_order btoa secret payload w = (Ok response, w') →
  ∃ request razorpayOrder order,
    gateway_reply w request = HttpReply true razorpayOrder
    ∧ g_amount request = (p_amount payload * 100)%float
    ∧ gateway w' = gateway w ++ [request]
    ∧ orders w' = orders w ++ [order]
    ∧ status order = "created"
    ∧ amount order = p_amount payload
    ∧ razorpay_order_id order = rz_id razorpayOrder
    ∧ user_id order = p_user_id payload
    ∧ response
      = {| r_status := 200; r_headers := jsonHeaders;
           r_body := OrderCreated true (rz_id razorpayOrder)
                       (rz_amount razorpayOrder) (rz_currency razorpayOrder)
                       RAZORPAY_KEY_ID |}.
Proof.
  unfold create_order, response_json, bind, gets, fetch, orders_insert. simpl.
  match goal with |- context [gateway_reply w ?rq] => set (request := rq) end.
  destruct (gateway_reply w request) as [e|ok razorpayOrder|ok e] eqn:Hreply;
    [done| |by destruct ok].
  destruct ok; simpl; [|done].
  destruct (database_error w) as [e|] eqn:Hdb; simpl; [done|].
  intros [= <- <-].
  by eexists request, razorpayOrder, _.
Qed.

End OrderProperties.

(** The specification's example, [create_order(1000, "INR", "coins", {...},
    "u1")]: 1000 rupees are sent as 100000 paise. *)
Lemma create_order_success_sample :
  ∃ request razorpayOrder order,
    RazorpayPayments.gateway_reply RazorpayPayments.sample_backend request
    = RazorpayPayments.HttpReply true razorpayOrder
    ∧ RazorpayPayments.g_amount request = 100000%float
    ∧ RazorpayPayments.gateway RazorpayPayments.sample_backend_with_order
      = [request]
    ∧ RazorpayPayments.orders RazorpayPayments.sample_backend_with_order
      = [order]
    ∧ RazorpayPayments.status order = "created"
    ∧ RazorpayPayments.amount order = 1000%float
    ∧ RazorpayPayments.razorpay_order_id order
      = RazorpayPayments.rz_id razorpayOrder
    ∧ RazorpayPayments.user_id order = "u1"
    ∧ (RazorpayPayments.handler RazorpayPayments.sample_hmac
         RazorpayPayments.sample_btoa
         (RazorpayPayments.post RazorpayPayments.sample_create_order)
         RazorpayPayments.sample_backend).1
      = Ok {| RazorpayPayments.r_status := 200;
              RazorpayPayments.r_headers := RazorpayPayments.jsonHeaders;
              RazorpayPayments.r_body :=
                RazorpayPayments.OrderCreated true
                  (RazorpayPayments.rz_id razorpayOrder)
                  (RazorpayPayments.rz_amount razorpayOrder)
                  (RazorpayPayments.rz_currency razorpayOrder)
                  RazorpayPayments.RAZORPAY_KEY_ID |}.
Proof.
  destruct (create_order_success RazorpayPayments.sample_btoa "s3cret"
              RazorpayPayments.sample_create_order
              RazorpayPayments.sample_backend
              {| RazorpayPayments.r_status := 200;
                 RazorpayPayments.r_headers := RazorpayPayments.jsonHeaders;
                 RazorpayPayments.r_body :=
                   RazorpayPayments.OrderCreated true "order_N1" 100000%float
                     "INR" RazorpayPayments.RAZORPAY_KEY_ID |}
              RazorpayPayments.sample_backend_with_order)
    as (request & razorpayOrder & order & H).
  { vm_compute. reflexivity. }
  exists request, razorpayOrder, order.
  destruct H as (H1 & H2 & H3 & H4 & H5 & H6 & H7 & H8 & H9).
  repeat split; try assumption.
  injection H9 as Hid Hamount Hcurrency.
  rewrite <- Hid, <- Hamount, <- Hcurrency. vm_compute. reflexivity.
Qed.


(** The end-to-end scenario of the specification: the order is created,
    a forged signature is rejected without any change to what is stored,
    and the right signature flips the order to 'paid'. *)
Example end_to_end :
  let run := RazorpayPayments.handler RazorpayPayments.sample_hmac
               RazorpayPayments.sample_btoa in
  let w1 := RazorpayPayments.sample_backend_with_order in
  let forged := run (RazorpayPayments.post
                       (RazorpayPayments.sample_verify_payment "f00d")) w1 in
  let paid := run (RazorpayPayments.post
                     (RazorpayPayments.sample_verify_payment
                        RazorpayPayments.sample_signature)) w1 in
  RazorpayPayments.status <$> RazorpayPayments.orders w1 = ["created"]
  ∧ forged.1
    = Ok {| RazorpayPayments.r_status := 400;
            RazorpayPayments.r_headers := RazorpayPayments.jsonHeaders;
            RazorpayPayments.r_body :=
              RazorpayPayments.Failure false "Invalid payment signature" |}
  ∧ RazorpayPayments.orders forged.2 = RazorpayPayments.orders w1
  ∧ (∃ order,
       paid.1
       = Ok {| RazorpayPayments.r_status := 200;
               RazorpayPayments.r_headers := RazorpayPayments.jsonHeaders;
               RazorpayPayments.r_body :=
                 RazorpayPayments.PaymentVerified true
                   "Payment verified successfully" order |}
       ∧ RazorpayPayments.status order = "paid"
       ∧ RazorpayPayments.orders paid.2 = [order]).
Proof. vm_compute. repeat split. eexists. repeat split. Qed.

(** ** Compatibility of two users *)

Section MatchingProperties.

Import CallMatching.

(** C4. A non-premium user accepts every target gender, whatever the
    stated preference. *)
Theorem wouldAcceptGender_free preference targetGender :
  wouldAcceptGender preference false targetGender = true.
Proof. reflexivity. Qed.

(** C5. A premium user with preference 'men' accepts exactly 'male', with
    preference 'women' exactly 'female', and with preference 'anyone' every
    target gender. *)
Theorem wouldAcceptGender_premium targetGender :
  (wouldAcceptGender men true targetGender = true ↔ targetGender = male)
  ∧ (wouldAcceptGender women true targetGender = true ↔ targetGender = female)
  ∧ wouldAcceptGender anyone true targetGender = true.
Proof.
  unfold wouldAcceptGender. simpl.
  by rewrite !bool_decide_eq_true.
Qed.

(** C3. A pairing is accepted iff both directional checks pass, so the
    outcome is the same when the two users swap roles: checking the new
    user against the waiting ticket gives what checking the ticket's holder
    against a ticket of the new user gives. *)
Theorem isCompatibleMatch_symmetric (existingRequest : MatchingRequest)
    (newUserGender : Gender) (newUserPreference : Preference)
    (newUserIsPremium : bool) :
  let existing := data existingRequest in
  (isCompatibleMatch existingRequest
     newUserGender newUserPreference newUserIsPremium = true
   ↔ wouldAcceptGender (preferredGender existing) (isPremium existing)
       newUserGender = true
     ∧ wouldAcceptGender newUserPreference newUserIsPremium
         (userGender existing) = true)
  ∧ (∀ ticketId user type created,
       isCompatibleMatch
         (ticket_of ticketId user newUserGender newUserPreference
            newUserIsPremium type created)
         (userGender existing) (preferredGender existing) (isPremium existing)
       = isCompatibleMatch existingRequest
           newUserGender newUserPreference newUserIsPremium).
Proof.
  unfold isCompatibleMatch. simpl. split.
  - apply andb_true_iff.
  - intros _ _ _ _. apply andb_comm.
Qed.

End MatchingProperties.

(** ** Queries on [matchingRequests] *)

Section QueryProperties.

Import CallMatching.

Global Instance oldest_first_transitive : Transitive oldest_first.
Proof.
  intros a b c [Hab|[Hab Hab']] [Hbc|[Hbc Hbc']]; unfold oldest_first.
  - left. lia.
  - left. lia.
  - left. lia.
  - right. split; [lia|]. by etrans.
Qed.

Global Instance oldest_first_total : Total oldest_first.
Proof.
  intros a b. unfold oldest_first.
  destruct (Z.lt_trichotomy (createdAt (data a)) (createdAt (data b)))
    as [?|[Heq|?]]; [by left; left| |by right; left].
  destruct (total String.le (id a) (id b)); [left|right]; right; by rewrite Heq.
Qed.

Lemma oldest_first_not_newer a b : oldest_first a b → not_newer a b.
Proof. unfold oldest_first, not_newer. lia. Qed.

Lemma elem_of_documents (m : gmap string MatchingRequestData) r :
  r ∈ documents m ↔ m !! id r = Some (data r).
Proof.
  unfold documents. rewrite list_elem_of_fmap. split.
  - intros [[i d] [-> Hin]]. by apply elem_of_map_to_list.
  - intros Hlookup. exists (id r, data r). split; [by destruct r|].
    by apply elem_of_map_to_list.
Qed.

Lemma elem_of_query_matches q (m : gmap string MatchingRequestData) r :
  r ∈ query_matches q m ↔ m !! id r = Some (data r) ∧ query_filter q r = true.
Proof.
  unfold query_matches. rewrite merge_sort_Permutation.
  rewrite list_elem_of_In, filter_In, <- list_elem_of_In.
  by rewrite elem_of_documents.
Qed.

Lemma query_matches_sorted q (m : gmap string MatchingRequestData) :
  StronglySorted oldest_first (query_matches q m).
Proof. apply StronglySorted_merge_sort; apply _. Qed.

Lemma NoDup_fmap_filter {A B} (f : A → B) (P : A → bool) (l : list A) :
  NoDup (f <$> l) → NoDup (f <$> List.filter P l).
Proof.
  induction l as [|x l IH]; simpl; [done|].
  intros [Hout Hrest]%NoDup_cons.
  destruct (P x); [|by apply IH].
  simpl. apply NoDup_cons. split; [|by apply IH].
  intros (y & Hy & Hin)%list_elem_of_fmap. apply Hout.
  apply list_elem_of_fmap. exists y. split; [done|].
  apply list_elem_of_In. apply list_elem_of_In, filter_In in Hin. tauto.
Qed.

(** A query never returns a document twice. *)
Lemma query_matches_NoDup q (m : gmap string MatchingRequestData) :
  NoDup (id <$> query_matches q m).
Proof.
  unfold query_matches. rewrite merge_sort_Permutation.
  apply NoDup_fmap_filter. unfold documents.
  rewrite <- list_fmap_compose. apply NoDup_fst_map_to_list.
Qed.

Lemma StronglySorted_weaken {A} (R R' : relation A) l :
  (∀ a b, R a b → R' a b) → StronglySorted R l → StronglySorted R' l.
Proof.
  intros Himpl. induction 1 as [|a l _ IH Hall]; constructor; [done|].
  eapply Forall_impl; [done|]. auto.
Qed.

Lemma matchQuery_filter callType r :
  query_filter (matchQuery callType) r = true
  ↔ status (data r) = waiting ∧ CallMatching.callType (data r) = callType.
Proof.
  unfold query_filter, matchQuery. simpl.
  rewrite !andb_true_iff, !bool_decide_eq_true. tauto.
Qed.

Lemma oldRequestsQuery_filter now r :
  query_filter (oldRequestsQuery now) r = true ↔ stale now (data r).
Proof.
  unfold query_filter, oldRequestsQuery, stale, fiveMinutesAgo. simpl.
  rewrite !andb_true_iff, !bool_decide_eq_true.
  split.
  - intros (Hold & Hwaiting & _). split; [done|lia].
  - intros [Hwaiting Hold]. repeat split; [lia|done].
Qed.

(** What the loop of [findExistingMatch] returns. *)
Lemma first_compatible_spec docs userGender preferredGender isPremium :
  match first_compatible docs userGender preferredGender isPremium with
  | Some request =>
      ∃ earlier later,
        docs = earlier ++ request :: later
        ∧ Forall (incompatible userGender preferredGender isPremium) earlier
        ∧ isCompatibleMatch request userGender preferredGender isPremium = true
  | None => Forall (incompatible userGender preferredGender isPremium) docs
  end.
Proof.
  induction docs as [|request docs IH]; simpl; [by constructor|].
  destruct (isCompatibleMatch request _ _ _) eqn:Hcompatible.
  - by exists [], docs.
  - destruct (first_compatible docs _ _ _) as [found|].
    + destruct IH as (earlier & later & -> & Hearlier & Hfound).
      exists (request :: earlier), later. split; [done|].
      split; [by constructor|done].
    + by constructor.
Qed.

(** A call to the SDK that the environment lets through. *)
Lemma sdk_Ok w :
  sdk_error w (sdk_calls w) = None →
  sdk w = (Ok (sdk_calls w), set_sdk_calls (S (sdk_calls w)) w).
Proof. unfold sdk. by intros ->. Qed.

Lemma sdk_Throw w e :
  sdk_error w (sdk_calls w) = Some e →
  sdk w = (Throw e, set_sdk_calls (S (sdk_calls w)) w).
Proof. unfold sdk. by intros ->. Qed.

Lemma getDocs_Ok q w :
  sdk_error w (sdk_calls w) = None →
  getDocs q w
  = (Ok (run_query q (matchingRequests w)), set_sdk_calls (S (sdk_calls w)) w).
Proof.
  intros Hok. unfold getDocs.
  erewrite bind_Ok by by apply sdk_Ok. done.
Qed.

Lemma getDocs_Throw q w e :
  sdk_error w (sdk_calls w) = Some e →
  getDocs q w = (Throw e, set_sdk_calls (S (sdk_calls w)) w).
Proof.
  intros Herr. unfold getDocs.
  erewrite bind_Throw by by apply sdk_Throw. done.
Qed.

Lemma findExistingMatch_Ok userGender preferredGender isPremium callType w :
  sdk_error w (sdk_calls w) = None →
  findExistingMatch userGender preferredGender isPremium callType w
  = (Ok (first_compatible (run_query (matchQuery callType) (matchingRequests w))
           userGender preferredGender isPremium),
     set_sdk_calls (S (sdk_calls w)) w).
Proof.
  intros Hok. unfold findExistingMatch.
  erewrite try_catch_Ok; [done|].
  erewrite bind_Ok by by apply getDocs_Ok. done.
Qed.

(** When the query is rejected, the error is logged and nothing is found. *)
Lemma findExistingMatch_rejected userGender preferredGender isPremium callType w e :
  sdk_error w (sdk_calls w) = Some e →
  (findExistingMatch userGender preferredGender isPremium callType w).1 = Ok None.
Proof.
  intros Herr. unfold findExistingMatch.
  erewrite try_catch_Throw; [done|].
  erewrite bind_Throw by by apply getDocs_Throw. done.
Qed.

(** C6. When its query is answered, [findExistingMatch] works on a list of
    candidates that holds only stored tickets with status 'waiting' and the
    searcher's call type, each of them once, is in ascending order of
    creation time, has at most 10 entries, and leaves out a waiting ticket
    of that call type only when it already has 10 entries none of which is
    newer: the candidates are the 10 oldest such tickets, or all of them
    when there are fewer.  It returns the first candidate in that order
    that passes the mutual compatibility check and null when no candidate
    passes. *)
Theorem findExistingMatch_first_compatible userGender preferredGender isPremium
    callType w :
  sdk_error w (sdk_calls w) = None →
  ∃ candidates : list MatchingRequest,
    (∀ r, r ∈ candidates →
          matchingRequests w !! id r = Some (data r)
          ∧ status (data r) = waiting
          ∧ CallMatching.callType (data r) = callType)
    ∧ NoDup (id <$> candidates)
    ∧ StronglySorted not_newer candidates
    ∧ (length candidates ≤ 10)%nat
    ∧ (∀ r, matchingRequests w !! id r = Some (data r) →
            status (data r) = waiting →
            CallMatching.callType (data r) = callType →
            r ∉ candidates →
            length candidates = 10%nat
            ∧ ∀ c, c ∈ candidates → not_newer c r)
    ∧ match (findExistingMatch userGender preferredGender isPremium callType w).1 with
      | Ok (Some request) =>
          ∃ earlier later,
            candidates = earlier ++ request :: later
            ∧ Forall (incompatible userGender preferredGender isPremium) earlier
            ∧ isCompatibleMatch request userGender preferredGender isPremium = true
      | Ok None =>
          Forall (incompatible userGender preferredGender isPremium) candidates
      | Throw _ => False
      end.
Proof.
  intros Hok.
  set (all := query_matches (matchQuery callType) (matchingRequests w)).
  exists (take 10 all).
  assert (Hsorted : StronglySorted oldest_first (take 10 all ++ drop 10 all)).
  { rewrite take_drop. apply query_matches_sorted. }
  split; [|split; [|split; [|split; [|split]]]].
  - intros r Hin. apply subseteq_take in Hin.
    apply elem_of_query_matches in Hin as [Hstored Hfilter].
    apply matchQuery_filter in Hfilter as [Hwaiting Htype]. done.
  - rewrite fmap_take. eapply sublist_NoDup; [apply query_matches_NoDup|].
    apply sublist_take.
  - apply (StronglySorted_weaken oldest_first); [apply oldest_first_not_newer|].
    by eapply StronglySorted_app_1_l.
  - rewrite length_take. lia.
  - intros r Hstored Hwaiting Htype Hout.
    assert (Hall : r ∈ take 10 all ++ drop 10 all).
    { rewrite take_drop. apply elem_of_query_matches.
      split; [done|]. by apply matchQuery_filter. }
    apply elem_of_app in Hall as [|Hdrop]; [done|].
    split.
    + rewrite length_take.
      destruct (decide (length all ≤ 10)%nat) as [Hshort|]; [|lia].
      rewrite drop_ge in Hdrop by done. by apply elem_of_nil in Hdrop.
    + intros c Hc. apply oldest_first_not_newer.
      by eapply StronglySorted_app_1_elem_of.
  - rewrite findExistingMatch_Ok by done. simpl.
    apply first_compatible_spec.
Qed.

End QueryProperties.

Lemma findExistingMatch_first_compatible_witness :
  ∃ candidates : list CallMatching.MatchingRequest,
    (∀ r, r ∈ candidates →
          CallMatching.matchingRequests CallMatching.sample_client
            !! CallMatching.id r = Some (CallMatching.data r)
          ∧ CallMatching.status (CallMatching.data r) = CallMatching.waiting
          ∧ CallMatching.callType (CallMatching.data r) = CallMatching.voice)
    ∧ NoDup (CallMatching.id <$> candidates)
    ∧ StronglySorted CallMatching.not_newer candidates
    ∧ (length candidates ≤ 10)%nat
    ∧ (∀ r, CallMatching.matchingRequests CallMatching.sample_client
              !! CallMatching.id r = Some (CallMatching.data r) →
            CallMatching.status (CallMatching.data r) = CallMatching.waiting →
            CallMatching.callType (CallMatching.data r) = CallMatching.voice →
            r ∉ candidates →
            length candidates = 10%nat
            ∧ ∀ c, c ∈ candidates → CallMatching.not_newer c r)
    ∧ match (CallMatching.findExistingMatch CallMatching.female
               CallMatching.anyone false CallMatching.voice
               CallMatching.sample_client).1 with
      | Ok (Some request) =>
          ∃ earlier later,
            candidates = earlier ++ request :: later
            ∧ Forall (CallMatching.incompatible CallMatching.female
                        CallMatching.anyone false) earlier
            ∧ CallMatching.isCompatibleMatch request CallMatching.female
                CallMatching.anyone false = true
      | Ok None =>
          Forall (CallMatching.incompatible CallMatching.female
                    CallMatching.anyone false) candidates
      | Throw _ => False
      end.
Proof.
  apply (findExistingMatch_first_compatible CallMatching.female
           CallMatching.anyone false CallMatching.voice
           CallMatching.sample_client).
  reflexivity.
Defined.

(** On the sample client the oldest waiting voice ticket, [t1], does not
    accept a woman, so the search passes it over and returns [t2]. *)
Example findExistingMatch_sample :
  (CallMatching.findExistingMatch CallMatching.female CallMatching.anyone false
     CallMatching.voice CallMatching.sample_client).1
  = Ok (Some (CallMatching.ticket_of "t2" "bob" CallMatching.male
                CallMatching.anyone false CallMatching.voice
                (CallMatching.sample_now - 60000)))
  ∧ CallMatching.id
      <$> CallMatching.run_query (CallMatching.matchQuery CallMatching.voice)
            CallMatching.sample_tickets
    = ["t1"; "t2"].
Proof. vm_compute. done. Qed.

(** ** Joining a match *)

Section JoinProperties.

Import CallMatching.

(** What [joinMatch] does to the [calls] collection, whatever the SDK
    answers. *)
Lemma joinMatch_calls matchingRequestId userId w :
  let callDoc := autoId w (sdk_calls w) in
  let w' := (joinMatch matchingRequestId userId w).2 in
  match sdk_error w (sdk_calls w) with
  | None => calls w' = <[callDoc := joined_call userId (clock w)]> (calls w)
  | Some _ => calls w' = calls w
  end.
Proof.
  unfold joinMatch, addDoc_calls, updateDoc_matchingRequests, sdk,
    try_catch, bind, gets, modify, ret, throw. simpl.
  destruct (sdk_error w (sdk_calls w)) as [e|]; simpl; [done|].
  destruct (sdk_error w (S (sdk_calls w))) as [e|]; simpl; [done|].
  by destruct (matchingRequests w !! matchingRequestId).
Qed.

(** The run of [joinMatch] in which both SDK calls go through. *)
Lemma joinMatch_Ok matchingRequestId userId w d :
  sdk_error w (sdk_calls w) = None →
  sdk_error w (S (sdk_calls w)) = None →
  matchingRequests w !! matchingRequestId = Some d →
  let callDoc := autoId w (sdk_calls w) in
  joinMatch matchingRequestId userId w
  = (Ok tt,
     {| matchingRequests :=
          <[matchingRequestId := update_fields matched userId callDoc d]>
            (matchingRequests w);
        calls := <[callDoc := joined_call userId (clock w)]> (calls w);
        matchingUnsubscribe := matchingUnsubscribe w;
        console := console w;
        sdk_calls := S (S (sdk_calls w));
        clock := clock w; sdk_error := sdk_error w; autoId := autoId w |}).
Proof.
  intros Hadd Hupdate Hstored.
  unfold joinMatch, addDoc_calls, updateDoc_matchingRequests, sdk,
    try_catch, bind, gets, modify, ret, throw. simpl.
  rewrite Hadd. simpl. rewrite Hupdate. simpl. by rewrite Hstored.
Qed.

(** C10. The call record [joinMatch] creates has the joiner as [callerId]
    and as [receiverId] and has [callType] 'video': every document of
    [calls] after the join either was there before or is that record under
    the id the SDK generated, and the record is there whenever [addDoc] went
    through; the ticket that is joined, and its call type, play no part. *)
Theorem joinMatch_call_record matchingRequestId userId w :
  let callDoc := autoId w (sdk_calls w) in
  let w' := (joinMatch matchingRequestId userId w).2 in
  (∀ i c, calls w' !! i = Some c →
          calls w !! i = Some c
          ∨ (i = callDoc
             ∧ Call.callerId c = userId
             ∧ Call.receiverId c = Some userId
             ∧ Call.callType c = video))
  ∧ (sdk_error w (sdk_calls w) = None →
     ∃ c, calls w' !! callDoc = Some c
          ∧ Call.callerId c = userId
          ∧ Call.receiverId c = Some userId
          ∧ Call.callType c = video).
Proof.
  intros callDoc w'.
  pose proof (joinMatch_calls matchingRequestId userId w) as Hcalls.
  simpl in Hcalls. fold callDoc w' in Hcalls.
  split.
  - intros i c Hlookup.
    destruct (sdk_error w (sdk_calls w)); rewrite Hcalls in Hlookup;
      [by left|].
    destruct (decide (callDoc = i)) as [<-|Hne].
    + rewrite lookup_insert_eq in Hlookup. injection Hlookup as <-.
      by right.
    + rewrite lookup_insert_ne in Hlookup by done. by left.
  - intros Hadd. rewrite Hadd in Hcalls.
    exists (joined_call userId (clock w)).
    by rewrite Hcalls, lookup_insert_eq.
Qed.

End JoinProperties.

Lemma joinMatch_call_record_witness :
  let w' := (CallMatching.joinMatch "t2" "carol" CallMatching.sample_client).2 in
  (CallMatching.calls CallMatching.sample_client !! "auto0"
   = Some (CallMatching.joined_call "carol" CallMatching.sample_now)
   ∨ ("auto0" = "auto0"
      ∧ CallMatching.Call.callerId
          (CallMatching.joined_call "carol" CallMatching.sample_now) = "carol"
      ∧ CallMatching.Call.receiverId
          (CallMatching.joined_call "carol" CallMatching.sample_now)
        = Some "carol"
      ∧ CallMatching.Call.callType
          (CallMatching.joined_call "carol" CallMatching.sample_now)
        = CallMatching.video))
  ∧ (∃ c, CallMatching.calls w' !! "auto0" = Some c
          ∧ CallMatching.Call.callerId c = "carol"
          ∧ CallMatching.Call.receiverId c = Some "carol"
          ∧ CallMatching.Call.callType c = CallMatching.video).
Proof.
  intros w'. split.
  - apply (proj1 (joinMatch_call_record "t2" "carol" CallMatching.sample_client)
             "auto0" (CallMatching.joined_call "carol" CallMatching.sample_now)).
    vm_compute. reflexivity.
  - apply (proj2 (joinMatch_call_record "t2" "carol" CallMatching.sample_client)).
    reflexivity.
Defined.

(** ** Starting a match *)

Section StartProperties.

Import CallMatching.

(** The ticket the search returns is a stored one. *)
Lemma first_compatible_stored q (m : gmap string MatchingRequestData)
    userGender preferredGender isPremium request :
  first_compatible (run_query q m) userGender preferredGender isPremium
  = Some request →
  m !! id request = Some (data request).
Proof.
  intros Hfound.
  pose proof (first_compatible_spec (run_query q m) userGender preferredGender
                isPremium) as Hspec.
  rewrite Hfound in Hspec. destruct Hspec as (earlier & later & Hsplit & _).
  assert (Hin : request ∈ run_query q m).
  { rewrite Hsplit. apply elem_of_app. right. apply elem_of_cons. by left. }
  unfold run_query in Hin.
  destruct (query_limit q); [apply subseteq_take in Hin|];
    by apply elem_of_query_matches in Hin as [? _].
Qed.

(** The join path of [startMatching], when the three SDK calls go through:
    a call document is written under a generated id, the ticket found is
    marked 'matched' and linked to the joiner and to that call, and the
    value returned is [existingMatch.callId || existingMatch.id], read from
    the ticket as it was found. *)
Lemma startMatching_join userId userGender preferredGender isPremium callType
    w existingMatch :
  sdk_error w (sdk_calls w) = None →
  sdk_error w (S (sdk_calls w)) = None →
  sdk_error w (S (S (sdk_calls w))) = None →
  first_compatible (run_query (matchQuery callType) (matchingRequests w))
    userGender preferredGender isPremium = Some existingMatch →
  let callDoc := autoId w (S (sdk_calls w)) in
  let run := startMatching userId userGender preferredGender isPremium callType w in
  run.1 = Ok (js_or (callId (data existingMatch)) (id existingMatch))
  ∧ calls run.2 = <[callDoc := joined_call userId (clock w)]> (calls w)
  ∧ matchingRequests run.2
    = <[id existingMatch := update_fields matched userId callDoc (data existingMatch)]>
        (matchingRequests w).
Proof.
  intros Hquery Hadd Hupdate Hfound callDoc run.
  pose proof (first_compatible_stored _ _ _ _ _ _ Hfound) as Hstored.
  unfold run, startMatching, try_catch, bind.
  rewrite findExistingMatch_Ok by done. rewrite Hfound.
  by rewrite (joinMatch_Ok _ _ _ (data existingMatch)).
Qed.

(** C7 (the code departs from the claim).  On the sample client a free
    woman starts matching for a voice call and is joined to ticket [t2]:
    the call document [auto1] is created, [t2] becomes 'matched' with
    [matchedWith] the joiner and [callId] that call, but [startMatching]
    returns the id of the ticket, ["t2"], not the id of the new call. *)
Theorem startMatching_join_returns_ticket_id :
  let run := startMatching "carol" female anyone false voice sample_client in
  run.1 = Ok "t2"
  ∧ calls run.2 = {[ "auto1" := joined_call "carol" sample_now ]}
  ∧ (status <$> matchingRequests run.2 !! "t2") = Some matched
  ∧ (matchedWith <$> matchingRequests run.2 !! "t2") = Some (Some "carol")
  ∧ (callId <$> matchingRequests run.2 !! "t2") = Some (Some "auto1")
  ∧ run.1 ≠ Ok "auto1".
Proof.
  intros run.
  assert (Hfound :
    first_compatible (run_query (matchQuery voice) (matchingRequests sample_client))
      female anyone false
    = Some (ticket_of "t2" "bob" male anyone false voice (sample_now - 60000)))
    by by vm_compute.
  destruct (startMatching_join "carol" female anyone false voice sample_client
              _ eq_refl eq_refl eq_refl Hfound)
    as (Hresult & Hcalls & Htickets).
  fold run in Hresult, Hcalls, Htickets.
  rewrite Hresult, Hcalls, Htickets. simpl.
  rewrite lookup_insert_eq. simpl.
  repeat split. discriminate.
Qed.

(** A ticket that [startMatching] stored has no [callId] while it waits, so
    on the join path the value returned is the ticket's id. *)
Lemma startMatching_join_returns_id userId userGender preferredGender isPremium
    callType w existingMatch :
  sdk_error w (sdk_calls w) = None →
  sdk_error w (S (sdk_calls w)) = None →
  sdk_error w (S (S (sdk_calls w))) = None →
  first_compatible (run_query (matchQuery callType) (matchingRequests w))
    userGender preferredGender isPremium = Some existingMatch →
  callId (data existingMatch) = None →
  (startMatching userId userGender preferredGender isPremium callType w).1
  = Ok (id existingMatch).
Proof.
  intros Hquery Hadd Hupdate Hfound Hnone.
  destruct (startMatching_join userId _ _ _ _ _ _ Hquery Hadd Hupdate Hfound)
    as [-> _].
  by rewrite Hnone.
Qed.

End StartProperties.

(** ** Cleaning up old requests *)

Section CleanupProperties.

Import CallMatching.

(** One [deleteDoc]: the SDK call is counted; the document is removed
    unless the call is rejected. *)
Lemma deleteDoc_matchingRequests_run i w :
  deleteDoc_matchingRequests i w
  = match sdk_error w (sdk_calls w) with
    | Some e => (Throw e, set_sdk_calls (S (sdk_calls w)) w)
    | None => (Ok tt, set_matchingRequests (delete i)
                        (set_sdk_calls (S (sdk_calls w)) w))
    end.
Proof.
  unfold deleteDoc_matchingRequests, sdk, bind, modify.
  by destruct (sdk_error w (sdk_calls w)).
Qed.

(** Deletions never touch a document outside the list, never create or
    change one, and leave the environment alone. *)
Lemma Promise_all_deletePromises_frame docs w :
  let w' := (Promise_all (deletePromises docs) w).2 in
  sdk_error w' = sdk_error w
  ∧ sdk_calls w' = (sdk_calls w + length docs)%nat
  ∧ (∀ i, i ∉ id <$> docs → matchingRequests w' !! i = matchingRequests w !! i)
  ∧ (∀ i d, matchingRequests w' !! i = Some d → matchingRequests w !! i = Some d).
Proof.
  revert w. induction docs as [|doc docs IH]; intros w; simpl.
  { repeat split; auto with lia. }
  rewrite deleteDoc_matchingRequests_run.
  destruct (sdk_error w (sdk_calls w)) as [e|] eqn:Herr.
  - specialize (IH (set_sdk_calls (S (sdk_calls w)) w)).
    destruct (Promise_all _ _) as [r w'']. simpl in *.
    destruct IH as (Henv & Hcount & Hframe & Hsub).
    repeat split; [done|lia| |done].
    intros i Hi. apply Hframe. by apply not_elem_of_cons in Hi as [_ ?].
  - specialize (IH (set_matchingRequests (delete (id doc))
                      (set_sdk_calls (S (sdk_calls w)) w))).
    destruct (Promise_all _ _) as [r w'']. simpl in *.
    destruct IH as (Henv & Hcount & Hframe & Hsub).
    repeat split; [done|lia| |].
    + intros i Hi. apply not_elem_of_cons in Hi as [Hne Hi].
      rewrite Hframe by done. by apply lookup_delete_ne.
    + intros i d Hlookup. apply Hsub in Hlookup.
      by apply lookup_delete_Some in Hlookup as [_ ?].
Qed.

(** When no deletion is rejected, every listed document is gone. *)
Lemma Promise_all_deletePromises_Ok docs w :
  (∀ n, sdk_error w n = None) →
  (Promise_all (deletePromises docs) w).1 = Ok tt
  ∧ ∀ i, i ∈ id <$> docs →
         matchingRequests (Promise_all (deletePromises docs) w).2 !! i = None.
Proof.
  revert w. induction docs as [|doc docs IH]; intros w Hok; simpl.
  { split; [done|]. intros i Hi. by apply elem_of_nil in Hi. }
  rewrite deleteDoc_matchingRequests_run, Hok.
  set (w1 := set_matchingRequests (delete (id doc))
               (set_sdk_calls (S (sdk_calls w)) w)).
  specialize (IH w1 Hok).
  pose proof (Promise_all_deletePromises_frame docs w1) as (_ & _ & Hframe & _).
  destruct (Promise_all (deletePromises docs) w1) as [r w''] eqn:Hrun.
  simpl in *. destruct IH as [-> Hgone]. split; [done|].
  intros i Hi. apply elem_of_cons in Hi as [->|Hi]; [|by apply Hgone].
  destruct (decide (id doc ∈ id <$> docs)) as [Hin|Hout]; [by apply Hgone|].
  rewrite Hframe by done. apply lookup_delete_eq.
Qed.

(** The documents [cleanupOldRequests] asks for are the stale ones. *)
Lemma elem_of_oldRequests now (m : gmap string MatchingRequestData) i :
  i ∈ id <$> run_query (oldRequestsQuery now) m
  ↔ ∃ d, m !! i = Some d ∧ stale now d.
Proof.
  change (run_query (oldRequestsQuery now) m)
    with (query_matches (oldRequestsQuery now) m).
  rewrite list_elem_of_fmap. split.
  - intros (r & -> & Hin). apply elem_of_query_matches in Hin as [Hstored Hq].
    exists (data r). split; [done|]. by apply oldRequestsQuery_filter.
  - intros (d & Hstored & Hstale). exists {| id := i; data := d |}.
    split; [done|]. apply elem_of_query_matches. split; [done|].
    by apply oldRequestsQuery_filter.
Qed.

(** The store after [cleanupOldRequests], by cases on the query. *)
Lemma cleanupOldRequests_matchingRequests w :
  matchingRequests (cleanupOldRequests w).2
  = match sdk_error w (sdk_calls w) with
    | Some _ => matchingRequests w
    | None =>
        matchingRequests
          (Promise_all
             (deletePromises (run_query (oldRequestsQuery (clock w)) (matchingRequests w)))
             (set_sdk_calls (S (sdk_calls w)) w)).2
    end.
Proof.
  unfold cleanupOldRequests, getDocs, console_error, sdk, try_catch, bind,
    gets, ret, modify. simpl.
  destruct (sdk_error w (sdk_calls w)) as [e|]; simpl; [done|].
  by destruct (Promise_all _ _) as [[[]|e] w''].
Qed.

(** C8. [cleanupOldRequests] removes exactly the tickets that are 'waiting'
    and were created more than five minutes before the call: a ticket that
    is not 'waiting', or was created five minutes ago or later, is still
    there unchanged afterwards; no ticket appears or changes; and when the
    SDK rejects nothing, every waiting ticket created more than five
    minutes ago is gone. *)
Theorem cleanupOldRequests_deletes_stale w :
  let before := matchingRequests w in
  let after := matchingRequests (cleanupOldRequests w).2 in
  let threshold := clock w - 5 * 60 * 1000 in
  (∀ i d, before !! i = Some d →
          status d ≠ waiting ∨ threshold ≤ createdAt d →
          after !! i = Some d)
  ∧ (∀ i d, after !! i = Some d → before !! i = Some d)
  ∧ ((∀ n, sdk_error w n = None) →
     ∀ i d, before !! i = Some d →
            status d = waiting → createdAt d < threshold →
            after !! i = None).
Proof.
  intros before after threshold. unfold after.
  rewrite cleanupOldRequests_matchingRequests.
  set (docs := run_query (oldRequestsQuery (clock w)) (matchingRequests w)).
  set (w1 := set_sdk_calls (S (sdk_calls w)) w).
  pose proof (Promise_all_deletePromises_frame docs w1) as (_ & _ & Hframe & Hsub).
  split; [|split].
  - intros i d Hstored Hkeep.
    destruct (sdk_error w (sdk_calls w)); [done|].
    rewrite Hframe; [done|].
    intros (d' & Hstored' & Hwaiting & Hold)%elem_of_oldRequests.
    assert (d' = d) as -> by (unfold before in Hstored; congruence).
    fold threshold in Hold. destruct Hkeep; [done|lia].
  - intros i d Hlookup.
    destruct (sdk_error w (sdk_calls w)); [done|]. by apply Hsub.
  - intros Hok i d Hstored Hwaiting Hold. rewrite Hok.
    apply Promise_all_deletePromises_Ok; [done|].
    apply elem_of_oldRequests. by exists d.
Qed.

End CleanupProperties.

Lemma cleanupOldRequests_deletes_stale_witness :
  let after :=
    CallMatching.matchingRequests
      (CallMatching.cleanupOldRequests CallMatching.sample_client).2 in
  let fresh := CallMatching.data
    (CallMatching.ticket_of "t2" "bob" CallMatching.male CallMatching.anyone
       false CallMatching.voice (CallMatching.sample_now - 60000)) in
  after !! "t2" = Some fresh
  ∧ CallMatching.sample_tickets !! "t2" = Some fresh
  ∧ after !! "t1" = None.
Proof.
  intros after fresh.
  pose proof (cleanupOldRequests_deletes_stale CallMatching.sample_client)
    as (Hkept & Hsame & Hgone).
  assert (Hfresh : after !! "t2" = Some fresh).
  { apply Hkept; [by vm_compute|].
    right. by apply Z.leb_le. }
  split; [done|split].
  - by apply Hsame.
  - apply (Hgone (λ n, eq_refl) "t1"
             (CallMatching.data
                (CallMatching.ticket_of "t1" "alice" CallMatching.female
                   CallMatching.men true CallMatching.voice
                   (CallMatching.sample_now - 360000)))).
    + by vm_compute.
    + reflexivity.
    + by apply Z.ltb_lt.
Defined.

(** The cleanup scenario of the specification on the sample client: the
    waiting tickets created six and seven minutes ago are deleted, the one
    created a minute ago and the matched one survive. *)
Example cleanupOldRequests_sample :
  (map_to_list
     (CallMatching.matchingRequests
        (CallMatching.cleanupOldRequests CallMatching.sample_client).2)).*1
  = ["t2"; "t4"].
Proof. by vm_compute. Qed.

(** A voice ticket is joined by a call record of type 'video'. *)
Example joinMatch_voice_ticket_sample :
  let w' := (CallMatching.startMatching "carol" CallMatching.female
               CallMatching.anyone false CallMatching.voice
               CallMatching.sample_client).2 in
  CallMatching.callType <$> CallMatching.matchingRequests w' !! "t2"
  = Some CallMatching.voice
  ∧ CallMatching.Call.callType <$> CallMatching.calls w' !! "auto1"
    = Some CallMatching.video.
Proof. by vm_compute. Qed.

(** * Further properties of the edge function *)

Section HandlerProperties.

Import RazorpayPayments.

Variable hmac_sha256_hex : string → string → string.
Variable btoa : string → string.

Local Abbreviation handler' := (handler hmac_sha256_hex btoa).
Local Abbreviation dispatch' := (dispatch hmac_sha256_hex btoa).
Local Abbreviation verify_payment' := (verify_payment hmac_sha256_hex).

(** The three outcomes of the [update ... single()] request. *)
Lemma orders_update_run patch filter_ w :
  orders_update patch filter_ w
  = match database_error w with
    | Some e => (Ok (Error e), w)
    | None =>
        match List.filter filter_ (orders w) with
        | [order] =>
            (Ok (Data (patch order)),
             set_orders (List.map (λ o, if filter_ o then patch o else o)) w)
        | _ => (Ok (Error "JSON object requested, multiple (or no) rows returned"), w)
        end
    end.
Proof. reflexivity. Qed.

(** [verify_payment] once the signature has been accepted. *)
Lemma verify_payment_accepted secret payload w :
  p_razorpay_signature payload = hmac_sha256_hex secret (signed_body payload) →
  verify_payment' secret payload w
  = match orders_update
            (mark_paid (p_razorpay_payment_id payload) (p_razorpay_signature payload))
            (order_matches payload) w with
    | (Ok (Data order), w1) =>
        let line :=
          if String.eqb (product_type order) "coins" then
            Some ("Adding " +:+ field (product_details order) "coins"
                  +:+ " coins to user " +:+ p_user_id payload)
          else if String.eqb (product_type order) "premium" then
            Some ("Activating premium for user " +:+ p_user_id payload +:+ " for "
                  +:+ field (product_details order) "duration")
          else if String.eqb (product_type order) "unlimited_calls" then
            Some ("Activating unlimited calls for user " +:+ p_user_id payload
                  +:+ " for " +:+ field (product_details order) "duration")
          else None in
        (Ok {| r_status := 200; r_headers := jsonHeaders;
               r_body := PaymentVerified true "Payment verified successfully" order |},
         match line with
         | Some l => set_console (λ c, c ++ [l]) w1
         | None => w1
         end)
    | (Ok (Error e), w1) =>
        (Throw "Failed to update order status",
         set_console (λ c, c ++ ["Database error: " +:+ e]) w1)
    | (Throw e, w1) => (Throw e, w1)
    end.
Proof.
  intros Hsig. unfold verify_payment, signed_body in *.
  rewrite <- Hsig, String.eqb_refl. simpl.
  unfold bind at 1. fold (order_matches payload).
  destruct (orders_update _ _ w) as [[[order|e]|e] w1]; [|done..].
  unfold bind, console_log, modify, ret.
  by repeat destruct (String.eqb (product_type order) _).
Qed.

(** What [verify_payment] can do to the [orders] table, in every run. *)
Lemma verify_payment_orders secret payload w :
  let w' := (verify_payment' secret payload w).2 in
  (orders w' = orders w
   ∨ orders w'
     = List.map (λ o, if order_matches payload o
                      then mark_paid (p_razorpay_payment_id payload)
                             (p_razorpay_signature payload) o
                      else o) (orders w))
  ∧ orders_seq w' = orders_seq w
  ∧ gateway w' = gateway w
  ∧ database_error w' = database_error w
  ∧ RAZORPAY_SECRET_KEY w' = RAZORPAY_SECRET_KEY w.
Proof.
  destruct (decide (p_razorpay_signature payload
                    = hmac_sha256_hex secret (signed_body payload)))
    as [Hsig|Hsig].
  - rewrite verify_payment_accepted by done. rewrite orders_update_run.
    destruct (database_error w) as [e|] eqn:Hdb; simpl; [by rewrite Hdb; auto|].
    destruct (List.filter _ _) as [|order [|]]; simpl; [by rewrite Hdb; auto| |by rewrite Hdb; auto].
    repeat destruct (String.eqb (product_type _) _); simpl; by rewrite Hdb; auto.
  - rewrite verify_payment_mismatch by done. simpl. auto.
Qed.

(** X2. [verify_payment] never adds or removes a row and never changes a row
    of another gateway order or another user: every row that does not carry
    both the request's gateway order id and its user id keeps its position
    and content, whatever the outcome of the request. *)
Theorem verify_payment_leaves_other_orders secret payload w :
  let w' := (verify_payment hmac_sha256_hex secret payload w).2 in
  length (orders w') = length (orders w)
  ∧ ∀ i o, orders w !! i = Some o →
           razorpay_order_id o ≠ p_razorpay_order_id payload
           ∨ user_id o ≠ p_user_id payload →
           orders w' !! i = Some o.
Proof.
  intros w'.
  destruct (verify_payment_orders secret payload w) as ([Heq|Heq] & _);
    fold w' in Heq; rewrite Heq.
  - auto.
  - split; [by rewrite length_map|].
    intros i o Hlookup Hother.
    change (List.map ?f ?l) with (f <$> l). rewrite list_lookup_fmap, Hlookup.
    simpl. unfold order_matches.
    destruct Hother as [Hne|Hne]; apply String.eqb_neq in Hne; rewrite Hne;
      [done|by rewrite andb_false_r].
Qed.

(** The run of [verify_payment] that updates exactly one row. *)
Lemma verify_payment_one_row secret payload w order :
  p_razorpay_signature payload = hmac_sha256_hex secret (signed_body payload) →
  database_error w = None →
  List.filter (order_matches payload) (orders w) = [order] →
  let paid := mark_paid (p_razorpay_payment_id payload)
                (p_razorpay_signature payload) in
  let run := verify_payment' secret payload w in
  run.1 = Ok {| r_status := 200; r_headers := jsonHeaders;
                r_body := PaymentVerified true "Payment verified successfully"
                            (paid order) |}
  ∧ gateway run.2 = gateway w
  ∧ orders run.2
    = List.map (λ o, if order_matches payload o then paid o else o) (orders w).
Proof.
  intros Hsig Hdb Hone paid run. unfold run.
  rewrite verify_payment_accepted by done.
  rewrite orders_update_run, Hdb, Hone. simpl.
  split; [done|]. by repeat destruct (String.eqb _ _).
Qed.

(** X1. When the signature is right, the database answers and exactly one
    row carries the request's gateway order id and user id, [verify_payment]
    answers 200 with that row marked 'paid', and afterwards every such row
    has status 'paid' and carries the payment id and the signature of the
    request; nothing is sent to the gateway. *)
Theorem verify_payment_marks_paid secret payload w order :
  p_razorpay_signature payload = hmac_sha256_hex secret (signed_body payload) →
  database_error w = None →
  List.filter (order_matches payload) (orders w) = [order] →
  let paid := mark_paid (p_razorpay_payment_id payload)
                (p_razorpay_signature payload) in
  let run := verify_payment hmac_sha256_hex secret payload w in
  run.1 = Ok {| r_status := 200; r_headers := jsonHeaders;
                r_body := PaymentVerified true "Payment verified successfully"
                            (paid order) |}
  ∧ gateway run.2 = gateway w
  ∧ (∀ i o, orders w !! i = Some o →
            orders run.2 !! i
            = Some (if order_matches payload o then paid o else o))
  ∧ status (paid order) = "paid"
  ∧ razorpay_payment_id (paid order) = Some (p_razorpay_payment_id payload)
  ∧ razorpay_signature (paid order) = Some (p_razorpay_signature payload)
  ∧ amount (paid order) = amount order.
Proof.
  intros Hsig Hdb Hone paid run.
  destruct (verify_payment_one_row secret payload w order Hsig Hdb Hone)
    as (Hresponse & Hgateway & Horders).
  fold run in Hresponse, Hgateway, Horders.
  split; [done|]. split; [done|]. split; [|done].
  intros i o Hlookup. rewrite Horders.
  change (List.map ?f ?l) with (f <$> l).
  by rewrite list_lookup_fmap, Hlookup.
Qed.

Lemma mark_paid_matches payload payment_id signature o :
  order_matches payload (mark_paid payment_id signature o)
  = order_matches payload o.
Proof. reflexivity. Qed.

Lemma filter_map_mark_paid payload payment_id signature l :
  List.filter (order_matches payload)
    (List.map (λ o, if order_matches payload o
                    then mark_paid payment_id signature o else o) l)
  = List.map (mark_paid payment_id signature)
      (List.filter (order_matches payload) l).
Proof.
  induction l as [|o l IH]; simpl; [done|].
  destruct (order_matches payload o) eqn:Hmatch.
  - rewrite mark_paid_matches, Hmatch. simpl. by rewrite IH.
  - by rewrite Hmatch.
Qed.

(** A successful run of [verify_payment], read backwards. *)
Lemma verify_payment_Ok_inv secret payload w response w' :
  verify_payment' secret payload w = (Ok response, w') →
  let paid := mark_paid (p_razorpay_payment_id payload)
                (p_razorpay_signature payload) in
  ∃ order,
    database_error w = None
    ∧ List.filter (order_matches payload) (orders w) = [order]
    ∧ response
      = {| r_status := 200; r_headers := jsonHeaders;
           r_body := PaymentVerified true "Payment verified successfully"
                       (paid order) |}
    ∧ orders w'
      = List.map (λ o, if order_matches payload o then paid o else o) (orders w)
    ∧ database_error w' = None.
Proof.
  intros Hrun paid.
  pose proof (verify_payment_Ok _ _ _ _ _ _ Hrun) as Hsig.
  rewrite verify_payment_accepted, orders_update_run in Hrun by done.
  destruct (database_error w) as [e|] eqn:Hdb; [done|].
  destruct (List.filter _ (orders w)) as [|order [|]] eqn:Hone; [done| |done].
  exists order. simpl in Hrun. injection Hrun as <- <-.
  repeat split; by repeat destruct (String.eqb _ _).
Qed.

(** X3. A verified payment can be replayed: after a successful
    [verify_payment], the same request succeeds again with the same answer
    and leaves the [orders] table as the first run left it (the status of
    the order is not looked at). *)
Theorem verify_payment_replay secret payload w response w' :
  verify_payment hmac_sha256_hex secret payload w = (Ok response, w') →
  (verify_payment hmac_sha256_hex secret payload w').1 = Ok response
  ∧ orders (verify_payment hmac_sha256_hex secret payload w').2 = orders w'.
Proof.
  intros Hrun.
  pose proof (verify_payment_Ok _ _ _ _ _ _ Hrun) as Hsig.
  destruct (verify_payment_Ok_inv _ _ _ _ _ Hrun)
    as (order & Hdb & Hone & -> & Horders & Hdb').
  assert (Hone' : List.filter (order_matches payload) (orders w')
                  = [mark_paid (p_razorpay_payment_id payload)
                       (p_razorpay_signature payload) order]).
  { by rewrite Horders, filter_map_mark_paid, Hone. }
  destruct (verify_payment_one_row secret payload w' _ Hsig Hdb' Hone')
    as (Hagain & _).
  destruct (verify_payment' secret payload w') as [again w''] eqn:Hrun'.
  simpl in *. subst again. split; [done|].
  destruct (verify_payment_Ok_inv _ _ _ _ _ Hrun')
    as (_ & _ & _ & _ & -> & _).
  rewrite <- (List.map_id (orders w')) at 2.
  apply List.map_ext_in. intros o Hin.
  rewrite Horders in Hin. apply List.in_map_iff in Hin as (o0 & <- & _).
  destruct (order_matches payload o0) eqn:Hmatch.
  - by rewrite mark_paid_matches, Hmatch.
  - by rewrite Hmatch.
Qed.

Lemma filter_none {A} (f : A → bool) (l : list A) :
  (∀ x, x ∈ l → f x = false) → List.filter f l = [].
Proof.
  induction l as [|x l IH]; simpl; [done|]. intros Hall.
  rewrite (Hall x) by by left. apply IH. intros y Hy. apply Hall. by right.
Qed.

(** [create_order], by cases on what the gateway and the database answer. *)
Lemma create_order_run secret payload w :
  let request := gateway_request btoa secret payload (Date_now w) in
  create_order btoa secret payload w
  = match gateway_reply w request with
    | NetworkError e => (Throw e, w)
    | HttpReply false _ | HttpUnreadable false _ =>
        (Throw "Failed to create Razorpay order",
         set_gateway (λ l, l ++ [request]) w)
    | HttpUnreadable true e =>
        (Throw e, set_gateway (λ l, l ++ [request]) w)
    | HttpReply true razorpayOrder =>
        match database_error w with
        | Some e =>
            (Throw "Failed to store order in database",
             set_console (λ c, c ++ ["Database error: " +:+ e])
               (set_gateway (λ l, l ++ [request]) w))
        | None =>
            (Ok {| r_status := 200; r_headers := jsonHeaders;
                   r_body := OrderCreated true (rz_id razorpayOrder)
                               (rz_amount razorpayOrder)
                               (rz_currency razorpayOrder) RAZORPAY_KEY_ID |},
             set_orders_seq (N.succ (orders_seq w))
               (set_orders (λ l, l ++ [new_order payload razorpayOrder (orders_seq w)])
                  (set_gateway (λ l, l ++ [request]) w)))
        end
    end.
Proof.
  intros request.
  unfold create_order, response_json, fetch, orders_insert, console_log, bind,
    gets, modify, throw, ret. simpl.
  fold (gateway_request btoa secret payload (Date_now w)). fold request.
  destruct (gateway_reply w request) as [e|[] razorpayOrder|[] e]; simpl;
    [done| |done..].
  by destruct (database_error w).
Qed.

(** X5. The ways [create_order] fails.  In none of them a row is stored.
    If [fetch] rejects, nothing at all has happened; if the gateway refuses
    the order, the error is 'Failed to create Razorpay order' and the body
    of the reply is not read; if the gateway accepted the order but the
    body of its reply cannot be read, the error is the parser's message,
    nothing is logged and the gateway is left with an order that has no
    local row; and if the gateway accepted the order but the database
    insert fails, the error is 'Failed to store order in database', the
    database error is logged, and again the gateway is left with an order
    that has no local row. *)
Theorem create_order_failures secret payload w e w' :
  create_order btoa secret payload w = (Throw e, w') →
  let request := gateway_request btoa secret payload (Date_now w) in
  orders w' = orders w ∧ orders_seq w' = orders_seq w
  ∧ ((gateway_reply w request = NetworkError e ∧ w' = w)
     ∨ (((∃ body, gateway_reply w request = HttpReply false body)
         ∨ (∃ message, gateway_reply w request = HttpUnreadable false message))
        ∧ e = "Failed to create Razorpay order"
        ∧ gateway w' = gateway w ++ [request]
        ∧ console w' = console w)
     ∨ (gateway_reply w request = HttpUnreadable true e
        ∧ gateway w' = gateway w ++ [request]
        ∧ console w' = console w)
     ∨ (∃ razorpayOrder reason,
          gateway_reply w request = HttpReply true razorpayOrder
          ∧ database_error w = Some reason
          ∧ e = "Failed to store order in database"
          ∧ gateway w' = gateway w ++ [request]
          ∧ console w' = console w ++ ["Database error: " +:+ reason])).
Proof.
  intros Hrun request. rewrite create_order_run in Hrun. fold request in Hrun.
  destruct (gateway_reply w request) as [e'|[] razorpayOrder|[] e'] eqn:Hreply.
  - injection Hrun as <- <-. auto.
  - destruct (database_error w) as [reason|] eqn:Hdb; [|done].
    injection Hrun as <- <-. repeat split.
    right; right; right. by exists razorpayOrder, reason.
  - injection Hrun as <- <-. repeat split.
    right; left. split; [|done]. left. by exists razorpayOrder.
  - injection Hrun as <- <-. repeat split.
    right; right; left. done.
  - injection Hrun as <- <-. repeat split.
    right; left. split; [|done]. right. by exists e'.
Qed.

(** X6. The currency of an order: a successful [create_order] stores the
    currency it sent to the gateway, which is the request's currency, or
    'INR' when the request has none or an empty one. *)
Theorem create_order_currency secret payload w response w' :
  create_order btoa secret payload w = (Ok response, w') →
  ∃ request order,
    last (gateway w') = Some request ∧ last (orders w') = Some order
    ∧ currency order = g_currency request
    ∧ g_currency request
      = match p_currency payload with
        | Some c => if decide (c = "") then "INR" else c
        | None => "INR"
        end.
Proof.
  intros Hrun. rewrite create_order_run in Hrun.
  destruct (gateway_reply w _) as [?|[] razorpayOrder|[] ?]; [done| |done..].
  destruct (database_error w); [done|].
  injection Hrun as _ <-. simpl.
  eexists _, _. rewrite !last_snoc. done.
Qed.

(** X7. Creating an order and then verifying its payment.  After a
    successful [create_order] for a gateway order id that the user had no
    row for, a [verify_payment] request of the same user that names this
    order and carries the right signature succeeds, and the row it returns
    is the row just created, now with status 'paid' and the payment id. *)
Theorem create_order_then_verify_payment secret payload w response w1
    razorpayOrder verification :
  create_order btoa secret payload w = (Ok response, w1) →
  gateway_reply w (gateway_request btoa secret payload (Date_now w))
  = HttpReply true razorpayOrder →
  (∀ o, o ∈ orders w →
        razorpay_order_id o ≠ rz_id razorpayOrder
        ∨ user_id o ≠ p_user_id payload) →
  p_razorpay_order_id verification = rz_id razorpayOrder →
  p_user_id verification = p_user_id payload →
  p_razorpay_signature verification
  = hmac_sha256_hex secret (signed_body verification) →
  ∃ created,
    last (orders w1) = Some created
    ∧ status created = "created"
    ∧ (verify_payment hmac_sha256_hex secret verification w1).1
      = Ok {| r_status := 200; r_headers := jsonHeaders;
              r_body := PaymentVerified true "Payment verified successfully"
                          (mark_paid (p_razorpay_payment_id verification)
                             (p_razorpay_signature verification) created) |}
    ∧ last (orders (verify_payment hmac_sha256_hex secret verification w1).2)
      = Some (mark_paid (p_razorpay_payment_id verification)
                (p_razorpay_signature verification) created)
    ∧ amount created = p_amount payload.
Proof.
  intros Hrun Hreply Hfresh Horder Huser Hsig.
  rewrite create_order_run, Hreply in Hrun.
  destruct (database_error w) eqn:Hdb; [done|].
  injection Hrun as _ <-.
  set (created := new_order payload razorpayOrder (orders_seq w)).
  set (w1 := set_orders_seq _ _).
  assert (Horders1 : orders w1 = orders w ++ [created]) by done.
  assert (Hmatch : order_matches verification created = true).
  { unfold order_matches. simpl. by rewrite Horder, Huser, !String.eqb_refl. }
  assert (Hone : List.filter (order_matches verification) (orders w1) = [created]).
  { rewrite Horders1, List.filter_app, filter_none; simpl; [by rewrite Hmatch|].
    intros o Ho. unfold order_matches. rewrite Horder, Huser.
    destruct (Hfresh o Ho) as [Hne|Hne]; apply String.eqb_neq in Hne;
      rewrite Hne; [done|by rewrite andb_false_r]. }
  destruct (verify_payment_one_row secret verification w1 created Hsig Hdb Hone)
    as (Hresponse & _).
  destruct (verify_payment' secret verification w1) as [r w2] eqn:Hrun2.
  simpl in Hresponse. subst r.
  destruct (verify_payment_Ok_inv _ _ _ _ _ Hrun2) as (_ & _ & _ & _ & Horders2 & _).
  exists created. simpl.
  rewrite Horders2, Horders1, List.map_app, !last_snoc. simpl.
  by rewrite Hmatch, last_snoc.
Qed.

(** X4. A payment for an order the user does not have: when the signature
    is right but no row carries both the gateway order id and the user id
    of the request (the order is unknown, or belongs to another user),
    [verify_payment] fails with 'Failed to update order status' and leaves
    the table and the gateway as they were. *)
Theorem verify_payment_unknown_order secret payload w :
  p_razorpay_signature payload = hmac_sha256_hex secret (signed_body payload) →
  (∀ o, o ∈ orders w →
        razorpay_order_id o ≠ p_razorpay_order_id payload
        ∨ user_id o ≠ p_user_id payload) →
  let run := verify_payment hmac_sha256_hex secret payload w in
  run.1 = Throw "Failed to update order status"
  ∧ orders run.2 = orders w
  ∧ orders_seq run.2 = orders_seq w
  ∧ gateway run.2 = gateway w.
Proof.
  intros Hsig Hnone run. unfold run.
  rewrite verify_payment_accepted, orders_update_run by done.
  destruct (database_error w); [done|].
  rewrite filter_none; [done|].
  intros o Ho. unfold order_matches.
  destruct (Hnone o Ho) as [Hne|Hne]; apply String.eqb_neq in Hne;
    rewrite Hne; [done|by rewrite andb_false_r].
Qed.

(** The handler on a request that is not a preflight. *)
Lemma handler_run req w :
  method req ≠ "OPTIONS" →
  handler' req w
  = match dispatch' req w with
    | (Ok response, w') => (Ok response, w')
    | (Throw message, w') =>
        (Ok (failure_response message),
         set_console (λ c, c ++ ["Payment error: " +:+ message]) w')
    end.
Proof.
  intros Hmethod%eqb_false_ne. unfold handler. rewrite Hmethod.
  unfold try_catch. by destruct (dispatch' req w) as [[] ?].
Qed.

(** X8. The guards of the handler.  A preflight ([OPTIONS]) is answered
    200 with the CORS headers and no body before anything else is looked
    at; every other request is answered 400 without touching the gateway or
    the table when the secret is missing or empty ('RAZORPAY_SECRET_KEY is
    not configured'), when the body cannot be parsed (the parser's
    message), and when the action is neither 'create_order' nor
    'verify_payment' ('Invalid action'). *)
Theorem handler_guards req w :
  let rejected message :=
    (Ok (failure_response message),
     set_console (λ c, c ++ ["Payment error: " +:+ message]) w) in
  (method req = "OPTIONS" →
   handler hmac_sha256_hex btoa req w
   = (Ok {| r_status := 200; r_headers := corsHeaders; r_body := NoBody |}, w))
  ∧ (method req ≠ "OPTIONS" →
     RAZORPAY_SECRET_KEY w = None ∨ RAZORPAY_SECRET_KEY w = Some "" →
     handler hmac_sha256_hex btoa req w = rejected "RAZORPAY_SECRET_KEY is not configured")
  ∧ (∀ secret message,
       method req ≠ "OPTIONS" →
       RAZORPAY_SECRET_KEY w = Some secret → secret ≠ "" →
       json req = Throw message →
       handler hmac_sha256_hex btoa req w = rejected message)
  ∧ (∀ secret payload,
       method req ≠ "OPTIONS" →
       RAZORPAY_SECRET_KEY w = Some secret → secret ≠ "" →
       json req = Ok payload →
       action payload ≠ "create_order" → action payload ≠ "verify_payment" →
       handler hmac_sha256_hex btoa req w = rejected "Invalid action").
Proof.
  intros rejected. unfold rejected. split; [|split; [|split]].
  - intros Hmethod. unfold handler. by rewrite Hmethod.
  - intros Hmethod Hunset. rewrite handler_run by done.
    unfold dispatch, bind, gets. by destruct Hunset as [-> | ->].
  - intros secret message Hmethod Hsecret Hne Hjson. rewrite handler_run by done.
    unfold dispatch, bind, gets. rewrite Hsecret, Hjson. simpl.
    by rewrite bool_decide_eq_false_2.
  - intros secret payload Hmethod Hsecret Hne Hjson Hne1 Hne2.
    rewrite handler_run by done.
    rewrite (handler_dispatch _ _ _ _ _ _ Hsecret Hne Hjson).
    apply eqb_false_ne in Hne1, Hne2. by rewrite Hne1, Hne2.
Qed.

(** What a run of the [try] block that does not throw returns. *)
Lemma dispatch_Ok_inv req w response w' :
  dispatch' req w = (Ok response, w') →
  r_status response = 200 ∧ success_field (r_body response) = Some true.
Proof.
  unfold dispatch, bind, gets.
  destruct (js_falsy _); [done|].
  destruct (json req) as [payload|]; [|done].
  destruct (String.eqb (action payload) "create_order").
  - rewrite create_order_run.
    destruct (gateway_reply w _) as [?|[] ?|[] ?]; [done| |done..].
    destruct (database_error w); [done|]. by intros [= <- _].
  - destruct (String.eqb (action payload) "verify_payment"); [|done].
    intros Hrun. apply verify_payment_Ok_inv in Hrun
      as (? & _ & _ & -> & _). done.
Qed.

(** X9. The handler always answers: no exception escapes it.  The answer
    is either a 200 that does not report failure, or a 400 whose body is
    [{ success: false, error }] with the message of the exception, which is
    also the last line written to the console. *)
Theorem handler_always_responds req w :
  ∃ response,
    (handler hmac_sha256_hex btoa req w).1 = Ok response
    ∧ ((r_status response = 200
        ∧ success_field (r_body response) ≠ Some false)
       ∨ ∃ message,
           response = failure_response message
           ∧ last (console (handler hmac_sha256_hex btoa req w).2)
             = Some ("Payment error: " +:+ message)).
Proof.
  destruct (decide (method req = "OPTIONS")) as [Hmethod|Hmethod].
  - unfold handler. rewrite Hmethod. eexists. split; [done|]. by left.
  - rewrite handler_run by done.
    destruct (dispatch' req w) as [[response|message] w'] eqn:Hrun.
    + exists response. split; [done|]. left.
      apply dispatch_Ok_inv in Hrun as [-> ->]. done.
    + exists (failure_response message). split; [done|]. right.
      exists message. simpl. by rewrite last_snoc.
Qed.

End HandlerProperties.

Section HandlerWitnesses.

Import RazorpayPayments.

Local Abbreviation created :=
  (new_order sample_create_order
     {| rz_id := "order_N1"; rz_amount := 100000%float; rz_currency := "INR" |} 1).
Local Abbreviation verify := (verify_payment sample_hmac "s3cret").

Lemma verify_payment_marks_paid_witness :
  (verify (sample_verify_payment sample_signature) sample_backend_with_order).1
  = Ok {| r_status := 200; r_headers := jsonHeaders;
          r_body := PaymentVerified true "Payment verified successfully"
                      (mark_paid "pay_7" sample_signature created) |}.
Proof.
  apply (verify_payment_marks_paid sample_hmac "s3cret"
           (sample_verify_payment sample_signature) sample_backend_with_order
           created); reflexivity.
Defined.

Lemma verify_payment_leaves_other_orders_witness :
  orders (verify (sample_verify_payment_by "u2") sample_backend_with_order).2
    !! 0%nat
  = Some created.
Proof.
  apply (proj2 (verify_payment_leaves_other_orders sample_hmac "s3cret"
                  (sample_verify_payment_by "u2") sample_backend_with_order)).
  - reflexivity.
  - right. discriminate.
Defined.

Lemma verify_payment_replay_witness :
  let once := verify (sample_verify_payment sample_signature)
                sample_backend_with_order in
  let twice := verify (sample_verify_payment sample_signature) once.2 in
  twice.1 = once.1 ∧ orders twice.2 = orders once.2.
Proof.
  intros once twice.
  exact (verify_payment_replay sample_hmac "s3cret"
           (sample_verify_payment sample_signature) sample_backend_with_order
           {| r_status := 200; r_headers := jsonHeaders;
              r_body := PaymentVerified true "Payment verified successfully"
                          (mark_paid "pay_7" sample_signature created) |}
           once.2 eq_refl).
Defined.

Lemma create_order_failures_witness :
  let run := create_order sample_btoa "s3cret" sample_create_order
               (database_down sample_backend) in
  let garbled := create_order sample_btoa "s3cret" sample_create_order
                   (gateway_garbling sample_backend) in
  run.1 = Throw "Failed to store order in database"
  ∧ orders run.2 = [] ∧ length (gateway run.2) = 1%nat
  ∧ garbled.1 = Throw "Unexpected end of JSON input"
  ∧ orders garbled.2 = [] ∧ length (gateway garbled.2) = 1%nat.
Proof.
  intros run garbled.
  destruct (create_order_failures sample_btoa "s3cret" sample_create_order
              (database_down sample_backend)
              "Failed to store order in database" run.2 eq_refl)
    as (Horders & _ & [[Hreply _]|[([[body Hreply]|[body Hreply]] & _)
                                  |[(Hreply & _)|(_ & _ & _ & _ & _ & Hgateway & _)]]]);
    [discriminate Hreply..|].
  destruct (create_order_failures sample_btoa "s3cret" sample_create_order
              (gateway_garbling sample_backend)
              "Unexpected end of JSON input" garbled.2 eq_refl)
    as (Horders' & _ & [[Hreply _]|[([[body Hreply]|[body Hreply]] & _)
                                   |[(_ & Hgateway' & _)|(? & ? & Hreply & _)]]]);
    [discriminate Hreply..| |discriminate Hreply].
  split; [reflexivity|]. split; [exact Horders|].
  split; [by rewrite Hgateway|].
  split; [reflexivity|]. split; [exact Horders'|]. by rewrite Hgateway'.
Defined.

Lemma create_order_currency_witness :
  ∃ request order,
    last (gateway sample_backend_with_order) = Some request
    ∧ last (orders sample_backend_with_order) = Some order
    ∧ currency order = g_currency request
    ∧ g_currency request = "INR".
Proof.
  exact (create_order_currency sample_btoa "s3cret" sample_create_order
           sample_backend
           {| r_status := 200; r_headers := jsonHeaders;
              r_body := OrderCreated true "order_N1" 100000%float "INR"
                          RAZORPAY_KEY_ID |}
           sample_backend_with_order eq_refl).
Defined.

Lemma create_order_then_verify_payment_witness :
  ∃ order,
    last (orders sample_backend_with_order) = Some order
    ∧ status order = "created"
    ∧ (verify (sample_verify_payment sample_signature) sample_backend_with_order).1
      = Ok {| r_status := 200; r_headers := jsonHeaders;
              r_body := PaymentVerified true "Payment verified successfully"
                          (mark_paid "pay_7" sample_signature order) |}
    ∧ last (orders (verify (sample_verify_payment sample_signature)
                      sample_backend_with_order).2)
      = Some (mark_paid "pay_7" sample_signature order)
    ∧ amount order = 1000%float.
Proof.
  apply (create_order_then_verify_payment sample_hmac sample_btoa "s3cret"
           sample_create_order sample_backend
           {| r_status := 200; r_headers := jsonHeaders;
              r_body := OrderCreated true "order_N1" 100000%float "INR"
                          RAZORPAY_KEY_ID |}
           sample_backend_with_order
           {| rz_id := "order_N1"; rz_amount := 100000%float;
              rz_currency := "INR" |}
           (sample_verify_payment sample_signature)); try reflexivity.
  intros o Ho. by apply elem_of_nil in Ho.
Defined.

Lemma verify_payment_unknown_order_witness :
  let run := verify (sample_verify_payment_by "u2") sample_backend_with_order in
  run.1 = Throw "Failed to update order status"
  ∧ orders run.2 = orders sample_backend_with_order
  ∧ orders_seq run.2 = orders_seq sample_backend_with_order
  ∧ gateway run.2 = gateway sample_backend_with_order.
Proof.
  apply (verify_payment_unknown_order sample_hmac "s3cret"
           (sample_verify_payment_by "u2") sample_backend_with_order).
  - reflexivity.
  - intros o Ho. apply list_elem_of_singleton in Ho as ->. right. discriminate.
Defined.

Lemma handler_guards_witness :
  let run := handler sample_hmac sample_btoa in
  let preflight := {| method := "OPTIONS";
                      json := Throw "Unexpected end of JSON input" |} in
  let garbled := {| method := "POST";
                    json := Throw "Unexpected end of JSON input" |} in
  (run preflight (unconfigured sample_backend)).1
  = Ok {| r_status := 200; r_headers := corsHeaders; r_body := NoBody |}
  ∧ (run (post sample_create_order) (unconfigured sample_backend)).1
    = Ok (failure_response "RAZORPAY_SECRET_KEY is not configured")
  ∧ (run garbled sample_backend).1
    = Ok (failure_response "Unexpected end of JSON input")
  ∧ (run (post sample_refund) sample_backend).1
    = Ok (failure_response "Invalid action").
Proof.
  intros run preflight garbled. unfold run. split; [|split; [|split]].
  - by rewrite (proj1 (handler_guards sample_hmac sample_btoa preflight
                         (unconfigured sample_backend)) eq_refl).
  - rewrite (proj1 (proj2 (handler_guards sample_hmac sample_btoa
                             (post sample_create_order)
                             (unconfigured sample_backend))));
      [done|discriminate|by right].
  - rewrite (proj1 (proj2 (proj2 (handler_guards sample_hmac sample_btoa
                                    garbled sample_backend)))
               "s3cret" "Unexpected end of JSON input");
      [done|discriminate|done|discriminate|done].
  - rewrite (proj2 (proj2 (proj2 (handler_guards sample_hmac sample_btoa
                                    (post sample_refund) sample_backend)))
               "s3cret" sample_refund);
      [done|discriminate|done|discriminate|done|discriminate|discriminate].
Defined.

End HandlerWitnesses.

(** * Further properties of the matching service *)

Section MatchingServiceProperties.

Import CallMatching.

(** [findExistingMatch] only reads: it never throws, and apart from the
    count of SDK calls and the console it leaves the client as it was. *)
Lemma findExistingMatch_frame userGender preferredGender isPremium callType w :
  let run := findExistingMatch userGender preferredGender isPremium callType w in
  (∃ found, run.1 = Ok found)
  ∧ matchingRequests run.2 = matchingRequests w
  ∧ calls run.2 = calls w
  ∧ matchingUnsubscribe run.2 = matchingUnsubscribe w
  ∧ sdk_calls run.2 = S (sdk_calls w)
  ∧ sdk_error run.2 = sdk_error w
  ∧ autoId run.2 = autoId w
  ∧ clock run.2 = clock w.
Proof.
  unfold findExistingMatch, getDocs, console_error, sdk, try_catch, bind, gets,
    modify, ret. simpl.
  destruct (sdk_error w (sdk_calls w)); simpl; eauto 10.
Qed.

(** A ticket the search returns is stored, waiting and of the call type
    searched for. *)
Lemma findExistingMatch_Some userGender preferredGender isPremium callType w r :
  (findExistingMatch userGender preferredGender isPremium callType w).1
  = Ok (Some r) →
  matchingRequests w !! id r = Some (data r)
  ∧ status (data r) = waiting
  ∧ CallMatching.callType (data r) = callType
  ∧ isCompatibleMatch r userGender preferredGender isPremium = true.
Proof.
  destruct (sdk_error w (sdk_calls w)) as [e|] eqn:Hquery.
  { by rewrite (findExistingMatch_rejected _ _ _ _ _ e). }
  rewrite findExistingMatch_Ok by done. simpl. intros [= Hfound].
  pose proof (first_compatible_spec
                (run_query (matchQuery callType) (matchingRequests w))
                userGender preferredGender isPremium) as Hspec.
  rewrite Hfound in Hspec. destruct Hspec as (earlier & later & Hsplit & _ & Hok).
  assert (Hin : r ∈ take 10 (query_matches (matchQuery callType) (matchingRequests w))).
  { change (take 10 _) with (run_query (matchQuery callType) (matchingRequests w)).
    rewrite Hsplit. apply elem_of_app. right. by left. }
  apply subseteq_take, elem_of_query_matches in Hin as [Hstored Hfilter].
  apply matchQuery_filter in Hfilter as [? ?]. done.
Qed.

(** [startMatching], by cases on what the search returns. *)
Lemma startMatching_run userId userGender preferredGender isPremium callType w :
  startMatching userId userGender preferredGender isPremium callType w
  = let (found, w1) :=
      findExistingMatch userGender preferredGender isPremium callType w in
    match found with
    | Ok (Some existingMatch) =>
        match joinMatch (id existingMatch) userId w1 with
        | (Ok _, w2) =>
            (Ok (js_or (callId (data existingMatch)) (id existingMatch)), w2)
        | (Throw e, w2) => (Throw ("Failed to start matching: " +:+ e), w2)
        end
    | Ok None =>
        match addDoc_matchingRequests
                (data (ticket_of "" userId userGender preferredGender isPremium
                         callType (clock w1))) w1 with
        | (Ok matchingDoc, w2) =>
            (Ok matchingDoc, set_matchingUnsubscribe (Some matchingDoc) w2)
        | (Throw e, w2) => (Throw ("Failed to start matching: " +:+ e), w2)
        end
    | Throw e => (Throw ("Failed to start matching: " +:+ e), w1)
    end.
Proof.
  unfold startMatching, try_catch, bind at 1.
  destruct (findExistingMatch _ _ _ _ w) as [[[existingMatch|]|e] w1]; [| |done].
  - unfold bind, ret. by destruct (joinMatch _ _ w1) as [[[]|e] w2].
  - unfold bind at 1, gets. unfold bind at 1. simpl.
    destruct (addDoc_matchingRequests _ w1) as [[i|e] w2]; [|done].
    by unfold bind, listenForMatch, modify, ret.
Qed.

(** The three runs of [joinMatch], by what they leave in the store. *)
Lemma joinMatch_run matchingRequestId userId w :
  let n := sdk_calls w in
  let callDoc := autoId w n in
  let run := joinMatch matchingRequestId userId w in
  matchingUnsubscribe run.2 = matchingUnsubscribe w
  ∧ match sdk_error w n with
    | Some e =>
        run.1 = Throw ("Failed to join match: " +:+ e)
        ∧ calls run.2 = calls w
        ∧ matchingRequests run.2 = matchingRequests w
    | None =>
        calls run.2 = <[callDoc := joined_call userId (clock w)]> (calls w)
        ∧ match sdk_error w (S n), matchingRequests w !! matchingRequestId with
          | None, Some d =>
              run.1 = Ok tt
              ∧ matchingRequests run.2
                = <[matchingRequestId := update_fields matched userId callDoc d]>
                    (matchingRequests w)
          | Some e, _ =>
              run.1 = Throw ("Failed to join match: " +:+ e)
              ∧ matchingRequests run.2 = matchingRequests w
          | None, None =>
              (∃ e, run.1 = Throw ("Failed to join match: " +:+ e))
              ∧ matchingRequests run.2 = matchingRequests w
          end
    end.
Proof.
  unfold joinMatch, addDoc_calls, updateDoc_matchingRequests, sdk,
    try_catch, bind, gets, modify, ret, throw. simpl.
  destruct (sdk_error w (sdk_calls w)); simpl; [done|].
  destruct (sdk_error w (S (sdk_calls w))); simpl; [done|].
  destruct (matchingRequests w !! matchingRequestId); simpl; eauto.
Qed.

(** The run of [startMatching] that stores a ticket. *)
Lemma startMatching_wait_run userId userGender preferredGender isPremium
    callType w :
  (findExistingMatch userGender preferredGender isPremium callType w).1 = Ok None →
  sdk_error w (S (sdk_calls w)) = None →
  let ticketId := autoId w (S (sdk_calls w)) in
  let run := startMatching userId userGender preferredGender isPremium callType w in
  run.1 = Ok ticketId
  ∧ matchingRequests run.2
    = <[ticketId := data (ticket_of ticketId userId userGender preferredGender
                            isPremium callType (clock w))]> (matchingRequests w)
  ∧ calls run.2 = calls w
  ∧ matchingUnsubscribe run.2 = Some ticketId
  ∧ sdk_calls run.2 = S (S (sdk_calls w))
  ∧ sdk_error run.2 = sdk_error w.
Proof.
  intros Hnone Hadd ticketId run. unfold run. rewrite startMatching_run.
  pose proof (findExistingMatch_frame userGender preferredGender isPremium
                callType w) as (_ & Htickets & Hcalls & _ & Hn & Herr & Hid & Hclock).
  destruct (findExistingMatch _ _ _ _ w) as [found w1]. simpl in *. subst found.
  unfold addDoc_matchingRequests, sdk, bind, gets, modify, ret. simpl.
  rewrite Herr, Hn, Hadd. simpl. rewrite Hid, Hclock, Htickets, Hcalls. done.
Qed.

(** X10. With no compatible ticket to join (none found, or the search was
    rejected), [startMatching] stores a ticket for the user under a
    generated id: status 'waiting', the user's gender, preference, premium
    flag and call type, created now, no partner and no call.  It returns
    that id, listens on that ticket, and creates no call. *)
Theorem startMatching_waits userId userGender preferredGender isPremium
    callType w :
  (findExistingMatch userGender preferredGender isPremium callType w).1 = Ok None →
  sdk_error w (S (sdk_calls w)) = None →
  let ticketId := autoId w (S (sdk_calls w)) in
  let run := startMatching userId userGender preferredGender isPremium callType w in
  run.1 = Ok ticketId
  ∧ matchingRequests run.2
    = <[ticketId := data (ticket_of ticketId userId userGender preferredGender
                            isPremium callType (clock w))]> (matchingRequests w)
  ∧ calls run.2 = calls w
  ∧ matchingUnsubscribe run.2 = Some ticketId.
Proof.
  intros Hnone Hadd.
  destruct (startMatching_wait_run userId _ _ _ _ _ Hnone Hadd)
    as (? & ? & ? & ? & _). done.
Qed.

(** X11. A rejected search does not fail [startMatching]: the error is
    logged, the search counts as having found nothing, and the user gets a
    waiting ticket, whether or not a compatible ticket is stored. *)
Theorem startMatching_search_rejected userId userGender preferredGender
    isPremium callType w e :
  sdk_error w (sdk_calls w) = Some e →
  sdk_error w (S (sdk_calls w)) = None →
  let ticketId := autoId w (S (sdk_calls w)) in
  let run := startMatching userId userGender preferredGender isPremium callType w in
  run.1 = Ok ticketId
  ∧ matchingRequests run.2 !! ticketId
    = Some (data (ticket_of ticketId userId userGender preferredGender
                    isPremium callType (clock w)))
  ∧ calls run.2 = calls w
  ∧ console run.2 = console w ++ ["Error finding existing match: " +:+ e].
Proof.
  intros Hquery Hadd ticketId run.
  destruct (startMatching_wait_run userId userGender preferredGender isPremium
              callType w) as (Hresult & Htickets & Hcalls & _);
    [by eapply findExistingMatch_rejected|done|].
  fold ticketId run in Hresult, Htickets, Hcalls.
  split; [done|]. split; [by rewrite Htickets, lookup_insert_eq|].
  split; [done|].
  unfold run. rewrite startMatching_run.
  unfold findExistingMatch, getDocs, console_error, addDoc_matchingRequests, sdk,
    try_catch, bind, gets, modify, ret. simpl.
  rewrite Hquery. simpl. by rewrite Hadd.
Qed.

(** X12. When [addDoc] is rejected, [startMatching] throws before anything
    is written: 'Failed to start matching: e' if it was storing the user's
    ticket, 'Failed to start matching: Failed to join match: e' if it was
    creating the call for a ticket it found; in both cases tickets, calls
    and listener are as before. *)
Theorem startMatching_addDoc_rejected userId userGender preferredGender
    isPremium callType w found e :
  (findExistingMatch userGender preferredGender isPremium callType w).1
  = Ok found →
  sdk_error w (S (sdk_calls w)) = Some e →
  let run := startMatching userId userGender preferredGender isPremium callType w in
  run.1 = Throw ("Failed to start matching: "
                 +:+ match found with
                     | Some _ => "Failed to join match: " +:+ e
                     | None => e
                     end)
  ∧ matchingRequests run.2 = matchingRequests w
  ∧ calls run.2 = calls w
  ∧ matchingUnsubscribe run.2 = matchingUnsubscribe w.
Proof.
  intros Hfound Hadd run. unfold run. rewrite startMatching_run.
  pose proof (findExistingMatch_frame userGender preferredGender isPremium
                callType w) as (_ & Htickets & Hcalls & Hl & Hn & Herr & Hid & Hclock).
  destruct (findExistingMatch _ _ _ _ w) as [r w1]. simpl in *. subst r.
  destruct found as [existingMatch|].
  - pose proof (joinMatch_run (id existingMatch) userId w1) as (Hl' & Hjoin).
    simpl in Hjoin. rewrite Herr, Hn, Hadd in Hjoin.
    destruct (joinMatch _ _ w1) as [r w2]. simpl in *.
    destruct Hjoin as (-> & Hcalls' & Htickets'). simpl.
    by rewrite Hcalls', Htickets', Hl'.
  - unfold addDoc_matchingRequests, sdk, bind, gets, modify, ret. simpl.
    rewrite Herr, Hn, Hadd. done.
Qed.

(** X13. A join is not atomic.  When the call document has been created
    and the update of the ticket is then rejected, [startMatching] throws,
    but the call document stays in [calls] while the ticket is unchanged,
    still 'waiting' and without that call. *)
Theorem startMatching_join_update_rejected userId userGender preferredGender
    isPremium callType w existingMatch e :
  (findExistingMatch userGender preferredGender isPremium callType w).1
  = Ok (Some existingMatch) →
  sdk_error w (S (sdk_calls w)) = None →
  sdk_error w (S (S (sdk_calls w))) = Some e →
  let callDoc := autoId w (S (sdk_calls w)) in
  let run := startMatching userId userGender preferredGender isPremium callType w in
  run.1 = Throw ("Failed to start matching: Failed to join match: " +:+ e)
  ∧ calls run.2 = <[callDoc := joined_call userId (clock w)]> (calls w)
  ∧ matchingRequests run.2 = matchingRequests w
  ∧ matchingRequests run.2 !! id existingMatch = Some (data existingMatch)
  ∧ status (data existingMatch) = waiting.
Proof.
  intros Hfound Hadd Hupdate callDoc run.
  destruct (findExistingMatch_Some _ _ _ _ _ _ Hfound) as (Hstored & Hwaiting & _).
  unfold run. rewrite startMatching_run.
  pose proof (findExistingMatch_frame userGender preferredGender isPremium
                callType w) as (_ & Htickets & Hcalls & Hl & Hn & Herr & Hid & Hclock).
  destruct (findExistingMatch _ _ _ _ w) as [r w1]. simpl in *. subst r.
  pose proof (joinMatch_run (id existingMatch) userId w1) as (Hl' & Hjoin).
  simpl in Hjoin. rewrite Herr, Hn, Hadd, Hupdate in Hjoin.
  destruct (joinMatch _ _ w1) as [r w2]. simpl in *.
  destruct Hjoin as (Hcalls' & -> & Htickets'). simpl.
  by rewrite Hcalls', Htickets', Hid, Hclock, Hcalls, Htickets.
Qed.

(** [cancelMatching], by cases on whether the deletion is rejected. *)
Lemma cancelMatching_run matchingRequestId w :
  cancelMatching matchingRequestId w
  = match sdk_error w (sdk_calls w) with
    | None =>
        (Ok tt,
         set_matchingUnsubscribe None
           (set_matchingRequests (delete matchingRequestId)
              (set_sdk_calls (S (sdk_calls w)) w)))
    | Some e =>
        (Ok tt,
         set_console (λ c, c ++ ["Failed to cancel matching: " +:+ e])
           (set_sdk_calls (S (sdk_calls w)) w))
    end.
Proof.
  unfold cancelMatching, deleteDoc_matchingRequests, console_error, sdk,
    try_catch, bind, modify. simpl.
  by destruct (sdk_error w (sdk_calls w)).
Qed.

(** X14. [cancelMatching] never throws and touches no other ticket and no
    call.  When the deletion goes through, the ticket is gone (also if it
    was never there) and the service listens on nothing any more, whichever
    ticket it listened on; when the deletion is rejected, the error is
    logged, the ticket stays and the listener stays registered. *)
Theorem cancelMatching_outcome matchingRequestId w :
  let run := cancelMatching matchingRequestId w in
  run.1 = Ok tt
  ∧ calls run.2 = calls w
  ∧ (∀ j, j ≠ matchingRequestId →
          matchingRequests run.2 !! j = matchingRequests w !! j)
  ∧ match sdk_error w (sdk_calls w) with
    | None =>
        matchingRequests run.2 !! matchingRequestId = None
        ∧ matchingUnsubscribe run.2 = None
    | Some e =>
        matchingRequests run.2 = matchingRequests w
        ∧ matchingUnsubscribe run.2 = matchingUnsubscribe w
        ∧ console run.2 = console w ++ ["Failed to cancel matching: " +:+ e]
    end.
Proof.
  intros run. unfold run. rewrite cancelMatching_run.
  destruct (sdk_error w (sdk_calls w)); simpl; [done|].
  repeat split; [|apply lookup_delete_eq].
  intros j Hne. by apply lookup_delete_ne.
Qed.


(** X16. A ticket is joined once: after [startMatching] has joined a
    ticket, no later search, by whatever user and for whatever call type,
    returns that ticket. *)
Theorem joined_ticket_not_found_again userId userGender preferredGender
    isPremium callType w existingMatch :
  sdk_error w (sdk_calls w) = None →
  sdk_error w (S (sdk_calls w)) = None →
  sdk_error w (S (S (sdk_calls w))) = None →
  first_compatible (run_query (matchQuery callType) (matchingRequests w))
    userGender preferredGender isPremium = Some existingMatch →
  let joined :=
    (startMatching userId userGender preferredGender isPremium callType w).2 in
  ∀ userGender' preferredGender' isPremium' callType' r,
    (findExistingMatch userGender' preferredGender' isPremium' callType' joined).1
    = Ok (Some r) →
    id r ≠ id existingMatch.
Proof.
  intros Hquery Hadd Hupdate Hfound joined g' p' prem' ct' r Hagain Hid.
  destruct (startMatching_join userId _ _ _ _ _ _ Hquery Hadd Hupdate Hfound)
    as (_ & _ & Htickets).
  destruct (findExistingMatch_Some _ _ _ _ _ _ Hagain) as (Hstored & Hwaiting & _).
  fold joined in Htickets.
  rewrite Htickets, Hid, lookup_insert_eq in Hstored.
  injection Hstored as Hdata. by rewrite <- Hdata in Hwaiting.
Qed.

(** X17. [startMatching] does not look at who holds a ticket: when the
    first compatible candidate is the user's own waiting ticket, the user
    is joined to it, so the ticket ends up 'matched' with its own holder. *)
Theorem startMatching_joins_own_ticket userId userGender preferredGender
    isPremium callType w existingMatch :
  sdk_error w (sdk_calls w) = None →
  sdk_error w (S (sdk_calls w)) = None →
  sdk_error w (S (S (sdk_calls w))) = None →
  first_compatible (run_query (matchQuery callType) (matchingRequests w))
    userGender preferredGender isPremium = Some existingMatch →
  CallMatching.userId (data existingMatch) = userId →
  let joined :=
    (startMatching userId userGender preferredGender isPremium callType w).2 in
  ∃ d, matchingRequests joined !! id existingMatch = Some d
       ∧ status d = matched
       ∧ matchedWith d = Some (CallMatching.userId d).
Proof.
  intros Hquery Hadd Hupdate Hfound Hown joined.
  destruct (startMatching_join userId _ _ _ _ _ _ Hquery Hadd Hupdate Hfound)
    as (_ & _ & Htickets).
  fold joined in Htickets. eexists. rewrite Htickets, lookup_insert_eq.
  split; [done|]. simpl. by rewrite Hown.
Qed.

(** X18. The waiting side learns the call.  When a ticket the service
    listens on is joined (by a user with a non-empty id, under a non-empty
    generated call id), the listener reports the id of the call that the
    join created together with the joiner's id, and stops listening; while
    the ticket is still 'waiting' it reports nothing. *)
Theorem onMatchSnapshot_after_join matchingRequestId joiner w d :
  matchingUnsubscribe w = Some matchingRequestId →
  matchingRequests w !! matchingRequestId = Some d →
  status d = waiting →
  sdk_error w (sdk_calls w) = None →
  sdk_error w (S (sdk_calls w)) = None →
  joiner ≠ "" → autoId w (sdk_calls w) ≠ "" →
  let joined := (joinMatch matchingRequestId joiner w).2 in
  onMatchSnapshot w = (Ok None, w)
  ∧ (onMatchSnapshot joined).1 = Ok (Some (autoId w (sdk_calls w), joiner))
  ∧ calls joined !! autoId w (sdk_calls w)
    = Some (joined_call joiner (clock w))
  ∧ matchingUnsubscribe (onMatchSnapshot joined).2 = None.
Proof.
  intros Hlisten Hstored Hwaiting Hadd Hupdate Hjoiner Hcall joined.
  split.
  { unfold onMatchSnapshot, bind, gets. rewrite Hlisten, Hstored, Hwaiting. done. }
  unfold joined. rewrite (joinMatch_Ok _ _ _ d) by done. simpl.
  unfold onMatchSnapshot, bind, gets, modify, ret. simpl.
  rewrite Hlisten. simpl. rewrite !lookup_insert_eq. simpl.
  by rewrite !bool_decide_eq_false_2.
Qed.

Lemma Promise_all_deletePromises_env docs w :
  let w' := (Promise_all (deletePromises docs) w).2 in
  clock w' = clock w ∧ calls w' = calls w
  ∧ matchingUnsubscribe w' = matchingUnsubscribe w.
Proof.
  revert w. induction docs as [|doc docs IH]; intros w; simpl; [done|].
  rewrite deleteDoc_matchingRequests_run.
  destruct (sdk_error w (sdk_calls w)).
  - specialize (IH (set_sdk_calls (S (sdk_calls w)) w)).
    by destruct (Promise_all _ _).
  - specialize (IH (set_matchingRequests (delete (id doc))
                      (set_sdk_calls (S (sdk_calls w)) w))).
    by destruct (Promise_all _ _).
Qed.

(** [cleanupOldRequests] swallows every rejection and leaves calls,
    listener and environment alone. *)
Lemma cleanupOldRequests_env w :
  let run := cleanupOldRequests w in
  run.1 = Ok tt
  ∧ calls run.2 = calls w
  ∧ matchingUnsubscribe run.2 = matchingUnsubscribe w
  ∧ clock run.2 = clock w
  ∧ sdk_error run.2 = sdk_error w.
Proof.
  unfold cleanupOldRequests, getDocs, console_error, sdk, try_catch, bind,
    gets, ret, modify. simpl.
  destruct (sdk_error w (sdk_calls w)); simpl; [done|].
  set (docs := run_query _ _). set (w1 := set_sdk_calls _ w).
  pose proof (Promise_all_deletePromises_env docs w1) as (? & ? & ?).
  pose proof (Promise_all_deletePromises_frame docs w1) as (? & _).
  by destruct (Promise_all _ _) as [[[]|e] w''].
Qed.

(** X19. [cleanupOldRequests] never throws and never touches a call or the
    listener; and when the SDK rejects nothing, a second cleanup at the
    same time finds nothing left to delete. *)
Theorem cleanupOldRequests_again w :
  let once := cleanupOldRequests w in
  once.1 = Ok tt
  ∧ calls once.2 = calls w
  ∧ matchingUnsubscribe once.2 = matchingUnsubscribe w
  ∧ ((∀ n, sdk_error w n = None) →
     matchingRequests (cleanupOldRequests once.2).2 = matchingRequests once.2).
Proof.
  intros once.
  pose proof (cleanupOldRequests_env w) as (Hok & Hcalls & Hl & Hclock & Herr).
  fold once in Hok, Hcalls, Hl, Hclock, Herr.
  split; [done|]. split; [done|]. split; [done|].
  intros Hnone.
  rewrite cleanupOldRequests_matchingRequests, Herr, Hnone, Hclock.
  assert (Hempty : run_query (oldRequestsQuery (clock w)) (matchingRequests once.2)
                   = []).
  { apply elem_of_nil_inv. intros r Hin.
    assert (Hid : id r ∈ id <$> run_query (oldRequestsQuery (clock w))
                                  (matchingRequests once.2))
      by by apply list_elem_of_fmap_2.
    apply elem_of_oldRequests in Hid as (d & Hstored & Hstale).
    unfold once in Hstored.
    rewrite cleanupOldRequests_matchingRequests, Hnone in Hstored.
    set (docs := run_query (oldRequestsQuery (clock w)) (matchingRequests w)) in *.
    set (w1 := set_sdk_calls (S (sdk_calls w)) w) in *.
    pose proof (Promise_all_deletePromises_frame docs w1) as (_ & _ & _ & Hsub).
    destruct (Promise_all_deletePromises_Ok docs w1 Hnone) as [_ Hgone].
    rewrite Hgone in Hstored; [done|].
    apply elem_of_oldRequests. exists d. split; [|done].
    by apply Hsub. }
  by rewrite Hempty.
Qed.

End MatchingServiceProperties.

Section MatchingServiceWitnesses.

Import CallMatching.

Local Abbreviation bob :=
  (ticket_of "t2" "bob" male anyone false voice (sample_now - 60000)).
Local Abbreviation chloe :=
  (ticket_of "t3" "chloe" female anyone false video (sample_now - 420000)).

Lemma startMatching_waits_witness :
  (startMatching "erin" female women true voice sample_client).1 = Ok "auto1".
Proof.
  apply (startMatching_waits "erin" female women true voice sample_client).
  - by vm_compute.
  - reflexivity.
Defined.

Lemma startMatching_search_rejected_witness :
  (startMatching "carol" female anyone false voice
     (rejecting 0 "unavailable" sample_client)).1 = Ok "auto1".
Proof.
  apply (startMatching_search_rejected "carol" female anyone false voice
           (rejecting 0 "unavailable" sample_client) "unavailable");
    reflexivity.
Defined.

Lemma startMatching_addDoc_rejected_witness :
  (startMatching "carol" female anyone false voice
     (rejecting 1 "unavailable" sample_client)).1
  = Throw "Failed to start matching: Failed to join match: unavailable"
  ∧ (startMatching "erin" female women true voice
       (rejecting 1 "unavailable" sample_client)).1
    = Throw "Failed to start matching: unavailable".
Proof.
  split.
  - apply (startMatching_addDoc_rejected "carol" female anyone false voice
             (rejecting 1 "unavailable" sample_client) (Some bob) "unavailable").
    + by vm_compute.
    + reflexivity.
  - apply (startMatching_addDoc_rejected "erin" female women true voice
             (rejecting 1 "unavailable" sample_client) None "unavailable").
    + by vm_compute.
    + reflexivity.
Defined.

Lemma startMatching_join_update_rejected_witness :
  let run := startMatching "carol" female anyone false voice
               (rejecting 2 "unavailable" sample_client) in
  run.1 = Throw "Failed to start matching: Failed to join match: unavailable"
  ∧ calls run.2 = {[ "auto1" := joined_call "carol" sample_now ]}
  ∧ matchingRequests run.2 !! "t2" = Some (data bob).
Proof.
  intros run.
  destruct (startMatching_join_update_rejected "carol" female anyone false voice
              (rejecting 2 "unavailable" sample_client) bob "unavailable")
    as (Hresult & Hcalls & _ & Hticket & _).
  - by vm_compute.
  - reflexivity.
  - reflexivity.
  - fold run in Hresult, Hcalls, Hticket. by rewrite Hcalls.
Defined.

Lemma cancelMatching_outcome_witness :
  let run := cancelMatching "t2" sample_client in
  matchingRequests run.2 !! "t1" = sample_tickets !! "t1"
  ∧ matchingRequests run.2 !! "t2" = None.
Proof.
  intros run.
  destruct (cancelMatching_outcome "t2" sample_client) as (_ & _ & Hother & Hgone).
  split.
  - apply Hother. discriminate.
  - apply Hgone.
Defined.


Lemma joined_ticket_not_found_again_witness :
  let joined := (startMatching "carol" female anyone false voice sample_client).2 in
  (findExistingMatch male anyone false voice joined).1
  = Ok (Some (ticket_of "t1" "alice" female men true voice (sample_now - 360000)))
  ∧ "t1" ≠ "t2".
Proof.
  intros joined.
  assert (Hagain : (findExistingMatch male anyone false voice joined).1
    = Ok (Some (ticket_of "t1" "alice" female men true voice
                  (sample_now - 360000)))) by by vm_compute.
  split; [exact Hagain|].
  apply (joined_ticket_not_found_again "carol" female anyone false voice
           sample_client bob eq_refl eq_refl eq_refl)
    with (r := ticket_of "t1" "alice" female men true voice (sample_now - 360000))
         (userGender' := male) (preferredGender' := anyone) (isPremium' := false)
         (callType' := voice).
  - by vm_compute.
  - exact Hagain.
Defined.

Lemma startMatching_joins_own_ticket_witness :
  ∃ d, matchingRequests
         (startMatching "chloe" female anyone false video sample_client).2
         !! "t3" = Some d
       ∧ status d = matched
       ∧ matchedWith d = Some (userId d).
Proof.
  apply (startMatching_joins_own_ticket "chloe" female anyone false video
           sample_client chloe eq_refl eq_refl eq_refl).
  - by vm_compute.
  - reflexivity.
Defined.

Lemma onMatchSnapshot_after_join_witness :
  let w := set_matchingUnsubscribe (Some "t2") sample_client in
  (onMatchSnapshot (joinMatch "t2" "carol" w).2).1 = Ok (Some ("auto0", "carol")).
Proof.
  intros w.
  apply (onMatchSnapshot_after_join "t2" "carol" w (data bob)).
  - reflexivity.
  - by vm_compute.
  - reflexivity.
  - reflexivity.
  - reflexivity.
  - discriminate.
  - by vm_compute.
Defined.

Lemma cleanupOldRequests_again_witness :
  let once := (cleanupOldRequests sample_client).2 in
  matchingRequests (cleanupOldRequests once).2 = matchingRequests once.
Proof.
  intros once.
  apply (cleanupOldRequests_again sample_client). intros n. reflexivity.
Defined.

End MatchingServiceWitnesses.

(** * Properties of the WebRTC service *)

Section WebRTCProperties.

Import WebRTC.

(** Writing back what is there changes nothing. *)
Lemma set_tracks_id w : set_tracks (tracks w) w = w.
Proof. by destruct w. Qed.

Lemma first_track_toggle k stream_ ts i t :
  ts !! i = Some t →
  first_track k stream_ (<[i := toggle_enabled t]> ts) = first_track k stream_ ts.
Proof.
  intros Hi. unfold first_track. f_equal. apply List.filter_ext. intros j.
  destruct (decide (i = j)) as [<-|Hne].
  - rewrite list_lookup_insert_eq by by eapply lookup_lt_Some. by rewrite Hi.
  - by rewrite list_lookup_insert_ne.
Qed.

(** [toggleAudio] and [toggleVideo], by cases. *)
Lemma toggleTrack_run k w :
  toggleTrack k w
  = match localStream w with
    | Some stream_ =>
        match first_track k stream_ (tracks w) with
        | Some i =>
            match tracks w !! i with
            | Some track =>
                (Ok (negb (enabled track)),
                 set_tracks (<[i := toggle_enabled track]> (tracks w)) w)
            | None => (Ok false, w)
            end
        | None => (Ok false, w)
        end
    | None => (Ok false, w)
    end.
Proof.
  unfold toggleTrack, bind, gets, modify, ret.
  destruct (localStream w) as [stream_|]; [|done].
  destruct (first_track k stream_ (tracks w)) as [i|]; [|done].
  by destruct (tracks w !! i).
Qed.

(** X20. Toggling a track twice.  [toggleAudio] (and likewise
    [toggleVideo]) called twice leaves the service and every track exactly
    as they were; when the stream has a track of that kind, the two calls
    return the new state of the track each time, so the second returns what
    was there before the first; tracks of the other kind are never
    touched. *)
Theorem toggleTrack_twice k w :
  let once := toggleTrack k w in
  let twice := toggleTrack k once.2 in
  twice.2 = w
  ∧ (∀ j t, tracks w !! j = Some t → kind t ≠ k → tracks once.2 !! j = Some t)
  ∧ (∀ stream_ i t,
       localStream w = Some stream_ →
       first_track k stream_ (tracks w) = Some i →
       tracks w !! i = Some t →
       once.1 = Ok (negb (enabled t)) ∧ twice.1 = Ok (enabled t)
       ∧ kind t = k).
Proof.
  intros once twice. unfold twice, once. rewrite !toggleTrack_run.
  destruct (localStream w) as [stream_|] eqn:Hlocal; simpl;
    [|by rewrite Hlocal].
  destruct (first_track k stream_ (tracks w)) as [i|] eqn:Hfirst; simpl.
  2:{ rewrite Hlocal, Hfirst. split; [done|]. split; [done|].
      intros stream' i' t' [= <-] Hfirst' _. congruence. }
  destruct (tracks w !! i) as [t|] eqn:Hi; simpl.
  2:{ rewrite Hlocal, Hfirst, Hi. split; [done|]. split; [done|].
      intros stream' i' t' [= <-] Hfirst' Hi'. congruence. }
  rewrite Hlocal, first_track_toggle, Hfirst by done.
  rewrite list_lookup_insert_eq by by eapply lookup_lt_Some. simpl.
  assert (Hkind : kind t = k).
  { unfold first_track in Hfirst.
    destruct (List.filter _ stream_) as [|i' l] eqn:Hfilter; [done|].
    injection Hfirst as ->.
    assert (Hin : In i (List.filter
                          (λ i, bool_decide (kind <$> tracks w !! i = Some k))
                          stream_)) by (rewrite Hfilter; by left).
    apply filter_In in Hin as [_ Hk]. apply bool_decide_eq_true in Hk.
    rewrite Hi in Hk. by injection Hk. }
  split; [|split].
  - rewrite list_insert_insert_eq.
    assert (toggle_enabled (toggle_enabled t) = t) as ->
      by (destruct t; unfold toggle_enabled; simpl; by rewrite negb_involutive).
    rewrite list_insert_id by done. by destruct w.
  - intros j t' Hj Hother.
    destruct (decide (i = j)) as [<-|Hne]; [congruence|].
    by rewrite list_lookup_insert_ne.
  - intros stream' i' t' [= <-] Hfirst' Hi'.
    rewrite Hfirst in Hfirst'. injection Hfirst' as <-.
    rewrite Hi in Hi'. injection Hi' as <-.
    by rewrite negb_involutive.
Qed.

(** X21. The stream of a voice call has no video track: after
    [initializeMedia('voice')], [toggleVideo] returns false and changes
    nothing, while [toggleAudio] switches the audio track off and returns
    false, the new state. *)
Theorem initializeMedia_voice_toggles w :
  media_error w = None →
  let ready := (initializeMedia CallMatching.voice w).2 in
  toggleVideo ready = (Ok false, ready)
  ∧ (toggleAudio ready).1 = Ok false
  ∧ tracks (toggleAudio ready).2
    = tracks w ++ [{| kind := audio; enabled := false; stopped := false |}].
Proof.
  intros Hmedia ready. unfold ready, toggleVideo, toggleAudio.
  rewrite !toggleTrack_run.
  unfold initializeMedia, getUserMedia, try_catch, bind, modify, ret.
  rewrite Hmedia. simpl.
  unfold first_track. simpl.
  rewrite !list_lookup_middle by done. simpl.
  rewrite !list_lookup_middle by done. simpl.
  split; [done|]. split; [done|].
  rewrite insert_app_r_alt, Nat.sub_diag by done. done.
Qed.

(** [sendSignal], by cases. *)
Lemma sendSignal_run signalData w :
  sendSignal signalData w
  = if js_falsy (callId w) then (Ok tt, w) else
    match sdk_error w (sdk_calls w) with
    | Some e =>
        (Ok tt,
         set_console (console w ++ ["Failed to send signal: " +:+ e])
           (set_sdk_calls (S (sdk_calls w)) w))
    | None =>
        (Ok tt,
         set_signals
           (<[autoId w (sdk_calls w) :=
                {| Signal.type := js_or (payload_type signalData) "signal";
                   Signal.data := signalData;
                   Signal.from := userId w;
                   Signal.to := if isInitiator w then "receiver" else "caller";
                   Signal.callId := default "" (callId w);
                   Signal.timestamp := clock w |}]> (signals w))
           (set_sdk_calls (S (sdk_calls w)) w))
    end.
Proof.
  unfold sendSignal, addDoc_signals, console_error, sdk, try_catch.
  unfold bind at 1. unfold gets at 1.
  destruct (js_falsy (callId w)); [done|].
  unfold bind, gets, modify, ret. simpl.
  by destruct (sdk_error w (sdk_calls w)).
Qed.

(** [listenForSignals] on a service that is in a call. *)
Lemma listenForSignals_run w c :
  callId w = Some c → c ≠ "" →
  listenForSignals w
  = (Ok tt,
     set_signalUnsubscribe
       (Some {| q_callId := c;
                q_to := if isInitiator w then "caller" else "receiver" |}) w).
Proof.
  intros Hcall Hne. unfold listenForSignals, bind, gets, modify.
  rewrite Hcall. simpl. by rewrite bool_decide_eq_false_2.
Qed.

(** X22. Signals reach the other side only.  [sendSignal] never throws:
    outside a call it does nothing, and when [addDoc] is rejected it only
    writes 'Failed to send signal: ...' to the console, the signal being
    lost.  In a call, when [addDoc] goes through, it stores one document
    that names the sender and the call, carries the signal, and has the
    signal's type or 'signal' as its type; that document is in the result
    of the query the other side of the call listens on, and not in the
    result of the sender's own. *)
Theorem sendSignal_routing signalData w :
  let run := sendSignal signalData w in
  run.1 = Ok tt
  ∧ (js_falsy (callId w) = true → run.2 = w)
  ∧ (∀ e, js_falsy (callId w) = false →
          sdk_error w (sdk_calls w) = Some e →
          signals run.2 = signals w
          ∧ console run.2 = console w ++ ["Failed to send signal: " +:+ e])
  ∧ (∀ c, callId w = Some c → c ≠ "" →
          sdk_error w (sdk_calls w) = None →
          ∃ d,
            signals run.2 = <[autoId w (sdk_calls w) := d]> (signals w)
            ∧ Signal.from d = userId w
            ∧ Signal.callId d = c
            ∧ Signal.data d = signalData
            ∧ Signal.type d = js_or (payload_type signalData) "signal"
            ∧ (∀ other, callId other = Some c →
                        isInitiator other = negb (isInitiator w) →
                        ∃ q, signalUnsubscribe (listenForSignals other).2 = Some q
                             ∧ in_query q d = true)
            ∧ (∀ q, signalUnsubscribe (listenForSignals w).2 = Some q →
                    in_query q d = false)).
Proof.
  intros run. unfold run. rewrite sendSignal_run. split_and!.
  - destruct (js_falsy (callId w)); [done|].
    by destruct (sdk_error w (sdk_calls w)).
  - by intros ->.
  - intros e -> ->. done.
  - intros c Hcall Hne Hok. rewrite Hcall, Hok.
    simpl. rewrite bool_decide_eq_false_2 by done.
    eexists. split; [done|]. simpl. repeat split.
    + intros other Hother Hrole.
      rewrite (listenForSignals_run other c) by done. eexists. split; [done|].
      unfold in_query. simpl. rewrite Hrole, String.eqb_refl.
      by destruct (isInitiator w).
    + intros q. rewrite (listenForSignals_run w c) by done. intros [= <-].
      unfold in_query. simpl. rewrite String.eqb_refl.
      by destruct (isInitiator w).
Qed.

(** The listener on one change. *)
Lemma onSignalChange_run change w :
  onSignalChange change w
  = match peer w with
    | Some p =>
        if bool_decide (change_type change = added)
           && negb (String.eqb (Signal.from (doc_data change)) (userId w))
        then
          if destroyed p
          then (Throw "cannot signal after peer is destroyed", w) else
          let w1 := set_peer (Some (signalled_more p [Signal.data (doc_data change)])) w in
          match sdk_error w (sdk_calls w) with
          | Some e =>
              (Ok tt,
               set_console (console w ++ [e]) (set_sdk_calls (S (sdk_calls w)) w1))
          | None =>
              (Ok tt,
               set_signals (delete (doc_id change) (signals w))
                 (set_sdk_calls (S (sdk_calls w)) w1))
          end
        else (Ok tt, w)
    | None => (Ok tt, w)
    end.
Proof.
  unfold onSignalChange, signal, deleteDoc_signals, console_error, sdk,
    try_catch, bind, gets, modify, ret, throw. simpl.
  destruct (bool_decide (change_type change = added)); simpl;
    [|by destruct (peer w)].
  destruct (peer w) as [p|]; [|done].
  destruct (negb _); simpl; [|done].
  destruct (destroyed p); [done|].
  by destruct (sdk_error w (sdk_calls w)).
Qed.

Lemma onSignalsSnapshot_cons change docChanges w :
  onSignalsSnapshot (change :: docChanges) w
  = match onSignalChange change w with
    | (Ok _, w') => onSignalsSnapshot docChanges w'
    | (Throw e, w') => (Throw e, w')
    end.
Proof. reflexivity. Qed.

Lemma signalled_more_cons p data_ datas :
  signalled_more (signalled_more p [data_]) datas
  = signalled_more p (data_ :: datas).
Proof. unfold signalled_more. simpl. by rewrite <- app_assoc. Qed.

(** The listener of a service without a peer. *)
Lemma onSignalsSnapshot_no_peer docChanges w :
  peer w = None → onSignalsSnapshot docChanges w = (Ok tt, w).
Proof.
  intros Hpeer. induction docChanges as [|change docChanges IH]; [done|].
  by rewrite onSignalsSnapshot_cons, onSignalChange_run, Hpeer.
Qed.

(** The listener of a service whose peer has been destroyed. *)
Lemma onSignalsSnapshot_destroyed docChanges w p :
  peer w = Some p → destroyed p = true →
  onSignalsSnapshot docChanges w
  = match handled (userId w) docChanges with
    | [] => (Ok tt, w)
    | _ :: _ => (Throw "cannot signal after peer is destroyed", w)
    end.
Proof.
  intros Hpeer Hdestroyed.
  induction docChanges as [|change docChanges IH]; [done|].
  rewrite onSignalsSnapshot_cons, onSignalChange_run, Hpeer, Hdestroyed.
  unfold handled. simpl. fold (handled (userId w) docChanges).
  by destruct (_ && _).
Qed.

(** The listener of a service whose peer has not been destroyed. *)
Lemma onSignalsSnapshot_live docChanges w p :
  peer w = Some p → destroyed p = false →
  let run := onSignalsSnapshot docChanges w in
  let taken := handled (userId w) docChanges in
  run.1 = Ok tt
  ∧ peer run.2
    = Some (signalled_more p ((λ c, Signal.data (doc_data c)) <$> taken))
  ∧ (∀ j, j ∉ doc_id <$> taken → signals run.2 !! j = signals w !! j)
  ∧ (∀ j d, signals run.2 !! j = Some d → signals w !! j = Some d)
  ∧ ((∀ n, sdk_error w n = None) →
     ∀ j, j ∈ doc_id <$> taken → signals run.2 !! j = None).
Proof.
  revert w p. induction docChanges as [|change docChanges IH];
    intros w p Hpeer Hlive.
  { simpl. split_and!; try done.
    - rewrite Hpeer. f_equal. destruct p. unfold signalled_more. simpl.
      by rewrite app_nil_r.
    - intros _ j Hj. by apply elem_of_nil in Hj. }
  cbv zeta. rewrite onSignalsSnapshot_cons, onSignalChange_run, Hpeer, Hlive.
  unfold handled. simpl. fold (handled (userId w) docChanges).
  destruct (bool_decide (change_type change = added)
            && negb (String.eqb (Signal.from (doc_data change)) (userId w)))
    eqn:Htake.
  2:{ exact (IH w p Hpeer Hlive). }
  set (p1 := signalled_more p [Signal.data (doc_data change)]).
  destruct (sdk_error w (sdk_calls w)) as [e|] eqn:Hsdk.
  - cbv zeta. set (w1 := set_console _ _).
    destruct (IH w1 p1 eq_refl Hlive) as (Hok & Hp & Hframe & Hsub & _).
    simpl. rewrite <- signalled_more_cons. split_and!; try done.
    + intros j Hj. apply not_elem_of_cons in Hj as [_ Hj]. by apply Hframe.
    + intros Hnone. by rewrite Hnone in Hsdk.
  - cbv zeta. set (w1 := set_signals _ _).
    destruct (IH w1 p1 eq_refl Hlive) as (Hok & Hp & Hframe & Hsub & Hgone).
    simpl. rewrite <- signalled_more_cons. split_and!; try done.
    + intros j Hj. apply not_elem_of_cons in Hj as [Hne Hj].
      rewrite Hframe by done. by apply lookup_delete_ne.
    + intros j d Hj. apply Hsub in Hj. unfold w1 in Hj. simpl in Hj.
      by apply lookup_delete_Some in Hj as [_ ?].
    + intros Hnone j Hj. apply elem_of_cons in Hj as [->|Hj].
      * destruct (decide (doc_id change ∈ doc_id <$> handled (userId w) docChanges))
          as [Hin|Hout]; [by apply Hgone|].
        rewrite Hframe by done. apply lookup_delete_eq.
      * by apply Hgone.
Qed.

(** X23. What the signal listener consumes.  Without a peer it does
    nothing at all, so the signals stay stored.  With a peer that has not
    been destroyed it never throws; it hands to the peer, in order, exactly
    the signals of the changes that are additions and were not written by
    this user, and when no deletion is rejected it deletes all of those.
    With a peer that has been destroyed (the service keeps such a peer: its
    'close' and 'error' handlers do not clear it) the first such change
    makes the listener throw the library's 'cannot signal after peer is
    destroyed'; nothing is handed over or deleted, and the later changes
    of the snapshot are not looked at.  In every case no document other
    than those of such changes is deleted (so never a signal of the
    service's own user). *)
Theorem onSignalsSnapshot_consumes docChanges w :
  let run := onSignalsSnapshot docChanges w in
  let taken := handled (userId w) docChanges in
  (peer w = None → run = (Ok tt, w))
  ∧ (∀ p, peer w = Some p → destroyed p = false →
          run.1 = Ok tt
          ∧ peer run.2
            = Some (signalled_more p ((λ c, Signal.data (doc_data c)) <$> taken))
          ∧ ((∀ n, sdk_error w n = None) →
             ∀ j, j ∈ doc_id <$> taken → signals run.2 !! j = None))
  ∧ (∀ p, peer w = Some p → destroyed p = true →
          run = match taken with
                | [] => (Ok tt, w)
                | _ :: _ => (Throw "cannot signal after peer is destroyed", w)
                end)
  ∧ (∀ j, j ∉ doc_id <$> taken → signals run.2 !! j = signals w !! j).
Proof.
  intros run taken. split_and!.
  - apply onSignalsSnapshot_no_peer.
  - intros p Hpeer Hlive.
    destruct (onSignalsSnapshot_live docChanges w p Hpeer Hlive)
      as (? & ? & _ & _ & ?). done.
  - intros p Hpeer Hdestroyed. by apply (onSignalsSnapshot_destroyed _ _ p).
  - intros j Hj. destruct (peer w) as [p|] eqn:Hpeer.
    + destruct (destroyed p) eqn:Hdestroyed.
      * unfold run. rewrite (onSignalsSnapshot_destroyed _ _ p) by done.
        by destruct (handled _ _).
      * destruct (onSignalsSnapshot_live docChanges w p Hpeer Hdestroyed)
          as (_ & _ & Hframe & _). by apply Hframe.
    + unfold run. by rewrite onSignalsSnapshot_no_peer.
Qed.

(** X24. Creating a call.  When [addDoc] goes through, [createCall] stores
    a call document with the user as caller and status 'waiting', and
    makes it the service's call with the service as initiator.  With a
    local stream it then creates an initiating peer on that stream,
    listens for signals addressed to the caller and returns the id.
    Without a local stream it throws 'Failed to create call: Local stream
    not initialized', and the call document it has stored stays. *)
Theorem createCall_outcome callType w :
  sdk_error w (sdk_calls w) = None →
  autoId w (sdk_calls w) ≠ "" →
  let callDoc := autoId w (sdk_calls w) in
  let run := createCall callType w in
  calls run.2 = <[callDoc := created_call (userId w) (clock w) callType]> (calls w)
  ∧ callId run.2 = Some callDoc
  ∧ isInitiator run.2 = true
  ∧ match localStream w with
    | Some stream_ =>
        run.1 = Ok callDoc
        ∧ peer run.2 = Some (new_peer true stream_)
        ∧ signalUnsubscribe run.2
          = Some {| q_callId := callDoc; q_to := "caller" |}
    | None =>
        run.1 = Throw "Failed to create call: Local stream not initialized"
        ∧ peer run.2 = peer w
        ∧ signalUnsubscribe run.2 = signalUnsubscribe w
    end.
Proof.
  intros Hok Hid callDoc run. unfold run, createCall, addDoc_calls,
    initializePeer, listenForSignals, sdk, try_catch, bind, gets, modify,
    ret, throw. simpl. rewrite Hok. simpl.
  destruct (localStream w); simpl; [|done].
  by rewrite bool_decide_eq_false_2.
Qed.

(** X25. Joining a call.  When the update goes through for a stored call,
    [joinCall] marks the call 'connecting' with the user as receiver and
    keeps its other fields, and makes it the service's call with the
    service not the initiator.  With a local stream it then creates a
    non-initiating peer and listens for signals addressed to the receiver.
    Without one it throws 'Failed to join call: Local stream not
    initialized', after the call has been marked. *)
Theorem joinCall_outcome callId_ w d :
  calls w !! callId_ = Some d →
  sdk_error w (sdk_calls w) = None →
  callId_ ≠ "" →
  let run := joinCall callId_ w in
  calls run.2 = <[callId_ := receiver_fields (userId w) d]> (calls w)
  ∧ CallMatching.Call.callerId (receiver_fields (userId w) d)
    = CallMatching.Call.callerId d
  ∧ callId run.2 = Some callId_
  ∧ isInitiator run.2 = false
  ∧ match localStream w with
    | Some stream_ =>
        run.1 = Ok tt
        ∧ peer run.2 = Some (new_peer false stream_)
        ∧ signalUnsubscribe run.2
          = Some {| q_callId := callId_; q_to := "receiver" |}
    | None =>
        run.1 = Throw "Failed to join call: Local stream not initialized"
        ∧ peer run.2 = peer w
        ∧ signalUnsubscribe run.2 = signalUnsubscribe w
    end.
Proof.
  intros Hstored Hok Hid run. unfold run, joinCall, updateDoc_calls,
    initializePeer, listenForSignals, sdk, try_catch, bind, gets, modify,
    ret, throw. simpl. rewrite Hok. simpl. rewrite Hstored. simpl.
  destruct (localStream w); simpl; [|done].
  by rewrite bool_decide_eq_false_2.
Qed.

(** X26. Joining a call that cannot be updated.  When the call document
    does not exist or the update is rejected, [joinCall] throws 'Failed to
    join call: ...' and stores nothing, but the service has already taken
    the id as its call: [callId] is set and [isInitiator] is false. *)
Theorem joinCall_rejected callId_ w :
  calls w !! callId_ = None ∨ is_Some (sdk_error w (sdk_calls w)) →
  let run := joinCall callId_ w in
  (∃ e, run.1 = Throw ("Failed to join call: " +:+ e))
  ∧ calls run.2 = calls w
  ∧ signals run.2 = signals w
  ∧ callId run.2 = Some callId_
  ∧ isInitiator run.2 = false
  ∧ peer run.2 = peer w
  ∧ signalUnsubscribe run.2 = signalUnsubscribe w.
Proof.
  intros Hwhy run. unfold run, joinCall, updateDoc_calls,
    initializePeer, listenForSignals, sdk, try_catch, bind, gets, modify,
    ret, throw. simpl.
  destruct (sdk_error w (sdk_calls w)) as [e|] eqn:Hsdk; simpl; [eauto 10|].
  destruct Hwhy as [Hnone|[e He]]; [|done].
  rewrite Hnone. simpl. eauto 10.
Qed.

(** [updateCallStatus], by cases. *)
Lemma updateCallStatus_run status_ w :
  let c := default "" (callId w) in
  updateCallStatus status_ w
  = if js_falsy (callId w) then (Ok tt, w) else
    match sdk_error w (sdk_calls w), calls w !! c with
    | None, Some d =>
        (Ok tt,
         set_calls (<[c := status_fields status_ (clock w) d]> (calls w))
           (set_sdk_calls (S (sdk_calls w)) w))
    | Some e, _ =>
        (Ok tt,
         set_console (console w ++ ["Failed to update call status: " +:+ e])
           (set_sdk_calls (S (sdk_calls w)) w))
    | None, None =>
        (Ok tt,
         set_console
           (console w ++ ["Failed to update call status: "
                          +:+ ("No document to update: calls/" +:+ c)])
           (set_sdk_calls (S (sdk_calls w)) w))
    end.
Proof.
  intros c. unfold updateCallStatus, updateDoc_calls, console_error, sdk,
    try_catch. unfold bind at 1. unfold gets at 1. fold c.
  destruct (js_falsy (callId w)); [done|].
  unfold bind, gets, modify, throw. simpl.
  destruct (sdk_error w (sdk_calls w)); [done|]. simpl.
  by destruct (calls w !! c).
Qed.

Lemma updateCallStatus_frame status_ w :
  let run := updateCallStatus status_ w in
  run.1 = Ok tt
  ∧ instance run.2 = instance w
  ∧ surroundings run.2 = surroundings w
  ∧ signals run.2 = signals w
  ∧ (∀ i, i ≠ default "" (callId w) → calls run.2 !! i = calls w !! i)
  ∧ (js_falsy (callId w) = true → run.2 = w).
Proof.
  intros run. unfold run. rewrite updateCallStatus_run.
  destruct (js_falsy (callId w)); [done|].
  destruct (sdk_error w (sdk_calls w)); [done|].
  destruct (calls w !! default "" (callId w)); [|done].
  simpl. repeat split; try done.
  intros i Hne. by apply lookup_insert_ne.
Qed.

(** One [deleteDoc] on [signals]. *)
Lemma deleteDoc_signals_run i w :
  deleteDoc_signals i w
  = match sdk_error w (sdk_calls w) with
    | Some e => (Throw e, set_sdk_calls (S (sdk_calls w)) w)
    | None => (Ok tt, set_signals (delete i (signals w))
                        (set_sdk_calls (S (sdk_calls w)) w))
    end.
Proof.
  unfold deleteDoc_signals, sdk, bind, modify.
  by destruct (sdk_error w (sdk_calls w)).
Qed.

Lemma Promise_all_deleteDoc_signals ids w :
  let w' := (CallMatching.Promise_all (List.map deleteDoc_signals ids) w).2 in
  instance w' = instance w
  ∧ surroundings w' = surroundings w
  ∧ calls w' = calls w
  ∧ (∀ j, j ∉ ids → signals w' !! j = signals w !! j)
  ∧ (∀ j d, signals w' !! j = Some d → signals w !! j = Some d)
  ∧ ((∀ n, sdk_error w n = None) → ∀ j, j ∈ ids → signals w' !! j = None).
Proof.
  revert w. induction ids as [|i ids IH]; intros w; simpl.
  { repeat split; try done. intros _ j Hj. by apply elem_of_nil in Hj. }
  rewrite deleteDoc_signals_run.
  destruct (sdk_error w (sdk_calls w)) as [e|] eqn:Hsdk.
  - specialize (IH (set_sdk_calls (S (sdk_calls w)) w)).
    destruct (CallMatching.Promise_all _ _) as [r w'']. simpl in *.
    destruct IH as (Hi & Hs & Hc & Hframe & Hsub & _).
    repeat split; try done.
    + intros j Hj. apply not_elem_of_cons in Hj as [_ Hj]. by apply Hframe.
    + intros Hnone. by rewrite Hnone in Hsdk.
  - specialize (IH (set_signals (delete i (signals w))
                      (set_sdk_calls (S (sdk_calls w)) w))).
    destruct (CallMatching.Promise_all _ _) as [r w'']. simpl in *.
    destruct IH as (Hi & Hs & Hc & Hframe & Hsub & Hgone).
    repeat split; try done.
    + intros j Hj. apply not_elem_of_cons in Hj as [Hne Hj].
      rewrite Hframe by done. by apply lookup_delete_ne.
    + intros j d Hj. apply Hsub in Hj.
      by apply lookup_delete_Some in Hj as [_ ?].
    + intros Hnone j Hj. apply elem_of_cons in Hj as [->|Hj].
      * destruct (decide (i ∈ ids)) as [Hin|Hout]; [by apply Hgone|].
        rewrite Hframe by done. apply lookup_delete_eq.
      * by apply Hgone.
Qed.

(** The documents [cleanupCallData] asks for are the signals of the call. *)
Lemma elem_of_signals_of c (m : gmap string Signal.Data) j :
  j ∈ merge_sort String.le
        (map_to_list (filter (λ kv, Signal.callId kv.2 = c) m)).*1
  ↔ ∃ d, m !! j = Some d ∧ Signal.callId d = c.
Proof.
  rewrite merge_sort_Permutation, list_elem_of_fmap. split.
  - intros ([j' d] & -> & Hin). apply elem_of_map_to_list in Hin.
    apply map_lookup_filter_Some in Hin as [? ?]. by exists d.
  - intros (d & Hstored & Hcall). exists (j, d). split; [done|].
    apply elem_of_map_to_list. by apply map_lookup_filter_Some.
Qed.

(** What [cleanupCallData] does: it never throws, leaves the instance
    alone, removes at most the call and signals of the call, and removes
    all of them when nothing is rejected. *)
Lemma cleanupCallData_spec c w :
  let run := cleanupCallData c w in
  run.1 = Ok tt
  ∧ instance run.2 = instance w
  ∧ surroundings run.2 = surroundings w
  ∧ (∀ i, i ≠ c → calls run.2 !! i = calls w !! i)
  ∧ (∀ j d, signals w !! j = Some d → Signal.callId d ≠ c →
            signals run.2 !! j = Some d)
  ∧ (∀ j d, signals run.2 !! j = Some d → signals w !! j = Some d)
  ∧ ((∀ n, sdk_error w n = None) →
     calls run.2 !! c = None
     ∧ ∀ j d, signals run.2 !! j = Some d → Signal.callId d ≠ c).
Proof.
  intros run. unfold run, cleanupCallData, deleteDoc_calls, getDocs_signals,
    console_error, sdk, try_catch, bind, gets, modify, ret. simpl.
  destruct (sdk_error w (sdk_calls w)) as [e|] eqn:Hdelete; simpl.
  { split_and!; try done. intros Hnone. by rewrite Hnone in Hdelete. }
  destruct (sdk_error w (S (sdk_calls w))) as [e|] eqn:Hquery; simpl.
  { split_and!; try done.
    - intros i Hne. by apply lookup_delete_ne.
    - intros Hnone. by rewrite Hnone in Hquery. }
  set (ids := merge_sort String.le _).
  set (w1 := set_sdk_calls _ _).
  pose proof (Promise_all_deleteDoc_signals ids w1)
    as (Hi & Hs & Hc & Hframe & Hsub & Hgone).
  assert (Hids : ∀ j, j ∈ ids ↔ ∃ d, signals w !! j = Some d ∧ Signal.callId d = c)
    by (intros j; apply elem_of_signals_of).
  assert (Hstore :
    let w2 := (CallMatching.Promise_all (List.map deleteDoc_signals ids) w1).2 in
    (∀ i, i ≠ c → calls w2 !! i = calls w !! i)
    ∧ (∀ j d, signals w !! j = Some d → Signal.callId d ≠ c →
              signals w2 !! j = Some d)
    ∧ (∀ j d, signals w2 !! j = Some d → signals w !! j = Some d)
    ∧ ((∀ n, sdk_error w n = None) →
       calls w2 !! c = None
       ∧ ∀ j d, signals w2 !! j = Some d → Signal.callId d ≠ c)).
  { split_and!.
    - intros i Hne. rewrite Hc. by apply lookup_delete_ne.
    - intros j d Hstored Hother. rewrite Hframe; [done|].
      intros (d' & Hstored' & Hcall)%Hids. congruence.
    - done.
    - intros Hnone. split; [rewrite Hc; apply lookup_delete_eq|].
      intros j d Hj Hcall. rewrite Hgone in Hj; [done|done|].
      apply Hids. exists d. split; [by apply Hsub|done]. }
  destruct (CallMatching.Promise_all _ w1) as [[[]|e] w2]; simpl in *;
    destruct Hstore as (? & ? & ? & ?); split_and!; done.
Qed.

Lemma stop_tracks_lookup stream_ ts i :
  stop_tracks stream_ ts !! i
  = (λ t, if bool_decide (i ∈ stream_) then stop t else t) <$> ts !! i.
Proof.
  induction stream_ as [|j stream_ IH]; simpl.
  { by destruct (ts !! i). }
  destruct (decide (j = i)) as [->|Hne].
  - rewrite list_lookup_alter_eq, IH.
    rewrite (bool_decide_eq_true_2 (i ∈ i :: stream_)) by by left.
    destruct (ts !! i) as [t|]; simpl; [|done].
    by case_bool_decide.
  - rewrite list_lookup_alter_ne, IH by done.
    destruct (ts !! i) as [t|]; simpl; [|done].
    destruct (decide (i ∈ stream_)) as [Hin|Hout].
    + rewrite !bool_decide_eq_true_2; [done|by right|done].
    + rewrite !bool_decide_eq_false_2; [done| |done].
      intros [?|?]%elem_of_cons; congruence.
Qed.

(** [endCall], as the sequence of its steps. *)
Lemma endCall_run w :
  let w1 := match localStream w with
            | Some stream_ =>
                set_localStream None
                  (set_tracks (stop_tracks stream_ (tracks w)) (set_peer None w))
            | None => set_peer None w
            end in
  let w3 := set_signalUnsubscribe None
              (updateCallStatus CallMatching.Call.ended w1).2 in
  let w4 := if js_falsy (callId w3) then w3
            else set_callId None (cleanupCallData (default "" (callId w3)) w3).2 in
  endCall w = (Ok tt, set_remoteStream None w4).
Proof.
  intros w1 w3 w4. unfold endCall, try_catch, bind, gets, modify, ret. simpl.
  pose proof (updateCallStatus_frame CallMatching.Call.ended w1) as (Hok & _).
  unfold w4, w3. clear w3 w4. revert Hok. unfold w1. clear w1.
  destruct (localStream w) as [stream_|]; simpl;
    (destruct (updateCallStatus CallMatching.Call.ended _) as [r2 w2];
     simpl; intros ->;
     destruct (js_falsy (callId w2)); [done|];
     pose proof (cleanupCallData_spec (default "" (callId w2))
                   (set_signalUnsubscribe None w2)) as (Hok' & _);
     destruct (cleanupCallData _ _) as [r3 w5]; simpl in *; by subst r3).
Qed.

(** The service after [endCall], field by field, from the state [w2] that
    [updateCallStatus('ended')] leaves. *)
Lemma endCall_fields w :
  let run := endCall w in
  run.1 = Ok tt
  ∧ peer run.2 = None ∧ localStream run.2 = None ∧ remoteStream run.2 = None
  ∧ signalUnsubscribe run.2 = None
  ∧ callId run.2 = (if js_falsy (callId w) then callId w else None)
  ∧ userId run.2 = userId w ∧ isInitiator run.2 = isInitiator w
  ∧ events run.2 = events w
  ∧ sdk_error run.2 = sdk_error w
  ∧ tracks run.2
    = match localStream w with
      | Some stream_ => stop_tracks stream_ (tracks w)
      | None => tracks w
      end.
Proof.
  intros run. unfold run. rewrite endCall_run. cbv zeta.
  set (w1 := match localStream w with Some _ => _ | None => _ end).
  assert (Hw1 : instance w1
                = (None, None, remoteStream w, callId w, userId w,
                   isInitiator w, signalUnsubscribe w)
                ∧ surroundings w1
                  = (match localStream w with
                     | Some stream_ => stop_tracks stream_ (tracks w)
                     | None => tracks w
                     end, events w, clock w, sdk_error w, autoId w,
                     media_error w)).
  { unfold w1, instance, surroundings.
    destruct (localStream w) eqn:Hstream; simpl; by rewrite ?Hstream. }
  destruct Hw1 as [Hi1 Hs1].
  pose proof (updateCallStatus_frame CallMatching.Call.ended w1)
    as (_ & Hi2 & Hs2 & _).
  set (w2 := (updateCallStatus CallMatching.Call.ended w1).2) in *.
  rewrite Hi1 in Hi2. rewrite Hs1 in Hs2.
  unfold instance in Hi2. unfold surroundings in Hs2.
  injection Hi2 as Hpeer Hlocal Hremote Hcall Huser Hinit Hlisten.
  injection Hs2 as Htracks Hevents Hclock Herr Hauto Hmedia.
  simpl. rewrite Hcall.
  destruct (js_falsy (callId w)) eqn:Hfalsy; simpl; [done|].
  pose proof (cleanupCallData_spec (default "" (callId w))
                (set_signalUnsubscribe None w2)) as (_ & Hi3 & Hs3 & _).
  unfold instance in Hi3. unfold surroundings in Hs3. simpl in Hi3, Hs3.
  injection Hi3 as Hpeer' Hlocal' Hremote' Hcall' Huser' Hinit' Hlisten'.
  injection Hs3 as Htracks' Hevents' Hclock' Herr' Hauto' Hmedia'.
  split_and!; congruence.
Qed.

(** X27. [endCall] never throws and always resets the service: afterwards
    there is no peer, no local or remote stream, no listener and no call
    (a call id that counted as set is cleared), and every track of the
    former local stream has been stopped while all other tracks are as
    they were.  None of this depends on whether the database calls
    succeeded. *)
Theorem endCall_resets w :
  let run := endCall w in
  run.1 = Ok tt
  ∧ peer run.2 = None ∧ localStream run.2 = None ∧ remoteStream run.2 = None
  ∧ signalUnsubscribe run.2 = None
  ∧ js_falsy (callId run.2) = true
  ∧ (∀ i t, tracks w !! i = Some t →
            tracks run.2 !! i
            = Some match localStream w with
                   | Some stream_ =>
                       if bool_decide (i ∈ stream_) then stop t else t
                   | None => t
                   end).
Proof.
  intros run.
  destruct (endCall_fields w)
    as (Hok & Hpeer & Hlocal & Hremote & Hlisten & Hcall & _ & _ & _ & _ & Htracks).
  fold run in Hok, Hpeer, Hlocal, Hremote, Hlisten, Hcall, Htracks.
  split_and!; try done.
  - rewrite Hcall. by destruct (js_falsy (callId w)) eqn:Hfalsy.
  - intros i t Hi. rewrite Htracks.
    destruct (localStream w); [|done].
    by rewrite stop_tracks_lookup, Hi.
Qed.

(** The store after [endCall]. *)
Lemma endCall_store w :
  let run := endCall w in
  let c := default "" (callId w) in
  (js_falsy (callId w) = true →
   calls run.2 = calls w ∧ signals run.2 = signals w
   ∧ sdk_calls run.2 = sdk_calls w)
  ∧ (∀ i, i ≠ c → calls run.2 !! i = calls w !! i)
  ∧ (∀ j d, signals w !! j = Some d → Signal.callId d ≠ c →
            signals run.2 !! j = Some d)
  ∧ (∀ j d, signals run.2 !! j = Some d → signals w !! j = Some d)
  ∧ (js_falsy (callId w) = false → (∀ n, sdk_error w n = None) →
     calls run.2 !! c = None
     ∧ ∀ j d, signals run.2 !! j = Some d → Signal.callId d ≠ c).
Proof.
  intros run c. unfold run. rewrite endCall_run. cbv zeta.
  set (w1 := match localStream w with Some _ => _ | None => _ end).
  assert (Hw1 : calls w1 = calls w ∧ signals w1 = signals w
                ∧ callId w1 = callId w ∧ sdk_error w1 = sdk_error w
                ∧ sdk_calls w1 = sdk_calls w).
  { unfold w1. destruct (localStream w); split_and!; reflexivity. }
  destruct Hw1 as (Hcalls1 & Hsignals1 & Hcall1 & Herr1 & Hn1).
  pose proof (updateCallStatus_frame CallMatching.Call.ended w1)
    as (_ & Hi2 & Hs2 & Hsignals2 & Hcalls2 & Hsame2).
  set (w2 := (updateCallStatus CallMatching.Call.ended w1).2) in *.
  unfold instance in Hi2. unfold surroundings in Hs2.
  injection Hi2 as _ _ _ Hcall2 _ _ _.
  injection Hs2 as _ _ _ Herr2 _ _.
  rewrite Hcall1 in Hcall2, Hcalls2, Hsame2. fold c in Hcalls2.
  simpl. rewrite Hcall2.
  destruct (js_falsy (callId w)) eqn:Hfalsy; simpl.
  { rewrite Hsame2 by done. simpl. rewrite Hcalls1, Hsignals1, Hn1.
    split_and!; done. }
  pose proof (cleanupCallData_spec c (set_signalUnsubscribe None w2))
    as (_ & _ & _ & Hcalls3 & Hkeep3 & Hsub3 & Hgone3).
  fold c. simpl in Hcalls3, Hkeep3, Hsub3, Hgone3.
  split_and!; try done.
  - intros i Hne. by rewrite Hcalls3, Hcalls2, Hcalls1.
  - intros j d Hstored Hother. apply Hkeep3; [|done].
    by rewrite Hsignals2, Hsignals1.
  - intros j d Hj. apply Hsub3 in Hj. by rewrite Hsignals2, Hsignals1 in Hj.
  - intros _ Hnone. apply Hgone3. intros n. by rewrite Herr2, Herr1.
Qed.

(** X28. What [endCall] removes.  In a call, whatever the SDK answers,
    [endCall] touches no other call and no signal of another call and
    creates no signal; and when the SDK rejects nothing, the call document
    and every signal of the call are gone afterwards, so the status 'ended'
    it has just written is deleted with the document. *)
Theorem endCall_cleans_store w c :
  callId w = Some c → c ≠ "" →
  let run := endCall w in
  (∀ i, i ≠ c → calls run.2 !! i = calls w !! i)
  ∧ (∀ j d, signals w !! j = Some d → Signal.callId d ≠ c →
            signals run.2 !! j = Some d)
  ∧ (∀ j d, signals run.2 !! j = Some d → signals w !! j = Some d)
  ∧ ((∀ n, sdk_error w n = None) →
     calls run.2 !! c = None
     ∧ ∀ j d, signals run.2 !! j = Some d → Signal.callId d ≠ c).
Proof.
  intros Hcall Hne run.
  destruct (endCall_store w) as (_ & Hcalls & Hkeep & Hsub & Hgone).
  rewrite Hcall in Hcalls, Hkeep, Hgone. simpl in Hcalls, Hkeep, Hgone.
  rewrite bool_decide_eq_false_2 in Hgone by done.
  split_and!; try done. intros Hnone. by apply Hgone.
Qed.

(** X29. [endCall] outside a call: when the service has no call id, it
    makes no call to the SDK at all and leaves [calls] and [signals] as
    they are. *)
Theorem endCall_without_call w :
  callId w = None ∨ callId w = Some "" →
  let run := endCall w in
  calls run.2 = calls w ∧ signals run.2 = signals w
  ∧ sdk_calls run.2 = sdk_calls w
  ∧ console run.2 = console w.
Proof.
  intros Hnone run.
  assert (Hfalsy : js_falsy (callId w) = true) by by destruct Hnone as [-> | ->].
  destruct (endCall_store w) as (Hsame & _).
  destruct (Hsame Hfalsy) as (? & ? & ?).
  split_and!; try done.
  unfold run. rewrite endCall_run. cbv zeta.
  set (w1 := match localStream w with Some _ => _ | None => _ end).
  assert (Hw1 : callId w1 = callId w ∧ console w1 = console w)
    by (unfold w1; destruct (localStream w); split; reflexivity).
  destruct Hw1 as [Hcall1 Hconsole1].
  pose proof (updateCallStatus_frame CallMatching.Call.ended w1)
    as (_ & _ & _ & _ & _ & Hsame2).
  rewrite Hcall1 in Hsame2. rewrite (Hsame2 Hfalsy). simpl.
  rewrite Hcall1, Hfalsy. done.
Qed.

(** What [createCall] leaves in the store, with or without a local stream. *)
Lemma createCall_store callType w :
  sdk_error w (sdk_calls w) = None →
  let callDoc := autoId w (sdk_calls w) in
  let run := createCall callType w in
  calls run.2 = <[callDoc := created_call (userId w) (clock w) callType]> (calls w)
  ∧ signals run.2 = signals w
  ∧ callId run.2 = Some callDoc
  ∧ sdk_error run.2 = sdk_error w.
Proof.
  intros Hok callDoc run. unfold run, createCall, addDoc_calls,
    initializePeer, listenForSignals, sdk, try_catch, bind, gets, modify,
    ret, throw. simpl. rewrite Hok. simpl.
  destruct (localStream w); simpl; [|done].
  by destruct (bool_decide _).
Qed.

(** X30. A call that is created and ended leaves nothing behind.  When the
    SDK rejects nothing and the id Firestore gives the new call document is
    fresh (non-empty, not the id of a stored call, and not the call of a
    stored signal), [createCall] followed by [endCall] leaves [calls] and
    [signals] exactly as they were before, whether or not [createCall]
    succeeded in creating its peer. *)
Theorem createCall_then_endCall callType w :
  (∀ n, sdk_error w n = None) →
  autoId w (sdk_calls w) ≠ "" →
  calls w !! autoId w (sdk_calls w) = None →
  (∀ j d, signals w !! j = Some d → Signal.callId d ≠ autoId w (sdk_calls w)) →
  let created := createCall callType w in
  let run := endCall created.2 in
  run.1 = Ok tt ∧ calls run.2 = calls w ∧ signals run.2 = signals w.
Proof.
  intros Hnone Hid Hfresh Hforeign created run.
  destruct (createCall_store callType w (Hnone _))
    as (Hcalls & Hsignals & Hcall & Herr).
  fold created in Hcalls, Hsignals, Hcall, Herr.
  destruct (endCall_fields created.2) as (Hok & _).
  destruct (endCall_store created.2) as (_ & Hframe & Hkeep & Hsub & Hgone).
  fold run in Hok, Hframe, Hkeep, Hsub, Hgone.
  rewrite Hcall in Hframe, Hkeep, Hgone. simpl in Hframe, Hkeep, Hgone.
  rewrite bool_decide_eq_false_2 in Hgone by done.
  destruct (Hgone eq_refl) as [Hdeleted Hnone_left].
  { intros n. by rewrite Herr. }
  split; [done|]. split.
  - apply map_eq. intros i.
    destruct (decide (i = autoId w (sdk_calls w))) as [->|Hne].
    + by rewrite Hdeleted, Hfresh.
    + rewrite Hframe by done. rewrite Hcalls. by apply lookup_insert_ne.
  - apply map_eq. intros j.
    destruct (signals w !! j) as [d|] eqn:Hj.
    + apply Hkeep; [by rewrite Hsignals|by eapply Hforeign].
    + destruct (signals run.2 !! j) as [d|] eqn:Hj'; [|done].
      apply Hsub in Hj'. rewrite Hsignals in Hj'. congruence.
Qed.

End WebRTCProperties.

Section WebRTCWitnesses.

Import WebRTC.

Local Abbreviation in_video_call :=
  (initializeMedia CallMatching.video (sample_service "alice")).2.

Lemma toggleTrack_twice_witness :
  (toggleAudio in_video_call).1 = Ok false
  ∧ (toggleAudio (toggleAudio in_video_call).2).1 = Ok true
  ∧ tracks (toggleAudio in_video_call).2 !! 1%nat
    = Some {| kind := video; enabled := true; stopped := false |}.
Proof.
  destruct (toggleTrack_twice audio in_video_call) as (_ & Hother & Hreturns).
  destruct (Hreturns [0; 1]%nat 0%nat
              {| kind := audio; enabled := true; stopped := false |}
              eq_refl eq_refl eq_refl) as (Honce & Htwice & _).
  split; [exact Honce|]. split; [exact Htwice|].
  apply Hother; [reflexivity|discriminate].
Defined.

Lemma initializeMedia_voice_toggles_witness :
  let ready := (initializeMedia CallMatching.voice (sample_service "alice")).2 in
  toggleVideo ready = (Ok false, ready) ∧ (toggleAudio ready).1 = Ok false.
Proof.
  intros ready.
  destruct (initializeMedia_voice_toggles (sample_service "alice") eq_refl)
    as (Hvideo & Haudio & _).
  split; [exact Hvideo|exact Haudio].
Defined.

Lemma sendSignal_routing_witness :
  (∃ d, signals alice_signalled = <["doc1" := d]> (signals alice_calling)
        ∧ Signal.from d = "alice"
        ∧ in_query {| q_callId := "doc0"; q_to := "receiver" |} d = true
        ∧ in_query {| q_callId := "doc0"; q_to := "caller" |} d = false)
  ∧ (sendSignal sample_answer bob_offline).1 = Ok tt
  ∧ signals (sendSignal sample_answer bob_offline).2 = signals bob_offline
  ∧ console (sendSignal sample_answer bob_offline).2
    = ["Failed to send signal: unavailable"].
Proof.
  destruct (sendSignal_routing sample_offer alice_calling)
    as (_ & _ & _ & Hsent).
  destruct (Hsent "doc0") as (d & Hstored & Hfrom & _ & _ & _ & Hother & Hown);
    [reflexivity|discriminate|reflexivity|].
  destruct (sendSignal_routing sample_answer bob_offline)
    as (Hok & _ & Hlost & _).
  destruct (Hlost "unavailable" eq_refl eq_refl) as [Hsignals Hconsole].
  split; [|split; [exact Hok|split; [exact Hsignals|exact Hconsole]]].
  exists d. split; [exact Hstored|]. split; [exact Hfrom|]. split.
  - destruct (Hother bob_joined eq_refl eq_refl) as (q & Hq & Hin).
    injection Hq as <-. exact Hin.
  - apply Hown. reflexivity.
Defined.

Lemma onSignalsSnapshot_consumes_witness :
  let run := onSignalsSnapshot sample_snapshot bob_joined in
  (signalled <$> peer run.2) = Some [sample_offer]
  ∧ signals run.2 !! "doc1" = None
  ∧ (destroyed <$> peer bob_disconnected) = Some true
  ∧ onSignalsSnapshot sample_snapshot bob_disconnected
    = (Throw "cannot signal after peer is destroyed", bob_disconnected).
Proof.
  intros run.
  destruct (onSignalsSnapshot_consumes sample_snapshot bob_joined)
    as (_ & Hlive & _ & _).
  destruct (Hlive (new_peer false [0; 1]%nat) eq_refl eq_refl)
    as (_ & Hpeer & Hgone).
  destruct (onSignalsSnapshot_consumes sample_snapshot bob_disconnected)
    as (_ & _ & Hdestroyed & _).
  split; [|split; [|split; [reflexivity|]]].
  - fold run in Hpeer. rewrite Hpeer. reflexivity.
  - apply Hgone.
    + intros n. reflexivity.
    + vm_compute. left.
  - exact (Hdestroyed _ eq_refl eq_refl).
Defined.

Lemma createCall_outcome_witness :
  calls alice_calling
  = {["doc0" := created_call "alice" 1700000600000 CallMatching.video]}
  ∧ callId alice_calling = Some "doc0"
  ∧ (createCall CallMatching.video (sample_service "alice")).1
    = Throw "Failed to create call: Local stream not initialized".
Proof.
  destruct (createCall_outcome CallMatching.video in_video_call eq_refl)
    as (Hcalls & Hcall & _); [discriminate|].
  destruct (createCall_outcome CallMatching.video (sample_service "alice")
              eq_refl) as (_ & _ & _ & Hthrows & _); [discriminate|].
  split; [exact Hcalls|]. split; [exact Hcall|exact Hthrows].
Defined.

Lemma joinCall_outcome_witness :
  calls bob_joined !! "doc0"
  = Some {| CallMatching.Call.callerId := "alice";
            CallMatching.Call.receiverId := Some "bob";
            CallMatching.Call.status := CallMatching.Call.connecting;
            CallMatching.Call.createdAt := 1700000600000;
            CallMatching.Call.endedAt := None;
            CallMatching.Call.callType := CallMatching.video |}
  ∧ signalUnsubscribe bob_joined
    = Some {| q_callId := "doc0"; q_to := "receiver" |}.
Proof.
  destruct (joinCall_outcome "doc0" bob_ready
              (created_call "alice" 1700000600000 CallMatching.video))
    as (Hcalls & _ & _ & _ & _ & _ & Hlisten);
    [by vm_compute|reflexivity|discriminate|].
  split; [|exact Hlisten].
  unfold bob_joined. rewrite Hcalls. by vm_compute.
Defined.

Lemma joinCall_rejected_witness :
  let run := joinCall "doc7" bob_ready in
  callId run.2 = Some "doc7" ∧ calls run.2 = calls bob_ready.
Proof.
  intros run.
  destruct (joinCall_rejected "doc7" bob_ready) as (_ & Hcalls & _ & Hcall & _).
  - left. by vm_compute.
  - split; [exact Hcall|exact Hcalls].
Defined.

Lemma endCall_resets_witness :
  let run := endCall bob_joined in
  peer run.2 = None
  ∧ tracks run.2 !! 0%nat
    = Some {| kind := audio; enabled := true; stopped := true |}.
Proof.
  intros run.
  destruct (endCall_resets bob_joined) as (_ & Hpeer & _ & _ & _ & _ & Htracks).
  split; [exact Hpeer|].
  apply (Htracks 0%nat {| kind := audio; enabled := true; stopped := false |}).
  reflexivity.
Defined.

Lemma endCall_cleans_store_witness :
  let run := endCall bob_joined in
  calls run.2 !! "doc0" = None ∧ signals run.2 = ∅.
Proof.
  intros run.
  destruct (endCall_cleans_store bob_joined "doc0")
    as (_ & _ & _ & Hgone); [reflexivity|discriminate|].
  destruct Hgone as [Hcall _]; [intros n; reflexivity|].
  split; [exact Hcall|by vm_compute].
Defined.

Lemma endCall_without_call_witness :
  let run := endCall in_video_call in
  calls run.2 = ∅ ∧ sdk_calls run.2 = 0%nat.
Proof.
  intros run.
  destruct (endCall_without_call in_video_call) as (Hcalls & _ & Hn & _).
  - by left.
  - split; [exact Hcalls|exact Hn].
Defined.

Lemma createCall_then_endCall_witness :
  let created := createCall CallMatching.video in_video_call in
  calls created.2 !! "doc0"
  = Some (created_call "alice" 1700000600000 CallMatching.video)
  ∧ calls (endCall created.2).2 = ∅.
Proof.
  intros created. split; [reflexivity|].
  apply (createCall_then_endCall CallMatching.video in_video_call).
  - intros n. reflexivity.
  - discriminate.
  - reflexivity.
  - intros j d Hj. by vm_compute in Hj.
Defined.

End WebRTCWitnesses.
